(** * SoloTranscribeCLI: the batch orchestration core, embedded in Rocq

    The development follows the layout of the Python package
    [solotranscribe]: [models.py], [config.py],
    [formatters/output_formatters.py], [core/manifest.py] and
    [core/processor.py].  Python objects that are mutated in place (the jobs
    of a manifest) live in the manifest's job list and are addressed by their
    position; monetary amounts and time stamps of words (Python floats and
    ints) are rationals; a string is the sequence of its code points, all
    below 256; the answers of the outside world (video platform,
    conversion and transcription services, file system, clock) are inputs of
    the functions that consume them. *)

From Stdlib Require Import ZArith QArith Lia List Ascii String.
From Stdlib Require Import DecimalString DecimalNat DecimalZ.
From stdpp Require Import base tactics option list strings gmap.

Set Warnings "-register-all".

Local Open Scope string_scope.
Local Open Scope Z_scope.
Local Open Scope list_scope.

(** ** Python values shared by all modules *)

(** A [pathlib.Path]; only its text matters here. *)
Definition Path := string.

(** A [datetime]: an instant, as the clock's reading. *)
Definition datetime := Z.

(** The result of a call that may raise: Python exceptions are values. *)
Inductive PyExn : Type :=
  | ValueError (msg : string)
  | TypeError (msg : string)
  | AttributeError (msg : string)
  | KeyError (msg : string)
  | OSError (msg : string)
  | OtherError (msg : string).

Inductive Outcome (A : Type) : Type :=
  | Returns (a : A)
  | Raises (e : PyExn).
Arguments Returns {A} a.
Arguments Raises {A} e.

Definition bind_outcome {A B} (o : Outcome A) (k : A -> Outcome B) : Outcome B :=
  match o with
  | Returns a => k a
  | Raises e => Raises e
  end.

(** [str(e)] of an exception. *)
Definition exn_message (e : PyExn) : string :=
  match e with
  | ValueError m | TypeError m | AttributeError m
  | KeyError m | OSError m | OtherError m => m
  end.

(** Truth value of an optional float: [None] and [0.0] are falsy. *)
Definition truthy_float (x : option Q) : bool :=
  match x with
  | Some q => negb (Qeq_bool q 0)
  | None => false
  end.

(** [x or d] for an optional float [x]. *)
Definition float_or (x : option Q) (d : Q) : Q :=
  if truthy_float x then default d x else d.

(** Truth value of an optional string: [None] and the empty string are falsy. *)
Definition truthy_str (s : option string) : bool :=
  match s with
  | Some EmptyString | None => false
  | Some _ => true
  end.

(** Python's [a > b] on floats. *)
Definition Qgt_bool (a b : Q) : bool := negb (Qle_bool a b).

(** Python's [a >= b] on floats. *)
Definition Qge_bool (a b : Q) : bool := Qle_bool b a.

(** Python's [==] on optional floats. *)
Definition float_opt_eqb (x y : option Q) : bool :=
  match x, y with
  | Some a, Some b => Qeq_bool a b
  | None, None => true
  | _, _ => false
  end.

(** ** models.py *)

Inductive JobStatus : Type :=
  | PENDING | DOWNLOADING | CONVERTING | TRANSCRIBING
  | FORMATTING | COMPLETED | FAILED | SKIPPED.

Inductive FailureReason : Type :=
  | INVALID_URL | ACCESS_DENIED | DOWNLOAD_FAILED | CONVERT_FAILED
  | TRANSCRIPTION_FAILED | FORMAT_FAILED | BUDGET_EXCEEDED | UNKNOWN_ERROR.

Inductive OutputFormats : Type := TXT | JSON | SRT | VTT.

#[global] Instance JobStatus_eq_dec : EqDecision JobStatus.
Proof. solve_decision. Defined.
#[global] Instance FailureReason_eq_dec : EqDecision FailureReason.
Proof. solve_decision. Defined.
#[global] Instance OutputFormats_eq_dec : EqDecision OutputFormats.
Proof. solve_decision. Defined.

(** The [.value] of the three string enumerations. *)
Definition JobStatus_value (s : JobStatus) : string :=
  match s with
  | PENDING => "pending" | DOWNLOADING => "downloading"
  | CONVERTING => "converting" | TRANSCRIBING => "transcribing"
  | FORMATTING => "formatting" | COMPLETED => "completed"
  | FAILED => "failed" | SKIPPED => "skipped"
  end.

Definition FailureReason_value (r : FailureReason) : string :=
  match r with
  | INVALID_URL => "invalid_url" | ACCESS_DENIED => "access_denied"
  | DOWNLOAD_FAILED => "download_failed" | CONVERT_FAILED => "convert_failed"
  | TRANSCRIPTION_FAILED => "transcription_failed"
  | FORMAT_FAILED => "format_failed" | BUDGET_EXCEEDED => "budget_exceeded"
  | UNKNOWN_ERROR => "unknown_error"
  end.

Definition OutputFormats_value (f : OutputFormats) : string :=
  match f with TXT => "txt" | JSON => "json" | SRT => "srt" | VTT => "vtt" end.

Record VideoMetadata : Type := mkVideoMetadata {
  title : option string;
  platform : option string;
  duration : option Q;
  upload_date : option string;
  uploader : option string;
  description : option string;
  view_count : option Z
}.

(** One entry of [transcript_data['words']]. *)
Record Word : Type := mkWord {
  word_text : option string;
  word_start : option Q;
  word_end : option Q;
  word_confidence : option Q
}.

(** The dictionary the transcription adapter builds for a completed
    transcript. *)
Record TranscriptData : Type := mkTranscriptData {
  td_id : option string;
  td_text : option string;
  td_status : option string;
  td_audio_url : option string;
  td_confidence : option Q;
  td_audio_duration : option Q;
  td_words : list Word;
  td_summary : option string
}.

Record TranscriptionJob : Type := mkJob {
  id : string;
  url : string;
  status : JobStatus;
  created_at : datetime;
  started_at : option datetime;
  completed_at : option datetime;
  video_metadata : option VideoMetadata;
  temp_video_path : option Path;
  temp_audio_path : option Path;
  output_dir : option Path;
  freeconvert_job_id : option string;
  assemblyai_transcript_id : option string;
  transcript_text : option string;
  transcript_data : option TranscriptData;
  error_message : option string;
  failure_reason : option FailureReason;
  retry_count : Z;
  estimated_cost : option Q;
  actual_cost : option Q
}.

(** Attribute assignments [job.f = v], one per attribute the package
    assigns. *)
Definition set_status (v : JobStatus) (j : TranscriptionJob) : TranscriptionJob :=
  mkJob (id j) (url j) v (created_at j) (started_at j) (completed_at j)
    (video_metadata j) (temp_video_path j) (temp_audio_path j) (output_dir j)
    (freeconvert_job_id j) (assemblyai_transcript_id j) (transcript_text j)
    (transcript_data j) (error_message j) (failure_reason j) (retry_count j)
    (estimated_cost j) (actual_cost j).

Definition set_started_at (v : option datetime) (j : TranscriptionJob) : TranscriptionJob :=
  mkJob (id j) (url j) (status j) (created_at j) v (completed_at j)
    (video_metadata j) (temp_video_path j) (temp_audio_path j) (output_dir j)
    (freeconvert_job_id j) (assemblyai_transcript_id j) (transcript_text j)
    (transcript_data j) (error_message j) (failure_reason j) (retry_count j)
    (estimated_cost j) (actual_cost j).

Definition set_completed_at (v : option datetime) (j : TranscriptionJob) : TranscriptionJob :=
  mkJob (id j) (url j) (status j) (created_at j) (started_at j) v
    (video_metadata j) (temp_video_path j) (temp_audio_path j) (output_dir j)
    (freeconvert_job_id j) (assemblyai_transcript_id j) (transcript_text j)
    (transcript_data j) (error_message j) (failure_reason j) (retry_count j)
    (estimated_cost j) (actual_cost j).

Definition set_video_metadata (v : option VideoMetadata) (j : TranscriptionJob) : TranscriptionJob :=
  mkJob (id j) (url j) (status j) (created_at j) (started_at j) (completed_at j)
    v (temp_video_path j) (temp_audio_path j) (output_dir j)
    (freeconvert_job_id j) (assemblyai_transcript_id j) (transcript_text j)
    (transcript_data j) (error_message j) (failure_reason j) (retry_count j)
    (estimated_cost j) (actual_cost j).

Definition set_temp_video_path (v : option Path) (j : TranscriptionJob) : TranscriptionJob :=
  mkJob (id j) (url j) (status j) (created_at j) (started_at j) (completed_at j)
    (video_metadata j) v (temp_audio_path j) (output_dir j)
    (freeconvert_job_id j) (assemblyai_transcript_id j) (transcript_text j)
    (transcript_data j) (error_message j) (failure_reason j) (retry_count j)
    (estimated_cost j) (actual_cost j).

Definition set_temp_audio_path (v : option Path) (j : TranscriptionJob) : TranscriptionJob :=
  mkJob (id j) (url j) (status j) (created_at j) (started_at j) (completed_at j)
    (video_metadata j) (temp_video_path j) v (output_dir j)
    (freeconvert_job_id j) (assemblyai_transcript_id j) (transcript_text j)
    (transcript_data j) (error_message j) (failure_reason j) (retry_count j)
    (estimated_cost j) (actual_cost j).

Definition set_assemblyai_transcript_id (v : option string) (j : TranscriptionJob) : TranscriptionJob :=
  mkJob (id j) (url j) (status j) (created_at j) (started_at j) (completed_at j)
    (video_metadata j) (temp_video_path j) (temp_audio_path j) (output_dir j)
    (freeconvert_job_id j) v (transcript_text j)
    (transcript_data j) (error_message j) (failure_reason j) (retry_count j)
    (estimated_cost j) (actual_cost j).

Definition set_transcript_text (v : option string) (j : TranscriptionJob) : TranscriptionJob :=
  mkJob (id j) (url j) (status j) (created_at j) (started_at j) (completed_at j)
    (video_metadata j) (temp_video_path j) (temp_audio_path j) (output_dir j)
    (freeconvert_job_id j) (assemblyai_transcript_id j) v
    (transcript_data j) (error_message j) (failure_reason j) (retry_count j)
    (estimated_cost j) (actual_cost j).

Definition set_transcript_data (v : option TranscriptData) (j : TranscriptionJob) : TranscriptionJob :=
  mkJob (id j) (url j) (status j) (created_at j) (started_at j) (completed_at j)
    (video_metadata j) (temp_video_path j) (temp_audio_path j) (output_dir j)
    (freeconvert_job_id j) (assemblyai_transcript_id j) (transcript_text j)
    v (error_message j) (failure_reason j) (retry_count j)
    (estimated_cost j) (actual_cost j).

Definition set_error_message (v : option string) (j : TranscriptionJob) : TranscriptionJob :=
  mkJob (id j) (url j) (status j) (created_at j) (started_at j) (completed_at j)
    (video_metadata j) (temp_video_path j) (temp_audio_path j) (output_dir j)
    (freeconvert_job_id j) (assemblyai_transcript_id j) (transcript_text j)
    (transcript_data j) v (failure_reason j) (retry_count j)
    (estimated_cost j) (actual_cost j).

Definition set_failure_reason (v : option FailureReason) (j : TranscriptionJob) : TranscriptionJob :=
  mkJob (id j) (url j) (status j) (created_at j) (started_at j) (completed_at j)
    (video_metadata j) (temp_video_path j) (temp_audio_path j) (output_dir j)
    (freeconvert_job_id j) (assemblyai_transcript_id j) (transcript_text j)
    (transcript_data j) (error_message j) v (retry_count j)
    (estimated_cost j) (actual_cost j).

Definition set_retry_count (v : Z) (j : TranscriptionJob) : TranscriptionJob :=
  mkJob (id j) (url j) (status j) (created_at j) (started_at j) (completed_at j)
    (video_metadata j) (temp_video_path j) (temp_audio_path j) (output_dir j)
    (freeconvert_job_id j) (assemblyai_transcript_id j) (transcript_text j)
    (transcript_data j) (error_message j) (failure_reason j) v
    (estimated_cost j) (actual_cost j).

Definition set_estimated_cost (v : option Q) (j : TranscriptionJob) : TranscriptionJob :=
  mkJob (id j) (url j) (status j) (created_at j) (started_at j) (completed_at j)
    (video_metadata j) (temp_video_path j) (temp_audio_path j) (output_dir j)
    (freeconvert_job_id j) (assemblyai_transcript_id j) (transcript_text j)
    (transcript_data j) (error_message j) (failure_reason j) (retry_count j)
    v (actual_cost j).

Definition set_actual_cost (v : option Q) (j : TranscriptionJob) : TranscriptionJob :=
  mkJob (id j) (url j) (status j) (created_at j) (started_at j) (completed_at j)
    (video_metadata j) (temp_video_path j) (temp_audio_path j) (output_dir j)
    (freeconvert_job_id j) (assemblyai_transcript_id j) (transcript_text j)
    (transcript_data j) (error_message j) (failure_reason j) (retry_count j)
    (estimated_cost j) v.

(** [TranscriptionJob(id=job_id, url=url, status=JobStatus.PENDING)]: every
    other attribute takes its declared default; [created_at] is the clock's
    reading at construction. *)
Definition new_job (job_id job_url : string) (now : datetime) : TranscriptionJob :=
  mkJob job_id job_url PENDING now None None None None None None None None
    None None None None 0 None None.

Record TranscriptionManifest : Type := mkManifest {
  manifest_id : string;
  manifest_created_at : datetime;
  updated_at : datetime;
  input_file : string;
  manifest_output_dir : string;
  output_formats : list string;
  jobs : list TranscriptionJob;
  total_jobs : nat;
  completed_jobs : nat;
  failed_jobs : nat;
  total_estimated_cost : Q;
  total_actual_cost : Q;
  budget_cap : Q
}.

(** Replacing the job list: the jobs are the only mutable part of a manifest
    besides the statistics. *)
Definition set_jobs (js : list TranscriptionJob) (m : TranscriptionManifest)
  : TranscriptionManifest :=
  mkManifest (manifest_id m) (manifest_created_at m) (updated_at m)
    (input_file m) (manifest_output_dir m) (output_formats m) js
    (total_jobs m) (completed_jobs m) (failed_jobs m)
    (total_estimated_cost m) (total_actual_cost m) (budget_cap m).

(** [sum(c(j) or 0 for j in jobs)]: Python's [sum] adds from the left,
    starting at [0]. *)
Definition sum_costs (c : TranscriptionJob -> option Q) (js : list TranscriptionJob) : Q :=
  fold_left (fun acc j => (acc + float_or (c j) 0)%Q) js 0%Q.

(** [TranscriptionManifest.update_stats]; [now] is [datetime.utcnow()]. *)
Definition update_stats (now : datetime) (m : TranscriptionManifest) : TranscriptionManifest :=
  mkManifest (manifest_id m) (manifest_created_at m) now
    (input_file m) (manifest_output_dir m) (output_formats m) (jobs m)
    (length (jobs m))
    (length (filter (fun j => status j = COMPLETED) (jobs m)))
    (length (filter (fun j => status j = FAILED) (jobs m)))
    (sum_costs estimated_cost (jobs m))
    (sum_costs actual_cost (jobs m))
    (budget_cap m).

(** [TranscriptionManifest.get_failed_jobs]. *)
Definition get_failed_jobs (m : TranscriptionManifest) : list TranscriptionJob :=
  filter (fun j => status j = FAILED) (jobs m).

Record ProcessingOptions : Type := mkOptions {
  opt_input_file : Path;
  opt_output_dir : Path;
  opt_formats : list OutputFormats;
  opt_enable_summary : bool;
  opt_delete_temp : bool;
  opt_dry_run : bool;
  opt_budget_cap : option Q
}.

(** ** config.py *)

Record Config : Type := mkConfig {
  retry_limit : Z;
  delete_temp_on_success : bool;
  enable_summary : bool;
  cap_budget_usd : Q
}.

(** What [Config._validate] accepts, as far as the two limits go. *)
Definition config_valid (c : Config) : Prop :=
  1 <= retry_limit c /\ (0 < cap_budget_usd c)%Q.

(** [TranscriptionManifest.get_retryable_jobs]: the jobs are returned as
    references into [manifest.jobs], here their positions paired with the
    job as it was when selected. *)
Definition retryable (config : Config) (j : TranscriptionJob) : Prop :=
  status j = FAILED /\ retry_count j < retry_limit config.

#[global] Instance retryable_dec config j : Decision (retryable config j).
Proof. unfold retryable. apply _. Defined.

Definition get_retryable_jobs (config : Config) (m : TranscriptionManifest)
  : list (nat * TranscriptionJob) :=
  filter (fun ij => retryable config ij.2) (imap pair (jobs m)).

(** ** formatters/output_formatters.py: caption segments *)

Record Segment : Type := mkSegment {
  seg_start : Q;
  seg_end : Q;
  seg_text : string
}.

(** [' '.join(w['text'] for w in current_segment)]; a word without a text
    makes the join raise. *)
Definition join_texts (ws : list Word) : Outcome string :=
  match mapM word_text ws with
  | Some ts => Returns (String.concat " " ts)
  | None => Raises (KeyError "text")
  end.

(** The dictionary appended to [segments] when a segment is finished:
    [{'start': current_start, 'end': current_segment[-1]['end'], 'text': ...}]. *)
Definition make_segment (current_start : option Q) (current_segment : list Word)
  : Outcome Segment :=
  match current_start, last current_segment with
  | Some s, Some w =>
      match word_end w with
      | Some e => bind_outcome (join_texts current_segment)
                    (fun t => Returns (mkSegment s e t))
      | None => Raises (KeyError "end")
      end
  | None, Some _ => Raises (TypeError "start")
  | _, None => Raises (OtherError "list index out of range")
  end.

(** [not word.get('start') or not word.get('end')]: a missing, [None] or
    zero time stamp makes the word be skipped. *)
Definition word_is_skipped (w : Word) : bool :=
  negb (truthy_float (word_start w)) || negb (truthy_float (word_end w)).

Module SRTFormatter.

(** The [for word in words] loop of [SRTFormatter._group_words_into_segments],
    with the three local variables as arguments. *)
Fixpoint group_loop (max_duration : Q) (max_words : nat) (words : list Word)
    (segments : list Segment) (current_segment : list Word)
    (current_start : option Q) : Outcome (list Segment) :=
  match words with
  | [] =>
      match current_segment with
      | [] => Returns segments
      | _ :: _ =>
          bind_outcome (make_segment current_start current_segment)
            (fun seg => Returns (segments ++ [seg]))
      end
  | word :: rest =>
      if word_is_skipped word then
        group_loop max_duration max_words rest segments current_segment current_start
      else
        match current_segment with
        | [] => group_loop max_duration max_words rest segments [word] (word_start word)
        | _ :: _ =>
            match word_end word, current_start with
            | Some e, Some s =>
                if Qgt_bool (e - s) max_duration
                   || bool_decide (max_words <= length current_segment)%nat
                then
                  bind_outcome (make_segment current_start current_segment)
                    (fun seg =>
                       group_loop max_duration max_words rest (segments ++ [seg])
                         [word] (word_start word))
                else
                  group_loop max_duration max_words rest segments
                    (current_segment ++ [word]) current_start
            | _, _ => Raises (TypeError "unsupported operand type(s) for -")
            end
        end
  end.

Definition _group_words_into_segments (words : list Word) : Outcome (list Segment) :=
  group_loop 8 10 words [] [] None.

End SRTFormatter.

Module VTTFormatter.

(** The loop of [VTTFormatter._group_words_into_segments]: as the SRT one,
    without the bound on the number of words. *)
Fixpoint group_loop (max_duration : Q) (words : list Word)
    (segments : list Segment) (current_segment : list Word)
    (current_start : option Q) : Outcome (list Segment) :=
  match words with
  | [] =>
      match current_segment with
      | [] => Returns segments
      | _ :: _ =>
          bind_outcome (make_segment current_start current_segment)
            (fun seg => Returns (segments ++ [seg]))
      end
  | word :: rest =>
      if word_is_skipped word then
        group_loop max_duration rest segments current_segment current_start
      else
        match current_segment with
        | [] => group_loop max_duration rest segments [word] (word_start word)
        | _ :: _ =>
            match word_end word, current_start with
            | Some e, Some s =>
                if Qgt_bool (e - s) max_duration
                then
                  bind_outcome (make_segment current_start current_segment)
                    (fun seg =>
                       group_loop max_duration rest (segments ++ [seg])
                         [word] (word_start word))
                else
                  group_loop max_duration rest segments
                    (current_segment ++ [word]) current_start
            | _, _ => Raises (TypeError "unsupported operand type(s) for -")
            end
        end
  end.

Definition _group_words_into_segments (words : list Word) : Outcome (list Segment) :=
  group_loop 8 words [] [] None.

End VTTFormatter.

(** *** What the caption claims speak about *)

(** A word with explicit time stamps, as a transcript carries them. *)
Definition explicit_timestamps (w : Word) : Prop :=
  is_Some (word_text w) /\ is_Some (word_start w) /\ is_Some (word_end w).

(** A word the grouping loop does not skip: a text, and a start and an end
    that are present and not zero. *)
Definition timed_word (w : Word) : Prop :=
  is_Some (word_text w) /\ truthy_float (word_start w) = true
  /\ truthy_float (word_end w) = true.

(** [seg] is the caption of the group of words [g]: it starts with the first
    word, ends with the last one, and its text is the words' texts joined by
    single spaces. *)
Definition segment_of (g : list Word) (seg : Segment) : Prop :=
  head g ≫= word_start = Some (seg_start seg)
  /\ last g ≫= word_end = Some (seg_end seg)
  /\ String.concat " " <$> mapM word_text g = Some (seg_text seg).

(** Every word of [g] after the first ends at most [d] after [s]. *)
Definition within (d s : Q) (g : list Word) : Prop :=
  Forall (fun w => exists e, word_end w = Some e /\ (e - s <= d)%Q) (tail g).

(** The span of a caption. *)
Definition seg_span (seg : Segment) : Q := (seg_end seg - seg_start seg)%Q.

(** A finished group [g] with its caption [seg]: not empty, made of timed
    words, at most [N] words, every word after the first within [d] of the
    caption's start. *)
Definition good_group (d : Q) (N : nat) (g : list Word) (seg : Segment) : Prop :=
  g <> [] /\ Forall timed_word g /\ segment_of g seg /\ (length g <= N)%nat
  /\ within d (seg_start seg) g.

(** The loop's invariant on [current_segment] and [current_start]. *)
Definition cur_ok (d : Q) (N : nat) (cur : list Word) (start : option Q) : Prop :=
  cur = [] \/
  exists s, start = Some s /\ head cur ≫= word_start = Some s
    /\ Forall timed_word cur /\ (length cur <= N)%nat /\ within d s cur.

(** What the grouping promises of a group and its caption: the caption is
    the group's, and a caption of two words or more spans at most [d]. *)
Definition caption_of (d : Q) (g : list Word) (seg : Segment) : Prop :=
  g <> [] /\ segment_of g seg /\ ((2 <= length g)%nat -> (seg_span seg <= d)%Q).

(** Words used in the examples below. *)
Definition sample_words : list Word :=
  [ mkWord (Some "good") (Some 1%Q) (Some 2%Q) None;
    mkWord (Some "morning") (Some 2%Q) (Some 3%Q) None;
    mkWord (Some "everyone") (Some 10%Q) (Some 12%Q) None ].

Definition long_word : Word := mkWord (Some "hello") (Some 1%Q) (Some 20%Q) None.

(** ** core/manifest.py: reading the input list *)

(** A character of a Python string is its code point, so the strings of
    this development are the texts whose code points are all below 256.
    [str.isspace] on that range: tab, line feed, vertical tab, form feed,
    carriage return, the four separators 28-31, the space, the next-line
    control (133) and the no-break space (160). *)
Definition py_isspace (c : ascii) : bool :=
  let n := nat_of_ascii c in
  ((9 <=? n)%nat && (n <=? 13)%nat) || ((28 <=? n)%nat && (n <=? 32)%nat)
  || (n =? 133)%nat || (n =? 160)%nat.

Fixpoint lstrip (s : string) : string :=
  match s with
  | String c s' => if py_isspace c then lstrip s' else s
  | EmptyString => EmptyString
  end.

Definition rstrip (s : string) : string := String.rev (lstrip (String.rev s)).

(** [str.strip()]. *)
Definition strip (s : string) : string := rstrip (lstrip s).

(** [s.startswith(p)]. *)
Definition startswith (p s : string) : bool := String.prefix p s.

(** Truth value of a string. *)
Definition nonempty (s : string) : bool :=
  match s with EmptyString => false | String _ _ => true end.

(** What the functions of this module hand to the logger. *)
Inductive LogRecord : Type :=
  | WarnInvalidUrl (line_num : nat) (text : string)
  | InfoLoaded (count : nat)
  | ErrorLoadFailed (e : PyExn).

(** The [for line_num, line in enumerate(f, 1)] loop of
    [_load_urls_from_txt]. *)
Fixpoint txt_loop (line_num : nat) (lines : list string)
    (urls : list string) (log : list LogRecord) : list string * list LogRecord :=
  match lines with
  | [] => (urls, log)
  | line :: rest =>
      let line := strip line in
      if nonempty line && negb (startswith "#" line) then
        if startswith "http" line
        then txt_loop (S line_num) rest (urls ++ [line]) log
        else txt_loop (S line_num) rest urls (log ++ [WarnInvalidUrl line_num line])
      else txt_loop (S line_num) rest urls log
  end.

(** [ManifestManager._load_urls_from_txt]; [f] is what opening and reading
    the file gives: its lines, or the error raised. *)
Definition _load_urls_from_txt (f : Outcome (list string))
  : Outcome (list string * list LogRecord) :=
  bind_outcome f (fun lines => Returns (txt_loop 1 lines [] [])).

(** A file as [csv.DictReader] reads it: the header row ([None] for a file
    without any row) and the data rows, empty rows left out. *)
Record CsvFile : Type := mkCsvFile {
  fieldnames : option (list string);
  csv_rows : list (list string)
}.

(** The dictionary [csv.DictReader] builds for a row: the cells under their
    column names, later columns overriding earlier ones of the same name, and
    [None] (the [restval]) under the names a short row has no cell for. *)
Definition DictReader_row (names : list string) (row : list string)
  : gmap string (option string) :=
  let d := foldl (fun d kv => <[kv.1 := Some kv.2]> d) ∅ (zip names row) in
  foldl (fun d k => <[k := None]> d) d (drop (length row) names).

(** [row.get('url', '')]. *)
Definition row_get_url (d : gmap string (option string)) : option string :=
  match d !! "url" with
  | Some v => v
  | None => Some ""
  end.

(** The [for row_num, row in enumerate(reader, 2)] loop of
    [_load_urls_from_csv]. *)
Fixpoint csv_loop (names : list string) (row_num : nat) (rows : list (list string))
    (urls : list string) (log : list LogRecord)
  : Outcome (list string * list LogRecord) :=
  match rows with
  | [] => Returns (urls, log)
  | row :: rest =>
      match row_get_url (DictReader_row names row) with
      | None => Raises (AttributeError "'NoneType' object has no attribute 'strip'")
      | Some cell =>
          let url := strip cell in
          if nonempty url && startswith "http" url
          then csv_loop names (S row_num) rest (urls ++ [url]) log
          else if nonempty url
          then csv_loop names (S row_num) rest urls (log ++ [WarnInvalidUrl row_num url])
          else csv_loop names (S row_num) rest urls log
      end
  end.

(** [ManifestManager._load_urls_from_csv]. *)
Definition _load_urls_from_csv (f : Outcome CsvFile)
  : Outcome (list string * list LogRecord) :=
  bind_outcome f (fun reader =>
    match fieldnames reader with
    | None => Raises (TypeError "argument of type 'NoneType' is not iterable")
    | Some names =>
        if bool_decide ("url" ∈ names)
        then csv_loop names 2 (csv_rows reader) [] []
        else Raises (ValueError "CSV file must contain 'url' column")
    end).

(** The input file: by its suffix it is read as a table or line by line. *)
Inductive InputFile : Type :=
  | CsvInput (f : Outcome CsvFile)
  | PlainInput (f : Outcome (list string)).

(** [try: body / except Exception as e: handler(e)]. *)
Definition try_except {A} (body : Outcome A) (handler : PyExn -> Outcome A) : Outcome A :=
  match body with
  | Returns a => Returns a
  | Raises e => handler e
  end.

(** [ManifestManager.load_urls_from_file]. *)
Definition load_urls_from_file (file : InputFile) : Outcome (list string * list LogRecord) :=
  try_except
    (bind_outcome
       match file with
       | CsvInput f => _load_urls_from_csv f
       | PlainInput f => _load_urls_from_txt f
       end
       (fun r => Returns (r.1, r.2 ++ [InfoLoaded (length r.1)])))
    (fun e => Returns ([], [ErrorLoadFailed e])).

(** A table all of whose rows have a cell for every column. *)
Definition rectangular (c : CsvFile) : Prop :=
  match fieldnames c with
  | Some names => Forall (fun row => (length names <= length row)%nat) (csv_rows c)
  | None => False
  end.

(** The cell of a row under the last column called [url]. *)
Definition url_cell (names : list string) (row : list string) : option string :=
  snd <$> last (filter (fun kv => kv.1 = "url") (zip names row)).

(** A line of the plain format that is neither blank, nor a comment, nor a
    URL: the lines the reader warns about. *)
Definition rejected_line (s : string) : Prop :=
  s <> "" /\ startswith "#" s = false /\ startswith "http" s = false.

(** Files used in the examples below. *)
Definition sample_lines : list string :=
  [ "# my videos"; ""; "  https://example.com/a  "; "not a url"; "http://example.com/b" ].

Definition sample_csv : CsvFile :=
  mkCsvFile (Some ["name"; "url"])
    [ ["first"; "https://example.com/a"]; ["second"; "ftp://example.com/b"] ].

(** ** core/manifest.py: the persisted manifest *)

(** A JSON document, as [json.dump] writes and [json.load] reads it.  An
    object keeps its members in order, as a Python dictionary does. *)
Inductive json : Type :=
  | JNull
  | JBool (b : bool)
  | JInt (z : Z)
  | JFloat (q : Q)
  | JStr (s : string)
  | JList (l : list json)
  | JDict (members : list (string * json)).

(** [d.get(k)] on a loaded object: of several members of one name the last
    one counts. *)
Definition jget (k : string) (d : json) : option json :=
  match d with
  | JDict members =>
      fold_left (fun acc kv => if String.eqb k kv.1 then Some kv.2 else acc) members None
  | _ => None
  end.

(** The text [json.dump(..., default=str)] writes for an instant, and its
    reading by the model's validator.  An instant is its count of
    microseconds; its text is that count in decimal, which stands for the
    ISO text of the Python value. *)
Definition datetime_str (t : datetime) : string := NilEmpty.string_of_int (Z.to_int t).

Definition parse_datetime (s : string) : option datetime :=
  Z.of_int <$> NilEmpty.int_of_string s.

Definition all_statuses : list JobStatus :=
  [PENDING; DOWNLOADING; CONVERTING; TRANSCRIBING; FORMATTING; COMPLETED; FAILED; SKIPPED].

Definition all_reasons : list FailureReason :=
  [INVALID_URL; ACCESS_DENIED; DOWNLOAD_FAILED; CONVERT_FAILED;
   TRANSCRIPTION_FAILED; FORMAT_FAILED; BUDGET_EXCEEDED; UNKNOWN_ERROR].

(** [JobStatus(value)] and [FailureReason(value)]: the member of that value. *)
Definition JobStatus_of_value (s : string) : option JobStatus :=
  snd <$> list_find (fun st => JobStatus_value st = s) all_statuses.

Definition FailureReason_of_value (s : string) : option FailureReason :=
  snd <$> list_find (fun r => FailureReason_value r = s) all_reasons.

(** *** Writing: [manifest.dict()] as [json.dump] renders it *)

Definition enc_opt {A} (f : A -> json) (o : option A) : json :=
  match o with Some a => f a | None => JNull end.

Definition metadata_dict (v : VideoMetadata) : json :=
  JDict [ ("title", enc_opt JStr (title v));
          ("platform", enc_opt JStr (platform v));
          ("duration", enc_opt JFloat (duration v));
          ("upload_date", enc_opt JStr (upload_date v));
          ("uploader", enc_opt JStr (uploader v));
          ("description", enc_opt JStr (description v));
          ("view_count", enc_opt JInt (view_count v)) ].

Definition word_dict (w : Word) : json :=
  JDict [ ("text", enc_opt JStr (word_text w));
          ("start", enc_opt JFloat (word_start w));
          ("end", enc_opt JFloat (word_end w));
          ("confidence", enc_opt JFloat (word_confidence w)) ].

Definition transcript_dict (t : TranscriptData) : json :=
  JDict ([ ("id", enc_opt JStr (td_id t));
           ("text", enc_opt JStr (td_text t));
           ("status", enc_opt JStr (td_status t));
           ("audio_url", enc_opt JStr (td_audio_url t));
           ("confidence", enc_opt JFloat (td_confidence t));
           ("audio_duration", enc_opt JFloat (td_audio_duration t));
           ("punctuation_and_casing", JBool true);
           ("words", JList (word_dict <$> td_words t)) ]
         ++ match td_summary t with
            | Some s => [("summary", JStr s)]
            | None => []
            end).

Definition job_dict (j : TranscriptionJob) : json :=
  JDict [ ("id", JStr (id j));
          ("url", JStr (url j));
          ("status", JStr (JobStatus_value (status j)));
          ("created_at", JStr (datetime_str (created_at j)));
          ("started_at", enc_opt (fun t => JStr (datetime_str t)) (started_at j));
          ("completed_at", enc_opt (fun t => JStr (datetime_str t)) (completed_at j));
          ("video_metadata", enc_opt metadata_dict (video_metadata j));
          ("temp_video_path", enc_opt JStr (temp_video_path j));
          ("temp_audio_path", enc_opt JStr (temp_audio_path j));
          ("output_dir", enc_opt JStr (output_dir j));
          ("freeconvert_job_id", enc_opt JStr (freeconvert_job_id j));
          ("assemblyai_transcript_id", enc_opt JStr (assemblyai_transcript_id j));
          ("transcript_text", enc_opt JStr (transcript_text j));
          ("transcript_data", enc_opt transcript_dict (transcript_data j));
          ("error_message", enc_opt JStr (error_message j));
          ("failure_reason",
            enc_opt (fun r => JStr (FailureReason_value r)) (failure_reason j));
          ("retry_count", JInt (retry_count j));
          ("estimated_cost", enc_opt JFloat (estimated_cost j));
          ("actual_cost", enc_opt JFloat (actual_cost j)) ].

Definition manifest_dict (m : TranscriptionManifest) : json :=
  JDict [ ("id", JStr (manifest_id m));
          ("created_at", JStr (datetime_str (manifest_created_at m)));
          ("updated_at", JStr (datetime_str (updated_at m)));
          ("input_file", JStr (input_file m));
          ("output_dir", JStr (manifest_output_dir m));
          ("output_formats", JList (JStr <$> output_formats m));
          ("jobs", JList (job_dict <$> jobs m));
          ("total_jobs", JInt (Z.of_nat (total_jobs m)));
          ("completed_jobs", JInt (Z.of_nat (completed_jobs m)));
          ("failed_jobs", JInt (Z.of_nat (failed_jobs m)));
          ("total_estimated_cost", JFloat (total_estimated_cost m));
          ("total_actual_cost", JFloat (total_actual_cost m));
          ("budget_cap", JFloat (budget_cap m)) ].

(** *** Reading: the model's validation of the loaded document, field by
    field *)

Definition dec_str (v : json) : option string :=
  match v with JStr s => Some s | _ => None end.

Definition dec_int (v : json) : option Z :=
  match v with JInt z => Some z | _ => None end.

Definition dec_nat (v : json) : option nat :=
  match v with JInt z => if (0 <=? z) then Some (Z.to_nat z) else None | _ => None end.

(** A float field also takes an integer. *)
Definition dec_float (v : json) : option Q :=
  match v with JFloat q => Some q | JInt z => Some (inject_Z z) | _ => None end.

Definition dec_datetime (v : json) : option datetime :=
  dec_str v ≫= parse_datetime.

Definition dec_status (v : json) : option JobStatus :=
  dec_str v ≫= JobStatus_of_value.

Definition dec_reason (v : json) : option FailureReason :=
  dec_str v ≫= FailureReason_of_value.

Definition dec_list {A} (f : json -> option A) (v : json) : option (list A) :=
  match v with JList l => mapM f l | _ => None end.

(** A required field. *)
Definition required {A} (k : string) (f : json -> option A) (d : json) : option A :=
  jget k d ≫= f.

(** A field with a default: absent, it takes the default. *)
Definition with_default {A} (k : string) (f : json -> option A) (dflt : A) (d : json)
  : option A :=
  match jget k d with
  | Some v => f v
  | None => Some dflt
  end.

(** An [Optional[...] = None] field: absent or [null], it is [None]. *)
Definition optional {A} (k : string) (f : json -> option A) (d : json)
  : option (option A) :=
  match jget k d with
  | Some JNull | None => Some None
  | Some v => Some <$> f v
  end.

Definition parse_metadata (d : json) : option VideoMetadata :=
  t ← optional "title" dec_str d;
  p ← optional "platform" dec_str d;
  du ← optional "duration" dec_float d;
  ud ← optional "upload_date" dec_str d;
  up ← optional "uploader" dec_str d;
  de ← optional "description" dec_str d;
  vc ← optional "view_count" dec_int d;
  Some (mkVideoMetadata t p du ud up de vc).

Definition parse_word (d : json) : option Word :=
  t ← optional "text" dec_str d;
  s ← optional "start" dec_float d;
  e ← optional "end" dec_float d;
  c ← optional "confidence" dec_float d;
  Some (mkWord t s e c).

Definition parse_transcript (d : json) : option TranscriptData :=
  i ← optional "id" dec_str d;
  t ← optional "text" dec_str d;
  st ← optional "status" dec_str d;
  au ← optional "audio_url" dec_str d;
  c ← optional "confidence" dec_float d;
  ad ← optional "audio_duration" dec_float d;
  ws ← with_default "words" (dec_list parse_word) [] d;
  su ← optional "summary" dec_str d;
  Some (mkTranscriptData i t st au c ad ws su).

(** [created_at] has a default factory: absent from the document, it is the
    clock's reading [now]. *)
Definition parse_job (now : datetime) (d : json) : option TranscriptionJob :=
  i ← required "id" dec_str d;
  u ← required "url" dec_str d;
  st ← with_default "status" dec_status PENDING d;
  ca ← with_default "created_at" dec_datetime now d;
  sa ← optional "started_at" dec_datetime d;
  co ← optional "completed_at" dec_datetime d;
  vm ← optional "video_metadata" parse_metadata d;
  tv ← optional "temp_video_path" dec_str d;
  ta ← optional "temp_audio_path" dec_str d;
  od ← optional "output_dir" dec_str d;
  fj ← optional "freeconvert_job_id" dec_str d;
  aj ← optional "assemblyai_transcript_id" dec_str d;
  tt ← optional "transcript_text" dec_str d;
  td ← optional "transcript_data" parse_transcript d;
  em ← optional "error_message" dec_str d;
  fr ← optional "failure_reason" dec_reason d;
  rc ← with_default "retry_count" dec_int 0 d;
  ec ← optional "estimated_cost" dec_float d;
  ac ← optional "actual_cost" dec_float d;
  Some (mkJob i u st ca sa co vm tv ta od fj aj tt td em fr rc ec ac).

Definition parse_manifest (now : datetime) (d : json) : option TranscriptionManifest :=
  i ← required "id" dec_str d;
  ca ← with_default "created_at" dec_datetime now d;
  ua ← with_default "updated_at" dec_datetime now d;
  inf ← required "input_file" dec_str d;
  od ← required "output_dir" dec_str d;
  fs ← required "output_formats" (dec_list dec_str) d;
  js ← with_default "jobs" (dec_list (parse_job now)) [] d;
  tj ← with_default "total_jobs" dec_nat 0%nat d;
  cj ← with_default "completed_jobs" dec_nat 0%nat d;
  fj ← with_default "failed_jobs" dec_nat 0%nat d;
  te ← with_default "total_estimated_cost" dec_float 0%Q d;
  ta ← with_default "total_actual_cost" dec_float 0%Q d;
  bc ← with_default "budget_cap" dec_float 20%Q d;
  Some (mkManifest i ca ua inf od fs js tj cj fj te ta bc).

(** The files of the output directory that hold manifests. *)
Abbreviation FileSystem := (gmap string json).

(** [output_dir / "manifest.json"]. *)
Definition manifest_path (dir : Path) : Path := dir +:+ "/manifest.json".

(** [ManifestManager.save_manifest]: [io] is what creating the directory and
    writing the file come to; the summary table written beside it cannot make
    the call fail and is left out. *)
Definition save_manifest (m : TranscriptionManifest) (dir : Path)
    (io : Outcome unit) (fs : FileSystem) : Outcome Path * FileSystem :=
  match io with
  | Returns _ =>
      (Returns (manifest_path dir), <[manifest_path dir := manifest_dict m]> fs)
  | Raises e => (Raises e, fs)
  end.

(** [ManifestManager.load_manifest]: [now] is the clock's reading, used by
    [update_stats] and by the default factories. *)
Definition load_manifest (manifest_file : Path) (now : datetime) (fs : FileSystem)
  : Outcome TranscriptionManifest :=
  match fs !! manifest_file with
  | None => Raises (OSError "No such file or directory")
  | Some data =>
      match parse_manifest now data with
      | Some manifest => Returns (update_stats now manifest)
      | None => Raises (ValueError "validation error for TranscriptionManifest")
      end
  end.

(** ** core/manifest.py: building a manifest *)

(** The outside world as the orchestrator sees it: the manifest files, the
    calls made so far (the latest first), and the number of readings taken
    from the clock. *)
Inductive CallKind : Type :=
  | GetVideoMetadata
  | DownloadVideo
  | MakeDirs
  | ConvertMp4ToMp3
  | TranscribeAudio
  | FormatTranscript (f : OutputFormats)
  | CreateMetaFile
  | CleanupTempFiles.

(** What leaves the process: the log line that opens a job's pipeline pass,
    a call made for a job, and a manifest handed to [save_manifest]; each with
    the object as it is at that moment. *)
Inductive Event : Type :=
  | LogProcessing (job : TranscriptionJob)
  | Call (k : CallKind) (job : TranscriptionJob)
  | SaveManifest (m : TranscriptionManifest) (written : bool).

Record World : Type := mkWorld {
  files : FileSystem;
  trace : list Event;
  ticks : nat
}.

Definition emit (e : Event) (w : World) : World :=
  mkWorld (files w) (e :: trace w) (ticks w).

(** [f"{i:03d}"]: decimal, padded with zeros to three digits. *)
Definition pad3 (d : Decimal.uint) : Decimal.uint :=
  Nat.iter (3 - Decimal.nb_digits d) Decimal.D0 d.

Definition format_03d (i : nat) : string := NilEmpty.string_of_uint (pad3 (Nat.to_uint i)).

(** [f"{manifest.id}_job_{i:03d}"]. *)
Definition job_id_of (batch_id : string) (i : nat) : string :=
  batch_id +:+ "_job_" +:+ format_03d i.

Section Orchestrator.

(** The configuration object and the clock: [clock n] is the [n]-th reading
    of [datetime.utcnow()]. *)
Variable config : Config.
Variable clock : nat -> datetime.

Definition utcnow (w : World) : datetime * World :=
  (clock (ticks w), mkWorld (files w) (trace w) (S (ticks w))).

(** [ManifestManager.create_manifest]; [batch_id] is the identifier made of
    the time and a random suffix. *)
Definition create_manifest (batch_id : string) (input output : Path)
    (formats : list string) (cap : option Q) (w : World)
  : TranscriptionManifest * World :=
  let '(t1, w) := utcnow w in
  let '(t2, w) := utcnow w in
  (mkManifest batch_id t1 t2 input output formats [] 0 0 0 0%Q 0%Q
     (float_or cap (cap_budget_usd config)), w).

(** The loop of [ManifestManager.populate_jobs], [i] counting from 1. *)
Fixpoint populate_loop (batch_id : string) (i : nat) (urls : list string)
    (js : list TranscriptionJob) (w : World) : list TranscriptionJob * World :=
  match urls with
  | [] => (js, w)
  | u :: rest =>
      let '(now, w) := utcnow w in
      populate_loop batch_id (S i) rest (js ++ [new_job (job_id_of batch_id i) u now]) w
  end.

Definition populate_jobs (m : TranscriptionManifest) (urls : list string) (w : World)
  : TranscriptionManifest * World :=
  let '(js, w) := populate_loop (manifest_id m) 1 urls (jobs m) w in
  let '(now, w) := utcnow w in
  (update_stats now (set_jobs js m), w).

(** [save_manifest] against the world: the call is recorded with the
    manifest as it is handed over. *)
Definition save (m : TranscriptionManifest) (dir : Path) (io : Outcome unit) (w : World)
  : Outcome Path * World :=
  let '(res, fs) := save_manifest m dir io (files w) in
  (res, mkWorld fs
          (SaveManifest m (match io with Returns _ => true | Raises _ => false end)
             :: trace w)
          (ticks w)).

(** ** adapters: the cost estimates *)

(** [AssemblyAIAPI.estimate_transcription_cost]. *)
Definition estimate_transcription_cost (duration_seconds : Q) : Q :=
  (duration_seconds * (37 # 100000))%Q.

(** [FreeConvertAPI.estimate_conversion_cost]. *)
Definition estimate_conversion_cost (duration_seconds : Q) : Q :=
  ((1 # 100) + duration_seconds * (1 # 1000))%Q.

(** ** core/processor.py *)

(** [TranscriptionProcessor._estimate_job_cost]. *)
Definition _estimate_job_cost (duration_seconds : Q) : Q :=
  (estimate_transcription_cost duration_seconds
   + estimate_conversion_cost duration_seconds)%Q.

(** [TranscriptionProcessor._calculate_actual_cost]. *)
Definition _calculate_actual_cost (duration_seconds : Q) : Q :=
  _estimate_job_cost duration_seconds.

(** The duration of [job.video_metadata and job.video_metadata.duration]
    when that is truthy: metadata present, duration present and not zero. *)
Definition known_duration (job : TranscriptionJob) : option Q :=
  match video_metadata job with
  | Some metadata =>
      match duration metadata with
      | Some d => if Qeq_bool d 0 then None else Some d
      | None => None
      end
  | None => None
  end.

(** What the outside world answers during one pass of a job through the
    pipeline.  The three adapters catch every exception themselves and answer
    with a tuple; creating the directory of the audio file and saving the
    manifest may raise; [env_write f] tells whether the files of format [f]
    can be written. *)
Record JobEnv : Type := mkJobEnv {
  env_metadata : option VideoMetadata;
  env_download : option Path * option FailureReason * option string;
  env_mkdir : Outcome unit;
  env_convert : bool * option FailureReason * option string;
  env_transcribe : bool * option TranscriptData * option FailureReason * option string;
  env_write : OutputFormats -> bool;
  env_save : Outcome unit
}.

(** [format_transcript] of the four formatters: each returns [False] instead
    of raising. *)
Definition format_transcript (f : OutputFormats) (job : TranscriptionJob)
    (env : JobEnv) : bool :=
  match f with
  | TXT => truthy_str (transcript_text job) && env_write env TXT
  | JSON =>
      (bool_decide (is_Some (transcript_data job)) || truthy_str (transcript_text job))
      && env_write env JSON
  | SRT =>
      match transcript_data job with
      | Some (mkTranscriptData _ _ _ _ _ _ (w :: ws) _) =>
          match SRTFormatter._group_words_into_segments (w :: ws) with
          | Returns _ => env_write env SRT
          | Raises _ => false
          end
      | _ => truthy_str (transcript_text job) && env_write env SRT
      end
  | VTT =>
      match transcript_data job with
      | Some (mkTranscriptData _ _ _ _ _ _ (w :: ws) _) =>
          match VTTFormatter._group_words_into_segments (w :: ws) with
          | Returns _ => env_write env VTT
          | Raises _ => false
          end
      | _ => truthy_str (transcript_text job) && env_write env VTT
      end
  end.

(** The [for format_type in options.formats] loop of [_format_job_outputs]:
    every formatter is called, and one failure makes the result [False]. *)
Fixpoint format_loop (formats : list OutputFormats) (job : TranscriptionJob)
    (env : JobEnv) (success : bool) (w : World) : bool * World :=
  match formats with
  | [] => (success, w)
  | f :: rest =>
      let w := emit (Call (FormatTranscript f) job) w in
      if format_transcript f job env
      then format_loop rest job env success w
      else format_loop rest job env false w
  end.

(** [TranscriptionProcessor._format_job_outputs]. *)
Definition _format_job_outputs (job : TranscriptionJob) (options : ProcessingOptions)
    (env : JobEnv) (w : World) : bool * World :=
  let w := emit (Call CreateMetaFile job) w in
  format_loop (opt_formats options) job env true w.

(** [TranscriptionProcessor._handle_job_failure]: the log line reads
    [failure_reason.value], which raises when the reason is [None]. *)
Definition _handle_job_failure (job : TranscriptionJob)
    (reason : option FailureReason) (error_msg : option string) (w : World)
  : Outcome unit * TranscriptionJob * World :=
  let job := set_status FAILED job in
  let job := set_failure_reason reason job in
  let job := set_error_message error_msg job in
  let '(now, w) := utcnow w in
  let job := set_completed_at (Some now) job in
  match reason with
  | None =>
      (Raises (AttributeError "'NoneType' object has no attribute 'value'"), job, w)
  | Some _ => (Returns (), job, emit (Call CreateMetaFile job) w)
  end.

(** [TranscriptionProcessor._cleanup_temp_files]. *)
Definition _cleanup_temp_files (job : TranscriptionJob) (delete_temp : bool) (w : World)
  : World :=
  if delete_temp then emit (Call CleanupTempFiles job) w else w.

(** A failure branch of the pipeline: [_handle_job_failure], then
    [_cleanup_temp_files] when asked for, then [return]. *)
Definition fail_and_return (job : TranscriptionJob) (reason : option FailureReason)
    (error_msg : option string) (cleanup : option bool)
    (m : TranscriptionManifest) (w : World)
  : Outcome unit * TranscriptionJob * TranscriptionManifest * World :=
  match _handle_job_failure job reason error_msg w with
  | (Returns _, job, w) =>
      (Returns (), job, m,
       match cleanup with
       | Some delete_temp => _cleanup_temp_files job delete_temp w
       | None => w
       end)
  | (Raises e, job, w) => (Raises e, job, m, w)
  end.

(** The body of the [try] of [_process_single_job] for the job at position
    [i] of [m]: the outcome, the job and the manifest as the body leaves
    them. *)
Definition pipeline (job : TranscriptionJob) (i : nat) (options : ProcessingOptions)
    (env : JobEnv) (m : TranscriptionManifest) (w : World)
  : Outcome unit * TranscriptionJob * TranscriptionManifest * World :=
  (* Step 1: get video metadata *)
  let job := set_status DOWNLOADING job in
  let '(now, w) := utcnow w in
  let job := set_started_at (Some now) job in
  let w := emit (Call GetVideoMetadata job) w in
  let job :=
    match env_metadata env with
    | Some metadata =>
        set_estimated_cost
          (Some (_estimate_job_cost (float_or (duration metadata) 120)))
          (set_video_metadata (Some metadata) job)
    | None => job
    end in
  (* Step 2: download video *)
  let w := emit (Call DownloadVideo job) w in
  match env_download env with
  | (None, reason, error_msg) => fail_and_return job reason error_msg None m w
  | (Some video_path, _, _) =>
      let job := set_temp_video_path (Some video_path) job in
      (* Step 3: convert to MP3 *)
      let job := set_status CONVERTING job in
      let audio_path := opt_output_dir options +:+ "/temp/" +:+ id job +:+ ".mp3" in
      let w := emit (Call MakeDirs job) w in
      match env_mkdir env with
      | Raises e => (Raises e, job, m, w)
      | Returns _ =>
          let w := emit (Call ConvertMp4ToMp3 job) w in
          match env_convert env with
          | (false, reason, error_msg) =>
              fail_and_return job reason error_msg (Some (opt_delete_temp options)) m w
          | (true, _, _) =>
              let job := set_temp_audio_path (Some audio_path) job in
              (* Step 4: transcribe audio *)
              let job := set_status TRANSCRIBING job in
              let w := emit (Call TranscribeAudio job) w in
              match env_transcribe env with
              | (false, _, reason, error_msg) =>
                  fail_and_return job reason error_msg
                    (Some (opt_delete_temp options)) m w
              | (true, transcript, _, _) =>
                  let job := set_transcript_data transcript job in
                  let job :=
                    set_transcript_text
                      (match transcript with Some t => td_text t | None => Some "" end)
                      job in
                  let job :=
                    set_assemblyai_transcript_id (transcript ≫= td_id) job in
                  (* calculate actual cost *)
                  let job :=
                    match known_duration job with
                    | Some d => set_actual_cost (Some (_calculate_actual_cost d)) job
                    | None => set_actual_cost (estimated_cost job) job
                    end in
                  (* Step 5: format outputs *)
                  let job := set_status FORMATTING job in
                  let '(success, w) := _format_job_outputs job options env w in
                  if negb success then
                    fail_and_return job (Some FORMAT_FAILED)
                      (Some "Failed to format outputs")
                      (Some (opt_delete_temp options)) m w
                  else
                    let job := set_status COMPLETED job in
                    let '(now, w) := utcnow w in
                    let job := set_completed_at (Some now) job in
                    let w :=
                      if opt_delete_temp options then _cleanup_temp_files job true w
                      else w in
                    (* update manifest *)
                    let '(now, w) := utcnow w in
                    let m := update_stats now (set_jobs (<[i := job]> (jobs m)) m) in
                    match save m (opt_output_dir options) (env_save env) w with
                    | (Returns _, w) => (Returns (), job, m, w)
                    | (Raises e, w) => (Raises e, job, m, w)
                    end
              end
          end
      end
  end.

(** A run of the orchestrator: the manifest object and the world. *)
Record Run : Type := mkRun {
  manifest : TranscriptionManifest;
  world : World
}.

(** [TranscriptionProcessor._process_single_job] for the job object at
    position [i] of [manifest.jobs]: the [try] body, and the handler of
    [except Exception]. *)
Definition _process_single_job (i : nat) (options : ProcessingOptions)
    (env : JobEnv) (r : Run) : Run :=
  match jobs (manifest r) !! i with
  | None => r
  | Some job =>
      let w := emit (LogProcessing job) (world r) in
      match pipeline job i options env (manifest r) w with
      | (Returns _, job, m, w) => mkRun (set_jobs (<[i := job]> (jobs m)) m) w
      | (Raises e, job, m, w) =>
          let '(_, job, w) :=
            _handle_job_failure job (Some UNKNOWN_ERROR) (Some (exn_message e)) w in
          let w := _cleanup_temp_files job (opt_delete_temp options) w in
          mkRun (set_jobs (<[i := job]> (jobs m)) m) w
      end
  end.

End Orchestrator.

(** Python's [==] on two jobs: the models compare field by field, floats by
    value. *)
Definition metadata_eqb (a b : VideoMetadata) : bool :=
  bool_decide (title a = title b) && bool_decide (platform a = platform b)
  && float_opt_eqb (duration a) (duration b)
  && bool_decide (upload_date a = upload_date b)
  && bool_decide (uploader a = uploader b)
  && bool_decide (description a = description b)
  && bool_decide (view_count a = view_count b).

Definition word_eqb (a b : Word) : bool :=
  bool_decide (word_text a = word_text b)
  && float_opt_eqb (word_start a) (word_start b)
  && float_opt_eqb (word_end a) (word_end b)
  && float_opt_eqb (word_confidence a) (word_confidence b).

Fixpoint words_eqb (a b : list Word) : bool :=
  match a, b with
  | [], [] => true
  | x :: a', y :: b' => word_eqb x y && words_eqb a' b'
  | _, _ => false
  end.

Definition transcript_eqb (a b : TranscriptData) : bool :=
  bool_decide (td_id a = td_id b) && bool_decide (td_text a = td_text b)
  && bool_decide (td_status a = td_status b)
  && bool_decide (td_audio_url a = td_audio_url b)
  && float_opt_eqb (td_confidence a) (td_confidence b)
  && float_opt_eqb (td_audio_duration a) (td_audio_duration b)
  && words_eqb (td_words a) (td_words b)
  && bool_decide (td_summary a = td_summary b).

Definition option_eqb {A} (eqb : A -> A -> bool) (a b : option A) : bool :=
  match a, b with
  | Some x, Some y => eqb x y
  | None, None => true
  | _, _ => false
  end.

Definition job_eqb (a b : TranscriptionJob) : bool :=
  bool_decide (id a = id b) && bool_decide (url a = url b)
  && bool_decide (status a = status b)
  && bool_decide (created_at a = created_at b)
  && bool_decide (started_at a = started_at b)
  && bool_decide (completed_at a = completed_at b)
  && option_eqb metadata_eqb (video_metadata a) (video_metadata b)
  && bool_decide (temp_video_path a = temp_video_path b)
  && bool_decide (temp_audio_path a = temp_audio_path b)
  && bool_decide (output_dir a = output_dir b)
  && bool_decide (freeconvert_job_id a = freeconvert_job_id b)
  && bool_decide (assemblyai_transcript_id a = assemblyai_transcript_id b)
  && bool_decide (transcript_text a = transcript_text b)
  && option_eqb transcript_eqb (transcript_data a) (transcript_data b)
  && bool_decide (error_message a = error_message b)
  && bool_decide (failure_reason a = failure_reason b)
  && bool_decide (retry_count a = retry_count b)
  && float_opt_eqb (estimated_cost a) (estimated_cost b)
  && float_opt_eqb (actual_cost a) (actual_cost b).

(** [jobs.index(job)]: the position of the first job equal to [job]. *)
Fixpoint py_index (job : TranscriptionJob) (js : list TranscriptionJob) : option nat :=
  match js with
  | [] => None
  | j :: rest => if job_eqb j job then Some 0%nat else S <$> py_index job rest
  end.

(** The body of the loop of [_mark_remaining_jobs_skipped]. *)
Definition skip_if_pending (job : TranscriptionJob) : TranscriptionJob :=
  if bool_decide (status job = PENDING) then
    set_error_message (Some "Skipped due to budget cap")
      (set_failure_reason (Some BUDGET_EXCEEDED) (set_status SKIPPED job))
  else job.

(** [TranscriptionProcessor._mark_remaining_jobs_skipped]. *)
Definition _mark_remaining_jobs_skipped (m : TranscriptionManifest)
    (current_job : TranscriptionJob) : Outcome TranscriptionManifest :=
  match py_index current_job (jobs m) with
  | None => Raises (ValueError "job is not in list")
  | Some current_index =>
      Returns (set_jobs (take current_index (jobs m)
                         ++ (skip_if_pending <$> drop current_index (jobs m))) m)
  end.

Section Batch.

Variable config : Config.
Variable clock : nat -> datetime.

(** The [for job in manifest.jobs] loop of [process_batch]: [idxs] are the
    positions still to visit, [envs i] is what the world answers for the job
    at position [i].  Without a cap the comparison raises at its first
    evaluation, before the first job, when the total is still the int 0 that
    [update_stats] has summed over jobs without a cost. *)
Fixpoint batch_loop (options : ProcessingOptions) (envs : nat -> JobEnv)
    (idxs : list nat) (r : Run) : Outcome unit * Run :=
  match idxs with
  | [] => (Returns (), r)
  | i :: rest =>
      match opt_budget_cap options with
      | None =>
          (Raises (TypeError "'>=' not supported between instances of 'int' and 'NoneType'"), r)
      | Some cap =>
          if Qge_bool (total_actual_cost (manifest r)) cap then
            match jobs (manifest r) !! i with
            | None => (Returns (), r)
            | Some job =>
                match _mark_remaining_jobs_skipped (manifest r) job with
                | Returns m => (Returns (), mkRun m (world r))
                | Raises e => (Raises e, r)
                end
            end
          else
            batch_loop options envs rest
              (_process_single_job clock i options (envs i) r)
      end
  end.

(** The loop of [_perform_dry_run]: only the metadata is asked for. *)
Fixpoint dry_run_loop (envs : nat -> JobEnv) (idxs : list nat) (r : Run) : Run :=
  match idxs with
  | [] => r
  | i :: rest =>
      match jobs (manifest r) !! i with
      | None => dry_run_loop envs rest r
      | Some job =>
          let w := emit (Call GetVideoMetadata job) (world r) in
          let job :=
            match env_metadata (envs i) with
            | Some metadata =>
                set_estimated_cost
                  (Some (_estimate_job_cost (float_or (duration metadata) 120)))
                  (set_video_metadata (Some metadata) job)
            | None => set_estimated_cost (Some (_estimate_job_cost 120)) job
            end in
          let job := set_status PENDING job in
          dry_run_loop envs rest
            (mkRun (set_jobs (<[i := job]> (jobs (manifest r))) (manifest r)) w)
      end
  end.

(** [TranscriptionProcessor._perform_dry_run]. *)
Definition _perform_dry_run (envs : nat -> JobEnv) (r : Run) : Run :=
  let r := dry_run_loop envs (seq 0 (length (jobs (manifest r)))) r in
  let '(now, w) := utcnow clock (world r) in
  mkRun (update_stats now (manifest r)) w.

(** What the world answers to one call of [process_batch]. *)
Record BatchEnv : Type := mkBatchEnv {
  be_input : InputFile;
  be_batch_id : string;
  be_mkdir : Outcome unit;
  be_first_save : Outcome unit;
  be_jobs : nat -> JobEnv;
  be_last_save : Outcome unit
}.

(** [TranscriptionProcessor.process_batch]. *)
Definition process_batch (options : ProcessingOptions) (env : BatchEnv) (w : World)
  : Outcome TranscriptionManifest * World :=
  match load_urls_from_file (be_input env) with
  | Raises e => (Raises e, w)
  | Returns ([], _) => (Raises (ValueError "No valid URLs found in input file"), w)
  | Returns (urls, _) =>
      let '(m, w) :=
        create_manifest config clock (be_batch_id env) (opt_input_file options)
          (opt_output_dir options) (OutputFormats_value <$> opt_formats options)
          (opt_budget_cap options) w in
      let '(m, w) := populate_jobs clock m urls w in
      match be_mkdir env with
      | Raises e => (Raises e, w)
      | Returns _ =>
          match save m (opt_output_dir options) (be_first_save env) w with
          | (Raises e, w) => (Raises e, w)
          | (Returns _, w) =>
              if opt_dry_run options then
                let r := _perform_dry_run (be_jobs env) (mkRun m w) in
                (Returns (manifest r), world r)
              else
                match batch_loop options (be_jobs env)
                        (seq 0 (length (jobs m))) (mkRun m w) with
                | (Raises e, r) => (Raises e, world r)
                | (Returns _, r) =>
                    let '(now, w) := utcnow clock (world r) in
                    let m := update_stats now (manifest r) in
                    match save m (opt_output_dir options) (be_last_save env) w with
                    | (Raises e, w) => (Raises e, w)
                    | (Returns _, w) => (Returns m, w)
                    end
                end
          end
      end
  end.

(** [OutputFormats(fmt)]. *)
Definition OutputFormats_of_value (s : string) : option OutputFormats :=
  snd <$> list_find (fun f => OutputFormats_value f = s) [TXT; JSON; SRT; VTT].

(** The statements of the retry loop before the pipeline is run again. *)
Definition reset_for_retry (job : TranscriptionJob) : TranscriptionJob :=
  set_failure_reason None
    (set_error_message None
       (set_status PENDING (set_retry_count (retry_count job + 1) job))).

(** The [for job in retryable_jobs] loop of [retry_failed_jobs]: the jobs
    are the objects of the manifest, here their positions. *)
Fixpoint retry_loop (budget : Q) (options : ProcessingOptions) (envs : nat -> JobEnv)
    (retryable_jobs : list (nat * TranscriptionJob)) (r : Run) : Run :=
  match retryable_jobs with
  | [] => r
  | (i, _) :: rest =>
      if Qge_bool (total_actual_cost (manifest r)) budget then r
      else
        let m := manifest r in
        let r := mkRun (set_jobs (alter reset_for_retry i (jobs m)) m) (world r) in
        retry_loop budget options envs rest
          (_process_single_job clock i options (envs i) r)
  end.

(** [TranscriptionProcessor.retry_failed_jobs]. *)
Definition retry_failed_jobs (m : TranscriptionManifest) (budget_cap : option Q)
    (envs : nat -> JobEnv) (last_save : Outcome unit) (w : World)
  : Outcome TranscriptionManifest * World :=
  let retryable_jobs := get_retryable_jobs config m in
  match retryable_jobs with
  | [] => (Returns m, w)
  | _ :: _ =>
      let budget := float_or budget_cap (cap_budget_usd config) in
      match mapM OutputFormats_of_value (output_formats m) with
      | None => (Raises (ValueError "not a valid OutputFormats"), w)
      | Some formats =>
          let options :=
            mkOptions (input_file m) (manifest_output_dir m) formats
              false true false (Some budget) in
          let r := retry_loop budget options envs retryable_jobs (mkRun m w) in
          let '(now, w) := utcnow clock (world r) in
          let m := update_stats now (manifest r) in
          match save m (manifest_output_dir m) last_save w with
          | (Raises e, w) => (Raises e, w)
          | (Returns _, w) => (Returns m, w)
          end
      end
  end.

End Batch.

(** *** What the orchestration claims speak about *)

(** The relation between a job's status and its failure reason that the
    orchestrator keeps: a failed job has a reason, a skipped job has the
    reason [BUDGET_EXCEEDED], any other job has none. *)
Definition reason_consistent (j : TranscriptionJob) : Prop :=
  (status j = FAILED -> is_Some (failure_reason j))
  /\ (status j = SKIPPED -> failure_reason j = Some BUDGET_EXCEEDED)
  /\ (status j <> FAILED -> status j <> SKIPPED -> failure_reason j = None).

(** The relation between a job's status and its actual cost in a batch run:
    a cost is recorded only once the transcription has succeeded, so the job
    is being formatted, is completed, or has failed after the transcription
    (no output could be written, or the manifest could not be saved). *)
Definition cost_consistent (j : TranscriptionJob) : Prop :=
  is_Some (actual_cost j) ->
  status j = FORMATTING \/ status j = COMPLETED
  \/ (status j = FAILED
      /\ (failure_reason j = Some FORMAT_FAILED \/ failure_reason j = Some UNKNOWN_ERROR)).

(** The cost recorded for a completed job whose video metadata was
    resolved: the cost of its duration, of the default 120 seconds when the
    duration is unknown. *)
Definition completed_cost_known (j : TranscriptionJob) : Prop :=
  status j = COMPLETED ->
  forall metadata, video_metadata j = Some metadata ->
  actual_cost j = Some (_calculate_actual_cost (float_or (duration metadata) 120)).

(** A job that has not been through the pipeline. *)
Definition fresh (j : TranscriptionJob) : Prop :=
  status j = PENDING /\ failure_reason j = None.

(** The pipeline never touches what identifies a job. *)
Definition same_identity (j0 j : TranscriptionJob) : Prop :=
  id j = id j0 /\ url j = url j0 /\ retry_count j = retry_count j0.

(** What holds of a job [j] seen during or after the pass that started from
    [j0]. *)
Definition snapshot_ok (j0 j : TranscriptionJob) : Prop :=
  same_identity j0 j
  /\ (fresh j0 -> reason_consistent j)
  /\ (fresh j0 -> actual_cost j0 = None -> cost_consistent j)
  /\ (video_metadata j0 = None -> completed_cost_known j).

(** The events of the pass of the job at position [i], started from [j0] in
    a manifest whose jobs are [js]. *)
Inductive pass_event (i : nat) (js : list TranscriptionJob) (j0 : TranscriptionJob)
  : Event -> Prop :=
  | pass_log : pass_event i js j0 (LogProcessing j0)
  | pass_call k j : snapshot_ok j0 j -> pass_event i js j0 (Call k j)
  | pass_save m b j :
      jobs m = <[i := j]> js -> snapshot_ok j0 j -> status j = COMPLETED ->
      total_actual_cost m = sum_costs actual_cost (jobs m) ->
      pass_event i js j0 (SaveManifest m b).

(** The jobs an event shows. *)
Definition event_jobs (e : Event) : list TranscriptionJob :=
  match e with
  | LogProcessing j | Call _ j => [j]
  | SaveManifest m _ => jobs m
  end.

(** The job an event is about, by its identifier. *)
Definition event_about (job_id : string) (e : Event) : Prop :=
  match e with
  | LogProcessing j | Call _ j => id j = job_id
  | SaveManifest _ _ => False
  end.

(** [extends P t t']: the trace [t'] is [t] with later events in front, each
    of which satisfies [P]. *)
Inductive extends (P : Event -> Prop) (t : list Event) : list Event -> Prop :=
  | extends_refl : extends P t t
  | extends_cons e t' : P e -> extends P t t' -> extends P t (e :: t').

Section BatchStates.

Variable config : Config.
Variable clock : nat -> datetime.

(** The run after the first [k] jobs of the manifest have been through the
    pipeline, one after the other. *)
Definition after_jobs (options : ProcessingOptions) (envs : nat -> JobEnv)
    (k : nat) (r : Run) : Run :=
  foldl (fun r i => _process_single_job clock i options (envs i) r) r (seq 0 k).

(** The run as [process_batch] enters its loop over the jobs: the input has
    been read, the manifest built, populated and saved, and the call is not a
    dry run. *)
Definition batch_entry (options : ProcessingOptions) (env : BatchEnv) (w : World)
  : option Run :=
  match load_urls_from_file (be_input env) with
  | Returns (u :: urls, _) =>
      let '(m, w) :=
        create_manifest config clock (be_batch_id env) (opt_input_file options)
          (opt_output_dir options) (OutputFormats_value <$> opt_formats options)
          (opt_budget_cap options) w in
      let '(m, w) := populate_jobs clock m (u :: urls) w in
      match be_mkdir env with
      | Returns _ =>
          match save m (opt_output_dir options) (be_first_save env) w with
          | (Returns _, w) => if opt_dry_run options then None else Some (mkRun m w)
          | (Raises _, _) => None
          end
      | Raises _ => None
      end
  | _ => None
  end.

(** What [process_batch] does with the run its loop leaves. *)
Definition batch_exit (options : ProcessingOptions) (env : BatchEnv)
    (res : Outcome unit * Run) : Outcome TranscriptionManifest * World :=
  match res with
  | (Raises e, r) => (Raises e, world r)
  | (Returns _, r) =>
      let '(now, w) := utcnow clock (world r) in
      let m := update_stats now (manifest r) in
      match save m (opt_output_dir options) (be_last_save env) w with
      | (Raises e, w) => (Raises e, w)
      | (Returns _, w) => (Returns m, w)
      end
  end.

(** One turn of the retry loop for the job at position [i]. *)
Definition retry_step (options : ProcessingOptions) (envs : nat -> JobEnv)
    (r : Run) (i : nat) : Run :=
  _process_single_job clock i options (envs i)
    (mkRun (set_jobs (alter reset_for_retry i (jobs (manifest r))) (manifest r))
       (world r)).

End BatchStates.

(** A job as [populate_jobs] makes it. *)
Definition pristine (j : TranscriptionJob) : Prop :=
  exists job_id job_url now, j = new_job job_id job_url now.

(** The three relations together. *)
Definition consistent (j : TranscriptionJob) : Prop :=
  reason_consistent j /\ cost_consistent j /\ completed_cost_known j.

(** Every job an event shows is consistent. *)
Definition shows_consistent (e : Event) : Prop := Forall consistent (event_jobs e).

(** The event is not about any job from position [k] on of [js]. *)
Definition silent_from (k : nat) (js : list TranscriptionJob) (e : Event) : Prop :=
  forall j job, (k <= j)%nat -> js !! j = Some job -> ~ event_about (id job) e.

(** The test [manifest.total_actual_cost >= cap] of the batch loop. *)
Definition budget_reached (cap : Q) (r : Run) : bool :=
  Qge_bool (total_actual_cost (manifest r)) cap.

(** *** A batch used in the examples below: three URLs, every service
    answering well, each video 100 seconds long. *)

Definition demo_config : Config := mkConfig 3 true false 20.

Definition demo_clock (n : nat) : datetime := Z.of_nat n.

Definition demo_metadata : VideoMetadata :=
  mkVideoMetadata (Some "Talk") (Some "YouTube") (Some 100%Q) None None None None.

Definition demo_transcript : TranscriptData :=
  mkTranscriptData (Some "t1") (Some "good morning everyone") (Some "completed")
    None None None sample_words None.

Definition ok_env : JobEnv :=
  mkJobEnv (Some demo_metadata) (Some "temp/video.mp4", None, None) (Returns ())
    (true, None, None) (true, Some demo_transcript, None, None)
    (fun _ => true) (Returns ()).

Definition demo_options (formats : list OutputFormats) (cap : option Q)
  : ProcessingOptions :=
  mkOptions "urls.txt" "out" formats false true false cap.

Definition demo_batch (envs : nat -> JobEnv) : BatchEnv :=
  mkBatchEnv
    (PlainInput (Returns [ "https://example.com/1"; "https://example.com/2";
                           "https://example.com/3" ]))
    "batch_20240101_000000_abcdef12" (Returns ()) (Returns ()) envs (Returns ()).

Definition empty_world : World := mkWorld ∅ [] 0.

(** Every job an event shows satisfies [P]. *)
Definition shows (P : TranscriptionJob -> Prop) (e : Event) : Prop :=
  Forall P (event_jobs e).

(** A job the orchestrator has not worked on. *)
Definition idle (j : TranscriptionJob) : Prop :=
  status j = PENDING /\ failure_reason j = None /\ actual_cost j = None.

(** Among the events [evs] (the latest first), [e0] is the first one about
    the job [job_id]: nothing older is about it. *)
Definition first_about (job_id : string) (evs : list Event) (e0 : Event) : Prop :=
  exists later earlier,
    evs = later ++ e0 :: earlier
    /\ Forall (fun e => ~ event_about job_id e) earlier.

(** The events say nothing about the job [job_id]. *)
Definition nothing_about (job_id : string) (evs : list Event) : Prop :=
  Forall (fun e => ~ event_about job_id e) evs.

(** The options [retry_failed_jobs] builds from the manifest. *)
Definition retry_options (m : TranscriptionManifest) (budget : Q)
    (formats : list OutputFormats) : ProcessingOptions :=
  mkOptions (input_file m) (manifest_output_dir m) formats false true false (Some budget).

(** The job at position [i] was left as it was, and nothing was done for
    it. *)
Definition left_untouched (r' : Run) (evs : list Event) (i : nat) (j : TranscriptionJob)
  : Prop :=
  jobs (manifest r') !! i = Some j /\ nothing_about (id j) evs.

(** The job at position [i] went through the pipeline again: the first
    thing done for it is the opening of its pass, with the job reset, and the
    pass left it completed or failed with its count of retries one higher. *)
Definition run_again (r' : Run) (evs : list Event) (i : nat) (j : TranscriptionJob)
  : Prop :=
  first_about (id j) evs (LogProcessing (reset_for_retry j))
  /\ exists job',
       jobs (manifest r') !! i = Some job'
       /\ id job' = id j
       /\ retry_count job' = retry_count j + 1
       /\ (status job' = COMPLETED \/ status job' = FAILED).

(** *** A manifest used in the retry examples: a job that failed at the
    download, a job that failed and has used its three retries, and a
    completed job that cost 0.147. *)

Definition failed_job (job_id : string) (retries : Z) : TranscriptionJob :=
  set_retry_count retries
    (set_error_message (Some "HTTP Error 404")
       (set_failure_reason (Some DOWNLOAD_FAILED)
          (set_status FAILED (new_job job_id "https://example.com/1" 0)))).

Definition completed_job (job_id : string) : TranscriptionJob :=
  set_actual_cost (Some (147 # 1000))
    (set_status COMPLETED (new_job job_id "https://example.com/3" 0)).

Definition retry_manifest : TranscriptionManifest :=
  update_stats 0
    (mkManifest "batch_x" 0 0 "urls.txt" "out" ["txt"]
       [ failed_job "batch_x_job_001" 0; failed_job "batch_x_job_002" 3;
         completed_job "batch_x_job_003" ]
       0 0 0 0 0 20).

(** Services where the download fails. *)
Definition no_download_env : JobEnv :=
  mkJobEnv (Some demo_metadata) (None, Some DOWNLOAD_FAILED, Some "HTTP Error 404")
    (Returns ()) (true, None, None) (true, Some demo_transcript, None, None)
    (fun _ => true) (Returns ()).

(** Services that answer well, where the output files of the formats [ok]
    can be written and the others cannot. *)
Definition write_env (ok : OutputFormats -> bool) : JobEnv :=
  mkJobEnv (Some demo_metadata) (Some "temp/video.mp4", None, None) (Returns ())
    (true, None, None) (true, Some demo_transcript, None, None) ok (Returns ()).

(** Services that answer well, but the video metadata cannot be read. *)
Definition no_metadata_env : JobEnv :=
  mkJobEnv None (Some "temp/video.mp4", None, None) (Returns ())
    (true, None, None) (true, Some demo_transcript, None, None)
    (fun _ => true) (Returns ()).

(** The job as [_process_single_job] hands it to the formatters, when the
    download, the conversion and the transcription have succeeded: what the
    formatters read of it. *)
Definition formatted_input (transcript : option TranscriptData) (job : TranscriptionJob)
  : Prop :=
  transcript_data job = transcript
  /\ transcript_text job = match transcript with
                           | Some t => td_text t
                           | None => Some ""
                           end
  /\ status job = FORMATTING.

(** A job demoted because of its outputs. *)
Definition demoted (job : TranscriptionJob) : Prop :=
  status job = FAILED /\ failure_reason job = Some FORMAT_FAILED.

(** Every requested formatter succeeds on [job]. *)
Definition all_formatted (options : ProcessingOptions) (job : TranscriptionJob)
    (env : JobEnv) : bool :=
  forallb (fun f => format_transcript f job env) (opt_formats options).

(** Some requested formatter succeeds on [job]. *)
Definition some_formatted (options : ProcessingOptions) (job : TranscriptionJob)
    (env : JobEnv) : bool :=
  existsb (fun f => format_transcript f job env) (opt_formats options).

(** The status the manifest file on disk gives the job at position [i]. *)
Definition on_disk_status (clock : nat -> datetime) (w : World) (dir : Path) (i : nat)
  : option JobStatus :=
  match load_manifest (manifest_path dir) (clock 0%nat) (files w) with
  | Returns m => status <$> jobs m !! i
  | Raises _ => None
  end.

(** ** More of the orchestrator and of the manifest manager *)

(** The body of the loop of [_perform_dry_run] for one job: what the loop
    leaves of [job] when the metadata service answers [env_metadata env]. *)
Definition dry_run_job (env : JobEnv) (job : TranscriptionJob) : TranscriptionJob :=
  set_status PENDING
    match env_metadata env with
    | Some metadata =>
        set_estimated_cost
          (Some (_estimate_job_cost (float_or (duration metadata) 120)))
          (set_video_metadata (Some metadata) job)
    | None => set_estimated_cost (Some (_estimate_job_cost 120)) job
    end.

(** A job in one of the three statuses a finished batch leaves. *)
Definition settled (j : TranscriptionJob) : Prop :=
  status j = COMPLETED \/ status j = FAILED \/ status j = SKIPPED.

(** A job skipped by the budget cutoff. *)
Definition skipped_for_budget (j : TranscriptionJob) : Prop :=
  status j = SKIPPED
  /\ failure_reason j = Some BUDGET_EXCEEDED
  /\ error_message j = Some "Skipped due to budget cap".

(** The event is a call of an adapter, of a formatter or of the clean-up. *)
Definition is_call (e : Event) : Prop :=
  match e with Call _ _ => True | _ => False end.

(** The events a run has added to the trace, the latest first. *)
Definition new_events (w w' : World) : list Event :=
  take (length (trace w') - length (trace w)) (trace w').

(** The services called in the events [evs], in the order of the calls. *)
Definition call_kinds (evs : list Event) : list CallKind :=
  omap (fun e => match e with Call k _ => Some k | _ => None end) (rev evs).

(** The clean-up call of a pass, made when temporary files are to be
    deleted. *)
Definition cleanup_call (options : ProcessingOptions) : list CallKind :=
  if opt_delete_temp options then [CleanupTempFiles] else [].

(** What identifies a manifest and is fixed at its creation. *)
Definition manifest_header (m : TranscriptionManifest)
  : string * datetime * string * string * list string * Q :=
  (manifest_id m, manifest_created_at m, input_file m, manifest_output_dir m,
   output_formats m, budget_cap m).

(** The statistics of [m] are those of its jobs. *)
Definition stats_current (m : TranscriptionManifest) : Prop :=
  total_jobs m = length (jobs m)
  /\ completed_jobs m = length (filter (fun j => status j = COMPLETED) (jobs m))
  /\ failed_jobs m = length (filter (fun j => status j = FAILED) (jobs m))
  /\ total_estimated_cost m = sum_costs estimated_cost (jobs m)
  /\ total_actual_cost m = sum_costs actual_cost (jobs m).

(** A word the grouping loops keep. *)
Definition kept_word (w : Word) : Prop := word_is_skipped w = false.

(** A row of a table with no cell under a column named url. *)
Definition lacks_url_cell (names row : list string) : Prop :=
  "url" ∈ drop (length row) names.

(** A table used in the examples: its second row is short. *)
Definition short_row_csv : CsvFile :=
  mkCsvFile (Some ["title"; "url"])
    [ ["first"; "https://example.com/1"]; ["second"] ].

(** A table that is invalid in part: its second row stops before the url
    column, between two rows that hold a URL. *)
Definition partial_csv : CsvFile :=
  mkCsvFile (Some ["title"; "url"])
    [ ["first"; "https://example.com/1"]; ["second"];
      ["third"; "https://example.com/3"] ].

(** The same table with the cell of the second row given, empty. *)
Definition completed_csv : CsvFile :=
  mkCsvFile (Some ["title"; "url"])
    [ ["first"; "https://example.com/1"]; ["second"; ""];
      ["third"; "https://example.com/3"] ].

(** A batch whose input is the table [partial_csv]. *)
Definition partial_csv_batch : BatchEnv :=
  mkBatchEnv (CsvInput (Returns partial_csv))
    "batch_20240101_000000_abcdef12" (Returns ()) (Returns ()) (fun _ => ok_env)
    (Returns ()).

(** ** core/manifest.py: looking jobs up and updating them *)

(** [ManifestManager.get_job_by_id]: the first job with that identifier. *)
Definition get_job_by_id (m : TranscriptionManifest) (job_id : string)
  : option TranscriptionJob :=
  snd <$> list_find (fun j => id j = job_id) (jobs m).

Section Manager.

Variable clock : nat -> datetime.

(** [ManifestManager.update_manifest]: the statistics are recomputed and the
    manifest saved; an error of the save is logged and goes no further. *)
Definition update_manifest (m : TranscriptionManifest) (output_dir : Path)
    (io : Outcome unit) (w : World) : TranscriptionManifest * World :=
  let '(now, w) := utcnow clock w in
  let m := update_stats now m in
  let '(_, w) := save m output_dir io w in
  (m, w).

(** [ManifestManager.update_job_status]: the job found is changed in place,
    so at its position in the list; [output_dir] is [None] when the argument
    is left out. *)
Definition update_job_status (m : TranscriptionManifest) (job_id : string)
    (new_status : JobStatus) (output_dir : option Path) (io : Outcome unit) (w : World)
  : TranscriptionManifest * World :=
  match list_find (fun j => id j = job_id) (jobs m) with
  | None => (m, w)
  | Some (i, job) =>
      let job := set_status new_status job in
      let '(job, w) :=
        if bool_decide (new_status = COMPLETED) then
          let '(now, w) := utcnow clock w in (set_completed_at (Some now) job, w)
        else if bool_decide (new_status <> PENDING) then
          let '(now, w) := utcnow clock w in (set_started_at (Some now) job, w)
        else (job, w) in
      let m := set_jobs (<[i := job]> (jobs m)) m in
      match output_dir with
      | Some dir => update_manifest m dir io w
      | None => (m, w)
      end
  end.

End Manager.

(** The dictionary [calculate_batch_stats] returns. *)
Record BatchStats : Type := mkBatchStats {
  bs_total_jobs : Z;
  bs_completed : Z;
  bs_failed : Z;
  bs_pending : Z;
  bs_in_progress : Z;
  bs_success_rate : Q;
  bs_total_cost : Q;
  bs_estimated_cost : Q;
  bs_processing_time_seconds : option Z;
  bs_budget_remaining : Q
}.

(** [min] and [max] of a list of instants that is not empty. *)
Definition earliest (ts : list datetime) : option datetime :=
  match ts with
  | [] => None
  | t :: rest => Some (foldl Z.min t rest)
  end.

Definition latest (ts : list datetime) : option datetime :=
  match ts with
  | [] => None
  | t :: rest => Some (foldl Z.max t rest)
  end.

(** [ManifestManager.calculate_batch_stats]; the processing time is the
    difference of two readings of the clock, in the clock's unit. *)
Definition calculate_batch_stats (m : TranscriptionManifest) : BatchStats :=
  let total := Z.of_nat (length (jobs m)) in
  let completed := Z.of_nat (length (filter (fun j => status j = COMPLETED) (jobs m))) in
  let failed := Z.of_nat (length (filter (fun j => status j = FAILED) (jobs m))) in
  let pending := Z.of_nat (length (filter (fun j => status j = PENDING) (jobs m))) in
  let in_progress := total - completed - failed - pending in
  let total_cost := sum_costs actual_cost (jobs m) in
  let estimated_cost := sum_costs estimated_cost (jobs m) in
  let processing_time :=
    match earliest (omap started_at (jobs m)), latest (omap completed_at (jobs m)) with
    | Some start_time, Some end_time => Some (end_time - start_time)
    | _, _ => None
    end in
  mkBatchStats total completed failed pending in_progress
    (if bool_decide (0 < total) then (inject_Z completed / inject_Z total * 100)%Q else 0%Q)
    total_cost estimated_cost processing_time
    (budget_cap m - total_cost)%Q.

(** A job in a stage of the pipeline or skipped: neither pending, nor
    completed, nor failed. *)
Definition counted_in_progress (j : TranscriptionJob) : Prop :=
  status j <> COMPLETED /\ status j <> FAILED /\ status j <> PENDING.

(** ** core/processor.py: the estimates *)

(** [AssemblyAIAPI.estimate_transcription_time]. *)
Definition estimate_transcription_time (duration_seconds : Q) : Q :=
  (duration_seconds * (33 # 100) + 30)%Q.

(** [FreeConvertAPI.estimate_conversion_time]. *)
Definition estimate_conversion_time (file_size_mb : Q) : Q := (30 + file_size_mb)%Q.

(** [TranscriptionProcessor._estimate_job_time]; [download] is what
    [estimate_download_time] answers for the empty URL it is given. *)
Definition _estimate_job_time (download : option Q) (duration_seconds : Q) : Q :=
  let download_time := float_or download 60 in
  let file_size_mb := (duration_seconds * (1 # 2))%Q in
  let conversion_time := estimate_conversion_time file_size_mb in
  let transcription_time := estimate_transcription_time duration_seconds in
  let buffer_time := 30%Q in
  (download_time + conversion_time + transcription_time + buffer_time)%Q.

(** The dictionaries [estimate_retry] and [estimate_batch] return. *)
Record Estimate : Type := mkEstimate {
  est_count : nat;
  est_cost : Q;
  est_duration : Q;
  est_sample_size : option nat
}.

(** The duration an estimate uses for a video: the one of its metadata when
    there is one that is not zero, 120 seconds otherwise. *)
Definition duration_or_default (metadata : option VideoMetadata) : Q :=
  match metadata with
  | Some md =>
      match duration md with
      | Some d => if Qeq_bool d 0 then 120%Q else d
      | None => 120%Q
      end
  | None => 120%Q
  end.

(** The loop shared by the two estimates: [durations] are the durations
    used, [downloads k] what the download estimate answers at turn [k]. *)
Fixpoint estimate_loop (downloads : nat -> option Q) (k : nat) (durations : list Q)
    (total_cost total_duration : Q) : Q * Q :=
  match durations with
  | [] => (total_cost, total_duration)
  | d :: rest =>
      estimate_loop downloads (S k) rest
        (total_cost + _estimate_job_cost d)%Q
        (total_duration + _estimate_job_time (downloads k) d)%Q
  end.


(** [TranscriptionProcessor.estimate_batch]: [metadata k] is what
    [get_video_metadata] answers for the [k]-th URL; the adapter catches
    every error itself and answers [None]. *)
Definition estimate_batch (input : InputFile) (metadata : nat -> option VideoMetadata)
    (downloads : nat -> option Q) : Outcome Estimate :=
  bind_outcome (load_urls_from_file input) (fun loaded =>
    let urls := loaded.1 in
    match urls with
    | [] => Returns (mkEstimate 0 0%Q 0%Q None)
    | _ :: _ =>
        let sample_urls := take (Nat.min 5 (length urls)) urls in
        let '(total_cost, total_duration) :=
          estimate_loop downloads 0
            (imap (fun k _ => duration_or_default (metadata k)) sample_urls) 0%Q 0%Q in
        let n := inject_Z (Z.of_nat (length sample_urls)) in
        let avg_cost := (total_cost / n)%Q in
        let avg_duration := (total_duration / n)%Q in
        let all := inject_Z (Z.of_nat (length urls)) in
        Returns (mkEstimate (length urls) (avg_cost * all)%Q
                   (avg_duration * all / 60)%Q (Some (length sample_urls)))
    end).

#[global] Instance counted_in_progress_dec (j : TranscriptionJob) :
  Decision (counted_in_progress j).
Proof. unfold counted_in_progress. apply _. Defined.


(** A string made of white space only. *)
Fixpoint all_space (s : string) : bool :=
  match s with
  | EmptyString => true
  | String c s' => py_isspace c && all_space s'
  end.

(** A line between some white space: indentation before, blanks and the
    line ending after. *)
Definition padded (line : string) (pad : string * string) : string :=
  pad.1 +:+ line +:+ pad.2.

(** The line ending of a file written on Windows. *)
Definition crlf : string := String "013" (String "010" EmptyString).

(** * Properties *)

(** * Caption grouping *)

Section CaptionGrouping.

Local Close Scope Z_scope.

Lemma timed_word_not_skipped w : timed_word w -> word_is_skipped w = false.
Proof. intros (_ & Hs & He). unfold word_is_skipped. by rewrite Hs, He. Qed.

Lemma timed_word_fields w :
  timed_word w -> exists t s e, word_text w = Some t /\ word_start w = Some s /\ word_end w = Some e.
Proof.
  intros ([t Ht] & Hs & He).
  destruct (word_start w) as [s|] eqn:Es; [|done].
  destruct (word_end w) as [e|] eqn:Ee; [|done]. eauto 10.
Qed.

Lemma mapM_word_text_timed (g : list Word) :
  Forall timed_word g -> is_Some (mapM word_text g).
Proof.
  intros H. apply mapM_is_Some. eapply Forall_impl; [exact H|]. by intros w (Ht & _).
Qed.

(** A non-empty group of timed words always yields its caption. *)
Lemma make_segment_timed (g : list Word) (s : Q) :
  g <> [] -> Forall timed_word g -> head g ≫= word_start = Some s ->
  exists seg, make_segment (Some s) g = Returns seg /\ segment_of g seg /\ seg_start seg = s.
Proof.
  intros Hne Hall Hs. unfold make_segment.
  destruct (last g) as [w|] eqn:El; [|by apply last_None in El].
  assert (Hw : timed_word w).
  { rewrite Forall_forall in Hall. apply Hall. apply last_Some in El as [l' ->].
    apply elem_of_app; right; apply list_elem_of_singleton; done. }
  destruct (timed_word_fields _ Hw) as (t & s' & e & _ & _ & He). rewrite He.
  destruct (mapM_word_text_timed _ Hall) as [ts Hts].
  unfold join_texts. rewrite Hts. simpl.
  eexists; split; [done|]. unfold segment_of; simpl. rewrite El, Hts. simpl. by rewrite He.
Qed.

Lemma cur_ok_flush d N cur s :
  cur <> [] -> cur_ok d N cur (Some s) ->
  exists seg, make_segment (Some s) cur = Returns seg /\ good_group d N cur seg.
Proof.
  intros Hne [->|(s' & [= <-] & Hh & Hall & Hlen & Hw)]; [done|].
  destruct (make_segment_timed cur s Hne Hall Hh) as (seg & Hm & Hseg & Hst).
  exists seg. split; [done|]. unfold good_group. by rewrite Hst.
Qed.

Lemma cur_ok_single d N w :
  (1 <= N)%nat -> timed_word w -> cur_ok d N [w] (word_start w).
Proof.
  intros HN Hw. right. destruct (timed_word_fields _ Hw) as (t & s & e & _ & Hs & _).
  exists s. repeat split; simpl; auto. unfold within; simpl. constructor.
Qed.

Lemma within_snoc d s cur w e :
  cur <> [] -> within d s cur -> word_end w = Some e -> (e - s <= d)%Q ->
  within d s (cur ++ [w]).
Proof.
  intros Hne Hw He Hle. unfold within in *. destruct cur as [|c cur]; [done|]. simpl in *.
  apply Forall_app. split; [done|]. constructor; [|constructor]. eauto.
Qed.

Lemma group_loop_spec (d : Q) (N : nat) (words : list Word) :
  (1 <= N)%nat -> Forall timed_word words ->
  forall segs cur start, cur_ok d N cur start ->
  exists groups segs',
    SRTFormatter.group_loop d N words segs cur start = Returns (segs ++ segs')
    /\ Forall2 (good_group d N) groups segs'
    /\ concat groups = cur ++ words.
Proof.
  intros HN Hall. induction Hall as [|word rest Hw Hrest IH]; intros segs cur start Hcur.
  - simpl. destruct cur as [|c cur].
    + exists [], []. by rewrite app_nil_r.
    + destruct Hcur as [|(s & -> & Hcur)]; [done|].
      destruct (cur_ok_flush d N (c :: cur) s) as (seg & Hm & Hg); [done| |].
      { right. exists s. done. }
      rewrite Hm. simpl. exists [c :: cur], [seg]. split; [done|]. split.
      * apply Forall2_cons; split; [done|by apply Forall2_nil].
      * simpl. by rewrite !app_nil_r.
  - simpl. rewrite (timed_word_not_skipped _ Hw).
    destruct cur as [|c cur].
    + destruct (IH segs [word] (word_start word)) as (gs & ss & Hrun & Hgs & Hcat).
      { by apply cur_ok_single. }
      exists gs, ss. done.
    + destruct Hcur as [|(s & -> & Hh & Hc & Hlen & Hin)]; [done|].
      destruct (timed_word_fields _ Hw) as (t & s' & e & _ & _ & He). rewrite He.
      destruct (Qgt_bool (e - s) d || bool_decide (N <= length (c :: cur))%nat) eqn:Ecut.
      * destruct (cur_ok_flush d N (c :: cur) s) as (seg & Hm & Hg); [done| |].
        { right. exists s. done. }
        rewrite Hm. simpl.
        destruct (IH (segs ++ [seg]) [word] (word_start word)) as (gs & ss & Hrun & Hgs & Hcat).
        { by apply cur_ok_single. }
        exists ((c :: cur) :: gs), (seg :: ss). split; [|split].
        -- rewrite Hrun. by rewrite <- app_assoc.
        -- by apply Forall2_cons.
        -- simpl. rewrite Hcat. simpl. done.
      * apply orb_false_iff in Ecut as [Egt Elen].
        apply bool_decide_eq_false in Elen.
        unfold Qgt_bool in Egt. apply negb_false_iff, Qle_bool_iff in Egt.
        destruct (IH segs ((c :: cur) ++ [word]) (Some s)) as (gs & ss & Hrun & Hgs & Hcat).
        { right. exists s. split; [done|]. split; [done|]. split; [|split].
          - apply Forall_app. split; [done|]. by constructor.
          - rewrite length_app. simpl in *. lia.
          - by eapply within_snoc. }
        exists gs, ss. split; [exact Hrun|]. split; [done|].
        rewrite Hcat. by rewrite <- app_assoc.
Qed.

Lemma vtt_loop_as_srt (d : Q) (N : nat) (words : list Word) :
  forall segs cur start, (length cur + length words < N)%nat ->
  VTTFormatter.group_loop d words segs cur start
  = SRTFormatter.group_loop d N words segs cur start.
Proof.
  induction words as [|word rest IH]; intros segs cur start Hlen; simpl; [done|].
  simpl in Hlen. destruct (word_is_skipped word).
  { apply IH. lia. }
  destruct cur as [|c cur].
  { apply IH. simpl. lia. }
  destruct (word_end word) as [e|]; [|done].
  destruct start as [s|]; [|done].
  rewrite (bool_decide_eq_false_2 (N <= length (c :: cur))%nat) by (simpl in *; lia).
  rewrite orb_false_r. destruct (Qgt_bool (e - s) d).
  - destruct (make_segment (Some s) (c :: cur)); simpl; [|done]. apply IH. simpl. lia.
  - apply IH. rewrite length_app. simpl in *. lia.
Qed.

Lemma good_group_caption d N g seg : good_group d N g seg -> caption_of d g seg.
Proof.
  intros (Hne & Hall & Hseg & Hlen & Hin). split; [done|]. split; [done|].
  intros H2. destruct Hseg as (_ & Hlast & _).
  destruct g as [|w0 [|w1 g]]; simpl in H2; try lia.
  unfold within in Hin. simpl in Hin.
  assert (Hl : last (w0 :: w1 :: g) = last (w1 :: g)) by done.
  rewrite Hl in Hlast.
  destruct (last (w1 :: g)) as [w|] eqn:El; [|done]. simpl in Hlast.
  assert (Hel : w ∈ w1 :: g).
  { apply last_Some in El as [l' El]. rewrite El. apply elem_of_app; right.
    by apply list_elem_of_singleton. }
  rewrite Forall_forall in Hin. destruct (Hin _ Hel) as (e & He & Hle).
  rewrite He in Hlast. injection Hlast as Heq. unfold seg_span. rewrite <- Heq. exact Hle.
Qed.

Lemma good_groups_captions d N gs ss :
  Forall2 (good_group d N) gs ss ->
  Forall2 (fun g seg => caption_of d g seg /\ (length g <= N)%nat) gs ss.
Proof.
  intros H. eapply Forall2_impl; [exact H|]. intros g seg Hg. split.
  - by eapply good_group_caption.
  - by destruct Hg as (_ & _ & _ & Hlen & _).
Qed.

(** C6 (amended).  For every word sequence in which every word has a text
    and explicit, non-zero start and end timestamps, both groupings return
    segments that are a space-joined, order-preserving partition of the
    words: the words are cut into consecutive groups, one per segment; a
    segment starts at the start of its first word, ends at the end of its
    last word and carries the texts joined by spaces; a segment of two or
    more words spans at most 8 seconds, a segment of one word spans that
    word; and an SRT segment has at most 10 words. *)
Theorem caption_grouping_partition (words : list Word) :
  Forall timed_word words ->
  (exists groups segs,
      SRTFormatter._group_words_into_segments words = Returns segs
      /\ concat groups = words
      /\ Forall2 (fun g seg => caption_of 8 g seg /\ (length g <= 10)%nat) groups segs)
  /\ (exists groups segs,
      VTTFormatter._group_words_into_segments words = Returns segs
      /\ concat groups = words
      /\ Forall2 (caption_of 8) groups segs).
Proof.
  intros Hall. split.
  - destruct (group_loop_spec 8 10 words ltac:(lia) Hall [] [] None) as (gs & ss & Hrun & Hgs & Hcat).
    { by left. }
    exists gs, ss. split; [exact Hrun|]. split; [exact Hcat|]. by eapply good_groups_captions.
  - destruct (group_loop_spec 8 (S (length words)) words ltac:(lia) Hall [] [] None)
      as (gs & ss & Hrun & Hgs & Hcat).
    { by left. }
    exists gs, ss. split.
    + unfold VTTFormatter._group_words_into_segments.
      rewrite (vtt_loop_as_srt 8 (S (length words))) by (simpl; lia). exact Hrun.
    + split; [exact Hcat|]. eapply Forall2_impl; [exact Hgs|].
      intros g seg Hg. by eapply good_group_caption.
Qed.

Lemma caption_grouping_partition_witness :
  Forall timed_word sample_words
  /\ ((exists groups segs,
      SRTFormatter._group_words_into_segments sample_words = Returns segs
      /\ concat groups = sample_words
      /\ Forall2 (fun g seg => caption_of 8 g seg /\ (length g <= 10)%nat) groups segs)
  /\ (exists groups segs,
      VTTFormatter._group_words_into_segments sample_words = Returns segs
      /\ concat groups = sample_words
      /\ Forall2 (caption_of 8) groups segs)).
Proof.
  assert (H : Forall timed_word sample_words).
  { repeat constructor; by eexists. }
  split; [exact H|]. apply (caption_grouping_partition sample_words). exact H.
Defined.

Example sample_words_srt :
  SRTFormatter._group_words_into_segments sample_words
  = Returns [mkSegment 1 3 "good morning"; mkSegment 10 12 "everyone"].
Proof. reflexivity. Qed.

Lemma caption_long_word_exceeds_maximum :
  ~ (forall words segs,
       Forall explicit_timestamps words ->
       SRTFormatter._group_words_into_segments words = Returns segs ->
       Forall (fun seg => (seg_span seg <= 8)%Q) segs).
Proof.
  intros H.
  specialize (H [long_word] [mkSegment 1 20 "hello"]).
  assert (Hex : Forall explicit_timestamps [long_word]).
  { repeat constructor; by eexists. }
  specialize (H Hex eq_refl). apply Forall_cons in H as [H _].
  vm_compute in H. by apply H.
Qed.

Example caption_zero_start_dropped :
  SRTFormatter._group_words_into_segments
    [ mkWord (Some "first") (Some 0%Q) (Some 1%Q) None;
      mkWord (Some "second") (Some 1%Q) (Some 2%Q) None ]
  = Returns [mkSegment 1 2 "second"].
Proof. reflexivity. Qed.

End CaptionGrouping.

(** * Reading the list of URLs *)

Section UrlLoading.

Local Close Scope Z_scope.

Lemma startswith_http_nonempty s :
  startswith "http" s = true -> nonempty s = true /\ startswith "#" s = false.
Proof.
  unfold startswith. destruct s as [|[[] [] [] [] [] [] [] []] s]; done.
Qed.

Lemma nonempty_true s : nonempty s = true <-> s <> "".
Proof. destruct s; simpl; split; congruence. Qed.

(** The loop of the plain reader: the URLs found are appended in order, and
    the log grows by one warning per rejected line, numbered from [n0]. *)
Lemma txt_loop_spec (lines : list string) :
  forall n0 urls log,
  exists warned,
    txt_loop n0 lines urls log
    = (urls ++ List.filter (startswith "http") (strip <$> lines), log ++ warned)
    /\ forall r, r ∈ warned <->
         exists k line, lines !! k = Some line
           /\ r = WarnInvalidUrl (n0 + k) (strip line) /\ rejected_line (strip line).
Proof.
  induction lines as [|line rest IH]; intros n0 urls log.
  - exists []. simpl. rewrite !app_nil_r. split; [done|].
    intros r. split; [by intros ?%elem_of_nil|]. by intros (k & l & Hk & _).
  - simpl. destruct (nonempty (strip line) && negb (startswith "#" (strip line))) eqn:Ecomment.
    + apply andb_true_iff in Ecomment as [Hne Hhash]. apply negb_true_iff in Hhash.
      destruct (startswith "http" (strip line)) eqn:Ehttp.
      * destruct (IH (S n0) (urls ++ [strip line]) log) as (warned & Hrun & Hw).
        exists warned. split.
        { rewrite Hrun. by rewrite <- app_assoc. }
        intros r. rewrite Hw. split.
        -- intros (k & l & Hk & -> & Hrej). exists (S k), l. split; [done|].
           split; [f_equal; lia|done].
        -- intros (k & l & Hk & -> & Hrej). destruct k as [|k].
           ++ simpl in Hk. injection Hk as <-. destruct Hrej as (_ & _ & Hrej). congruence.
           ++ exists k, l. split; [done|]. split; [f_equal; lia|done].
      * destruct (IH (S n0) urls (log ++ [WarnInvalidUrl n0 (strip line)])) as (warned & Hrun & Hw).
        exists (WarnInvalidUrl n0 (strip line) :: warned). split.
        { rewrite Hrun. by rewrite <- app_assoc. }
        intros r. rewrite elem_of_cons, Hw. split.
        -- intros [->|(k & l & Hk & -> & Hrej)].
           ++ exists 0%nat, line. split; [done|]. split; [f_equal; lia|].
              split; [by apply nonempty_true|done].
           ++ exists (S k), l. split; [done|]. split; [f_equal; lia|done].
        -- intros (k & l & Hk & -> & Hrej). destruct k as [|k].
           ++ left. simpl in Hk. injection Hk as <-. f_equal. lia.
           ++ right. exists k, l. split; [done|]. split; [f_equal; lia|done].
    + assert (Hhttp : startswith "http" (strip line) = false).
      { destruct (startswith "http" (strip line)) eqn:E; [|done].
        apply startswith_http_nonempty in E as [E1 E2]. by rewrite E1, E2 in Ecomment. }
      rewrite Hhttp. destruct (IH (S n0) urls log) as (warned & Hrun & Hw).
      exists warned. split; [done|].
      intros r. rewrite Hw. split.
      * intros (k & l & Hk & -> & Hrej). exists (S k), l. split; [done|].
        split; [f_equal; lia|done].
      * intros (k & l & Hk & -> & Hrej). destruct k as [|k].
        -- simpl in Hk. injection Hk as <-. destruct Hrej as (Hne & Hh & _).
           apply nonempty_true in Hne. by rewrite Hne, Hh in Ecomment.
        -- exists k, l. split; [done|]. split; [f_equal; lia|done].
Qed.

Lemma foldl_insert_lookup (kvs : list (string * string)) :
  forall (d : gmap string (option string)) (k : string),
  foldl (fun d kv => <[kv.1 := Some kv.2]> d) d kvs !! k
  = match last (filter (fun kv => kv.1 = k) kvs) with
    | Some kv => Some (Some kv.2)
    | None => d !! k
    end.
Proof.
  induction kvs as [|kv kvs IH]; intros d k; simpl; [done|].
  rewrite IH. rewrite filter_cons. destruct (decide (kv.1 = k)) as [Hk|Hk].
  - destruct (filter (fun kv => kv.1 = k) kvs) as [|kv' l] eqn:El.
    + simpl. rewrite <- Hk. by rewrite lookup_insert_eq.
    + change (last (kv :: kv' :: l)) with (last (kv' :: l)).
      destruct (last (kv' :: l)) eqn:E; [done|]. by apply last_None in E.
  - destruct (last (filter (fun kv => kv.1 = k) kvs)); [done|].
    by rewrite lookup_insert_ne.
Qed.

Lemma rectangular_row_url (names row : list string) :
  "url" ∈ names -> (length names <= length row)%nat ->
  exists cell, url_cell names row = Some cell
    /\ row_get_url (DictReader_row names row) = Some cell.
Proof.
  intros Hin Hlen. unfold row_get_url, DictReader_row, url_cell.
  rewrite drop_ge by done. simpl. rewrite foldl_insert_lookup, lookup_empty.
  destruct (last (filter (fun kv => kv.1 = "url") (zip names row))) as [kv|] eqn:El.
  - exists kv.2. done.
  - exfalso. apply last_None in El.
    apply list_elem_of_lookup in Hin as [i Hi].
    destruct (lookup_lt_is_Some_2 row i) as [cell Hcell].
    { apply lookup_lt_Some in Hi. lia. }
    assert (Hz : ("url", cell) ∈ filter (fun kv => kv.1 = "url") (zip names row)).
    { apply list_elem_of_filter. split; [done|].
      apply list_elem_of_lookup. exists i. rewrite lookup_zip_with. by rewrite Hi, Hcell. }
    rewrite El in Hz. by apply elem_of_nil in Hz.
Qed.

Lemma csv_loop_spec (names : list string) (rows : list (list string)) :
  "url" ∈ names -> Forall (fun row => (length names <= length row)%nat) rows ->
  forall n0 urls log,
  exists cells warned,
    mapM (url_cell names) rows = Some cells
    /\ csv_loop names n0 rows urls log
       = Returns (urls ++ List.filter (startswith "http") (strip <$> cells), log ++ warned).
Proof.
  intros Hin Hrect. induction Hrect as [|row rest Hrow Hrest IH]; intros n0 urls log.
  - exists [], []. simpl. by rewrite !app_nil_r.
  - destruct (rectangular_row_url names row Hin Hrow) as (cell & Hcell & Hget).
    simpl. rewrite Hget.
    destruct (startswith "http" (strip cell)) eqn:Ehttp.
    + destruct (startswith_http_nonempty _ Ehttp) as [Hne _]. rewrite Hne. simpl.
      destruct (IH (S n0) (urls ++ [strip cell]) log) as (cells & warned & Hcells & Hrun).
      exists (cell :: cells), warned. split.
      { cbn. rewrite Hcell. cbn. by rewrite Hcells. }
      rewrite Hrun. simpl. rewrite Ehttp. by rewrite <- app_assoc.
    + rewrite andb_false_r. destruct (nonempty (strip cell)).
      * destruct (IH (S n0) urls (log ++ [WarnInvalidUrl n0 (strip cell)]))
          as (cells & warned & Hcells & Hrun).
        exists (cell :: cells), (WarnInvalidUrl n0 (strip cell) :: warned). split.
        { cbn. rewrite Hcell. cbn. by rewrite Hcells. }
        rewrite Hrun. simpl. rewrite Ehttp. by rewrite <- app_assoc.
      * destruct (IH (S n0) urls log) as (cells & warned & Hcells & Hrun).
        exists (cell :: cells), warned. split.
        { cbn. rewrite Hcell. cbn. by rewrite Hcells. }
        rewrite Hrun. simpl. by rewrite Ehttp.
Qed.

(** X23.  Reading a plain list of lines never fails: the URLs are the
    stripped lines that start with http, in order, and a warning is logged
    for exactly the other stripped lines that are neither empty nor
    comments.  A table without a url column makes the table reader raise; a
    table with one, whose rows are complete, is read without failure.
    [load_urls_from_file] itself never raises. *)
Theorem url_loading_tolerates_invalid_lines :
  (forall lines : list string,
      exists warned,
        _load_urls_from_txt (Returns lines)
        = Returns (List.filter (startswith "http") (strip <$> lines), warned)
        /\ (forall r, r ∈ warned <->
              exists k line, lines !! k = Some line
                /\ r = WarnInvalidUrl (S k) (strip line) /\ rejected_line (strip line)))
  /\ (forall (c : CsvFile) (names : list string),
      fieldnames c = Some names -> "url" ∉ names ->
      _load_urls_from_csv (Returns c)
      = Raises (ValueError "CSV file must contain 'url' column"))
  /\ (forall (c : CsvFile) (names : list string),
      fieldnames c = Some names -> "url" ∈ names -> rectangular c ->
      exists cells warned,
        mapM (url_cell names) (csv_rows c) = Some cells
        /\ _load_urls_from_csv (Returns c)
           = Returns (List.filter (startswith "http") (strip <$> cells), warned))
  /\ (forall file : InputFile,
      exists urls log, load_urls_from_file file = Returns (urls, log))
  /\ (forall lines : list string,
      exists log,
        load_urls_from_file (PlainInput (Returns lines))
        = Returns (List.filter (startswith "http") (strip <$> lines), log)).
Proof.
  split; [|split; [|split; [|split]]].
  - intros lines. destruct (txt_loop_spec lines 1 [] []) as (warned & Hrun & Hw).
    exists warned. split; [|exact Hw].
    unfold _load_urls_from_txt. simpl. by rewrite Hrun.
  - intros c names Hnames Hnot. simpl. rewrite Hnames.
    by rewrite bool_decide_eq_false_2.
  - intros c names Hnames Hin Hrect. unfold rectangular in Hrect. rewrite Hnames in Hrect.
    destruct (csv_loop_spec names (csv_rows c) Hin Hrect 2 [] []) as (cells & warned & Hc & Hrun).
    exists cells, warned. split; [done|]. simpl. rewrite Hnames.
    by rewrite bool_decide_eq_true_2.
  - intros file. unfold load_urls_from_file.
    destruct (match file with CsvInput f => _ | PlainInput f => _ end) as [[urls log]|e]; simpl; eauto.
  - intros lines. destruct (txt_loop_spec lines 1 [] []) as (warned & Hrun & _).
    unfold load_urls_from_file, _load_urls_from_txt. simpl. rewrite Hrun. simpl. eauto.
Qed.

Lemma url_loading_tolerates_invalid_lines_witness :
  (exists warned,
      _load_urls_from_txt (Returns sample_lines)
      = Returns (["https://example.com/a"; "http://example.com/b"], warned)
      /\ WarnInvalidUrl 4 "not a url" ∈ warned)
  /\ fieldnames sample_csv = Some ["name"; "url"]
  /\ "url" ∈ ["name"; "url"]
  /\ rectangular sample_csv
  /\ (exists cells warned,
        mapM (url_cell ["name"; "url"]) (csv_rows sample_csv) = Some cells
        /\ _load_urls_from_csv (Returns sample_csv)
           = Returns (List.filter (startswith "http") (strip <$> cells), warned)).
Proof.
  destruct url_loading_tolerates_invalid_lines as (Htxt & _ & Hcsv & _).
  assert (Hin : "url" ∈ ["name"; "url"]) by (apply elem_of_cons; right; apply elem_of_cons; by left).
  assert (Hrect : rectangular sample_csv) by (repeat constructor).
  split; [|split; [done|split; [exact Hin|split; [exact Hrect|]]]].
  - destruct (Htxt sample_lines) as (warned & Hrun & Hw). exists warned. split; [exact Hrun|].
    apply Hw. exists 3%nat, "not a url". repeat split; done.
  - exact (Hcsv sample_csv ["name"; "url"] eq_refl Hin Hrect).
Defined.

End UrlLoading.

(** * The manifest file *)

Lemma parse_datetime_str (t : datetime) : parse_datetime (datetime_str t) = Some t.
Proof.
  unfold parse_datetime, datetime_str. rewrite NilEmpty.isi. simpl. by rewrite DecimalZ.of_to.
Qed.

Lemma dec_datetime_str (t : datetime) : dec_datetime (JStr (datetime_str t)) = Some t.
Proof. apply parse_datetime_str. Qed.

Lemma dec_status_value (s : JobStatus) : dec_status (JStr (JobStatus_value s)) = Some s.
Proof. by destruct s. Qed.

Lemma dec_reason_value (r : FailureReason) : dec_reason (JStr (FailureReason_value r)) = Some r.
Proof. by destruct r. Qed.

Lemma dec_nat_of_nat (n : nat) : dec_nat (JInt (Z.of_nat n)) = Some n.
Proof.
  unfold dec_nat. destruct (Z.leb_spec 0 (Z.of_nat n)); [|lia]. by rewrite Nat2Z.id.
Qed.

Lemma required_enc {A} k (f : json -> option A) d v a :
  jget k d = Some v -> f v = Some a -> required k f d = Some a.
Proof. unfold required. intros -> Hf. simpl. exact Hf. Qed.

Lemma with_default_enc {A} k (f : json -> option A) dflt d v a :
  jget k d = Some v -> f v = Some a -> with_default k f dflt d = Some a.
Proof. unfold with_default. by intros -> ->. Qed.

Lemma optional_enc {A} k (f : json -> option A) (g : A -> json) d o :
  jget k d = Some (enc_opt g o) -> (forall a, g a <> JNull) ->
  (forall a, f (g a) = Some a) -> optional k f d = Some o.
Proof.
  unfold optional. intros -> Hg Hf. destruct o as [a|]; simpl; [|done].
  specialize (Hg a). rewrite Hf. by destruct (g a).
Qed.

Lemma optional_absent {A} k (f : json -> option A) d :
  jget k d = None -> optional k f d = Some None.
Proof. unfold optional. by intros ->. Qed.

Lemma mapM_enc {A} (f : json -> option A) (g : A -> json) (l : list A) :
  (forall a, f (g a) = Some a) -> mapM f (g <$> l) = Some l.
Proof.
  intros H. induction l as [|a l IH]; [done|]. cbn. rewrite H. cbn. by rewrite IH.
Qed.

Lemma dec_list_enc {A} (f : json -> option A) (g : A -> json) (l : list A) :
  (forall a, f (g a) = Some a) -> dec_list f (JList (g <$> l)) = Some l.
Proof. apply mapM_enc. Qed.

Lemma dec_list_str (l : list string) : dec_list dec_str (JList (JStr <$> l)) = Some l.
Proof. by apply dec_list_enc. Qed.

Create HintDb roundtrip.
#[local] Hint Resolve dec_datetime_str dec_status_value dec_reason_value
  dec_nat_of_nat : roundtrip.

(** One field of a written record read back: the member is found by
    computation, the value is read back by one of the lemmas above. *)
Ltac read_field k :=
  first
    [ erewrite (optional_enc k);
      [| reflexivity | intros; discriminate | intros; eauto with roundtrip; fail ]
    | erewrite (required_enc k); [| reflexivity | eauto with roundtrip; fail ]
    | erewrite (with_default_enc k); [| reflexivity | eauto with roundtrip; fail ] ];
  cbn [mbind option_bind].

Ltac read_fields :=
  repeat match goal with
         | |- context [optional ?k _ _] => read_field k
         | |- context [required ?k _ _] => read_field k
         | |- context [with_default ?k _ _ _] => read_field k
         end.

Lemma parse_metadata_dict (v : VideoMetadata) : parse_metadata (metadata_dict v) = Some v.
Proof. destruct v. unfold parse_metadata. read_fields. done. Qed.

Lemma parse_word_dict (w : Word) : parse_word (word_dict w) = Some w.
Proof. destruct w. unfold parse_word. read_fields. done. Qed.

Lemma dec_list_words (ws : list Word) :
  dec_list parse_word (JList (word_dict <$> ws)) = Some ws.
Proof. apply dec_list_enc, parse_word_dict. Qed.

#[local] Hint Resolve parse_metadata_dict dec_list_words dec_list_str : roundtrip.

Lemma parse_transcript_dict (t : TranscriptData) :
  parse_transcript (transcript_dict t) = Some t.
Proof.
  destruct t as [i tx st au c ad ws su]. unfold parse_transcript.
  destruct su as [s|].
  - read_field "id". read_field "text". read_field "status". read_field "audio_url". read_field "confidence".
    read_field "audio_duration". read_field "words".
    erewrite (optional_enc "summary" dec_str JStr _ (Some s)); [|reflexivity|done|done].
    done.
  - read_field "id". read_field "text". read_field "status". read_field "audio_url". read_field "confidence".
    read_field "audio_duration". read_field "words".
    rewrite optional_absent by reflexivity. done.
Qed.

#[local] Hint Resolve parse_transcript_dict : roundtrip.

Lemma parse_job_dict (now : datetime) (j : TranscriptionJob) :
  parse_job now (job_dict j) = Some j.
Proof. destruct j. unfold parse_job. read_fields. done. Qed.

Lemma dec_list_jobs (now : datetime) (js : list TranscriptionJob) :
  dec_list (parse_job now) (JList (job_dict <$> js)) = Some js.
Proof. apply dec_list_enc, parse_job_dict. Qed.

#[local] Hint Resolve dec_list_jobs : roundtrip.

Lemma parse_manifest_dict (now : datetime) (m : TranscriptionManifest) :
  parse_manifest now (manifest_dict m) = Some m.
Proof. destruct m. unfold parse_manifest. read_fields. done. Qed.

(** The statistics are recomputed from the jobs alone. *)
Lemma update_stats_from_jobs now (m : TranscriptionManifest) :
  total_jobs (update_stats now m) = length (jobs m)
  /\ completed_jobs (update_stats now m)
     = length (filter (fun j => status j = COMPLETED) (jobs m))
  /\ failed_jobs (update_stats now m)
     = length (filter (fun j => status j = FAILED) (jobs m))
  /\ total_estimated_cost (update_stats now m) = sum_costs estimated_cost (jobs m)
  /\ total_actual_cost (update_stats now m) = sum_costs actual_cost (jobs m)
  /\ jobs (update_stats now m) = jobs m.
Proof. done. Qed.

(** C9.  Saving a manifest and loading the file again succeeds, and the
    loaded manifest has the same jobs in the same order, each with the same
    status, estimated cost and actual cost; its statistics are those
    computed from the jobs. *)
Theorem manifest_save_load_roundtrip
    (m : TranscriptionManifest) (dir : Path) (fs : FileSystem) (now : datetime) :
  exists fs' loaded,
    save_manifest m dir (Returns ()) fs = (Returns (manifest_path dir), fs')
    /\ load_manifest (manifest_path dir) now fs' = Returns loaded
    /\ length (jobs loaded) = length (jobs m)
    /\ (forall i, status <$> jobs loaded !! i = status <$> jobs m !! i)
    /\ (forall i, estimated_cost <$> jobs loaded !! i = estimated_cost <$> jobs m !! i)
    /\ (forall i, actual_cost <$> jobs loaded !! i = actual_cost <$> jobs m !! i)
    /\ jobs loaded = jobs m
    /\ total_jobs loaded = length (jobs m)
    /\ completed_jobs loaded = length (filter (fun j => status j = COMPLETED) (jobs m))
    /\ failed_jobs loaded = length (filter (fun j => status j = FAILED) (jobs m))
    /\ total_estimated_cost loaded = sum_costs estimated_cost (jobs m)
    /\ total_actual_cost loaded = sum_costs actual_cost (jobs m).
Proof.
  exists (<[manifest_path dir := manifest_dict m]> fs), (update_stats now m).
  split; [done|]. split.
  { unfold load_manifest. rewrite lookup_insert_eq. by rewrite parse_manifest_dict. }
  repeat split.
Qed.

(** The stored statistics are not trusted: whatever totals the document
    carries, the loaded manifest's totals are those of its jobs. *)
Lemma load_manifest_rederives (file : Path) (now : datetime) (fs : FileSystem)
    (loaded : TranscriptionManifest) :
  load_manifest file now fs = Returns loaded ->
  total_jobs loaded = length (jobs loaded)
  /\ completed_jobs loaded = length (filter (fun j => status j = COMPLETED) (jobs loaded))
  /\ failed_jobs loaded = length (filter (fun j => status j = FAILED) (jobs loaded))
  /\ total_estimated_cost loaded = sum_costs estimated_cost (jobs loaded)
  /\ total_actual_cost loaded = sum_costs actual_cost (jobs loaded).
Proof.
  unfold load_manifest. destruct (fs !! file) as [data|]; [|done].
  destruct (parse_manifest now data) as [m|]; [|done]. intros [= <-]. done.
Qed.

(** * One pass of the pipeline *)

Lemma format_loop_spec (formats : list OutputFormats) job env :
  forall success w,
  format_loop formats job env success w
  = (success && forallb (fun f => format_transcript f job env) formats,
     mkWorld (files w)
       (rev ((fun f => Call (FormatTranscript f) job) <$> formats) ++ trace w)
       (ticks w)).
Proof.
  induction formats as [|f rest IH]; intros success w; simpl.
  - rewrite andb_true_r. by destruct w.
  - destruct (format_transcript f job env); rewrite IH; simpl.
    + by rewrite <- app_assoc.
    + rewrite andb_false_r. by rewrite <- app_assoc.
Qed.

Lemma format_job_outputs_spec job options env w :
  _format_job_outputs job options env w
  = (forallb (fun f => format_transcript f job env) (opt_formats options),
     mkWorld (files w)
       (rev ((fun f => Call (FormatTranscript f) job) <$> opt_formats options)
        ++ Call CreateMetaFile job :: trace w)
       (ticks w)).
Proof. unfold _format_job_outputs. by rewrite format_loop_spec. Qed.


Lemma extends_app (P : Event -> Prop) t t' l :
  Forall P l -> extends P t t' -> extends P t (l ++ t').
Proof. induction 1; simpl; [done|]. intros. constructor; auto. Qed.

Lemma extends_trans (P : Event -> Prop) t1 t2 t3 :
  extends P t1 t2 -> extends P t2 t3 -> extends P t1 t3.
Proof. intros H12 H23. induction H23; [done|]. by constructor. Qed.

Lemma extends_impl (P Q : Event -> Prop) t t' :
  (forall e, P e -> Q e) -> extends P t t' -> extends Q t t'.
Proof. intros HPQ. induction 1; constructor; auto. Qed.

Lemma extends_events (P : Event -> Prop) t t' :
  extends P t t' <-> exists evs, t' = evs ++ t /\ Forall P evs.
Proof.
  split.
  - induction 1 as [|e t' He Hext (evs & -> & Hall)].
    + by exists [].
    + exists (e :: evs). split; [done|]. by constructor.
  - intros (evs & -> & Hall). apply extends_app; [done|constructor].
Qed.

Lemma format_events_ok i js j0 job (formats : list OutputFormats) :
  snapshot_ok j0 job ->
  Forall (pass_event i js j0) (rev ((fun f => Call (FormatTranscript f) job) <$> formats)).
Proof.
  intros Hok. apply Forall_rev, Forall_fmap, Forall_forall. intros f _. by constructor.
Qed.

Lemma known_duration_Some j d metadata :
  known_duration j = Some d -> video_metadata j = Some metadata ->
  float_or (duration metadata) 120 = d.
Proof.
  unfold known_duration. intros H Hm. rewrite Hm in H.
  destruct (duration metadata) as [q|]; [|done].
  unfold float_or, truthy_float. destruct (Qeq_bool q 0); [done|]. by injection H as ->.
Qed.

#[local] Arguments known_duration : simpl never.

Ltac crush_snapshot :=
  unfold snapshot_ok, same_identity, reason_consistent, cost_consistent,
    completed_cost_known, fresh;
  cbn;
  repeat match goal with
         | |- _ /\ _ => split
         | |- forall _, _ => intro
         | H : _ /\ _ |- _ => destruct H
         end;
  cbn in *; subst;
  repeat match goal with
         | H : failure_reason ?j = None |- _ => rewrite H in *
         | H : actual_cost ?j = None |- _ => rewrite H in *
         | H : video_metadata ?j = None |- _ => rewrite H in *
         | H : is_Some None |- _ => by apply is_Some_None in H
         | H : Some _ = Some _ |- _ => injection H as H; subst
         end;
  try done; try (by eauto 6);
  try (match goal with
       | H : known_duration _ = Some _ |- _ =>
           erewrite (known_duration_Some _ _ _ H) by reflexivity; reflexivity
       end).

Ltac step_trace :=
  repeat (first [ apply extends_refl
                | apply extends_cons;
                  [ first [ apply pass_call
                          | eapply pass_save; [reflexivity| |reflexivity|reflexivity] ] |]
                | apply extends_app; [apply format_events_ok|] ]).

Ltac finish_pass :=
  eexists; split; [simpl; rewrite ?list_insert_insert_eq; reflexivity|];
  split; [step_trace; crush_snapshot|];
  split; [crush_snapshot|]; simpl; auto.

Section PassFacts.

Variable clock : nat -> datetime.

Lemma pass_spec i options env r j0 :
  jobs (manifest r) !! i = Some j0 ->
  exists job',
    jobs (manifest (_process_single_job clock i options env r))
    = <[i := job']> (jobs (manifest r))
    /\ extends (pass_event i (jobs (manifest r)) j0)
         (LogProcessing j0 :: trace (world r))
         (trace (world (_process_single_job clock i options env r)))
    /\ snapshot_ok j0 job'
    /\ (status job' = COMPLETED \/ status job' = FAILED).
Proof.
  intros Hi. unfold _process_single_job. rewrite Hi.
  destruct env as [md [[dl r1] m1] mk [[cv r2] m2] [[[tr td] r3] m3] wr sv].
  destruct options as [inp out fmts summ deltemp dry cap].
  unfold pipeline.
  cbn [env_metadata env_download env_mkdir env_convert env_transcribe env_save
       opt_delete_temp opt_output_dir].
  destruct dl as [video_path|].
  2:{ unfold fail_and_return, _handle_job_failure, _cleanup_temp_files. cbn.
      destruct r1, md, deltemp; cbn; finish_pass. }
  destruct mk as [[]|e].
  2:{ unfold _handle_job_failure, _cleanup_temp_files. cbn.
      destruct md, deltemp; cbn; finish_pass. }
  destruct cv.
  2:{ unfold fail_and_return, _handle_job_failure, _cleanup_temp_files. cbn.
      destruct r2, md, deltemp; cbn; finish_pass. }
  destruct tr.
  2:{ unfold fail_and_return, _handle_job_failure, _cleanup_temp_files. cbn.
      destruct r3, md, deltemp; cbn; finish_pass. }
  unfold utcnow. cbv beta iota zeta.
  match goal with |- context [known_duration ?j] => destruct (known_duration j) as [d|] eqn:Ekd end.
  all: rewrite format_job_outputs_spec.
  all: match goal with |- context [forallb ?f ?l] => destruct (forallb f l) end.
  all: unfold fail_and_return, save, save_manifest, _handle_job_failure, _cleanup_temp_files.
  all: cbn.
  all: destruct sv as [[]|e], md, deltemp; cbn; finish_pass.
Qed.

End PassFacts.

(** * The batch loop and the budget cutoff *)

(** *** Equality of jobs and [list.index] *)

Lemma float_opt_eqb_refl x : float_opt_eqb x x = true.
Proof. destruct x as [q|]; simpl; [|done]. by apply Qeq_bool_iff. Qed.

Lemma metadata_eqb_refl a : metadata_eqb a a = true.
Proof.
  unfold metadata_eqb. rewrite float_opt_eqb_refl.
  by rewrite !bool_decide_eq_true_2.
Qed.

Lemma word_eqb_refl a : word_eqb a a = true.
Proof.
  unfold word_eqb. rewrite !float_opt_eqb_refl. by rewrite !bool_decide_eq_true_2.
Qed.

Lemma words_eqb_refl l : words_eqb l l = true.
Proof. induction l as [|w l IH]; simpl; [done|]. by rewrite word_eqb_refl, IH. Qed.

Lemma transcript_eqb_refl a : transcript_eqb a a = true.
Proof.
  unfold transcript_eqb. rewrite !float_opt_eqb_refl, words_eqb_refl.
  by rewrite !bool_decide_eq_true_2.
Qed.

Lemma job_eqb_refl j : job_eqb j j = true.
Proof.
  unfold job_eqb. rewrite !float_opt_eqb_refl.
  rewrite !bool_decide_eq_true_2 by done.
  destruct (video_metadata j) as [v|], (transcript_data j) as [t|]; cbn [option_eqb];
    by rewrite ?metadata_eqb_refl, ?transcript_eqb_refl.
Qed.

Lemma job_eqb_id a b : job_eqb a b = true -> id a = id b.
Proof.
  unfold job_eqb. rewrite !andb_true_iff. intros H.
  repeat match type of H with _ /\ _ => destruct H as [H _] end.
  by apply bool_decide_eq_true in H.
Qed.

(** With distinct identifiers, [jobs.index(job)] is the position of the
    job object itself. *)
Lemma py_index_NoDup (js : list TranscriptionJob) (k : nat) (job : TranscriptionJob) :
  NoDup (id <$> js) -> js !! k = Some job -> py_index job js = Some k.
Proof.
  revert k. induction js as [|j js IH]; intros k Hnd Hk; [done|].
  rewrite fmap_cons in Hnd.
  apply NoDup_cons in Hnd as [Hnotin Hnd]. cbn [py_index]. destruct k as [|k]; simpl in Hk.
  - injection Hk as ->. by rewrite job_eqb_refl.
  - destruct (job_eqb j job) eqn:E.
    + exfalso. apply Hnotin. apply job_eqb_id in E. rewrite E.
      apply list_elem_of_fmap. exists job. split; [done|]. by eapply list_elem_of_lookup_2.
    + by rewrite (IH k).
Qed.

(** *** Job identifiers *)

Lemma of_uint_pad3 d : Nat.of_uint (pad3 d) = Nat.of_uint d.
Proof.
  unfold pad3. induction (3 - Decimal.nb_digits d)%nat as [|n IH]; [done|].
  simpl. rewrite <- IH. reflexivity.
Qed.

Lemma format_03d_inj i j : format_03d i = format_03d j -> i = j.
Proof.
  unfold format_03d. intros H.
  apply (f_equal NilEmpty.uint_of_string) in H. rewrite !NilEmpty.usu in H.
  injection H as H. apply (f_equal Nat.of_uint) in H.
  by rewrite !of_uint_pad3, !DecimalNat.Unsigned.of_to in H.
Qed.

Lemma string_app_inv_head (p a b : string) : p +:+ a = p +:+ b -> a = b.
Proof. induction p as [|c p IH]; simpl; [done|]. intros [= H]. auto. Qed.

Lemma job_id_of_inj batch i j : job_id_of batch i = job_id_of batch j -> i = j.
Proof.
  unfold job_id_of. intros H. apply string_app_inv_head in H.
  apply string_app_inv_head in H. by apply format_03d_inj.
Qed.

(** *** The manifest a batch starts from *)

Section BatchFacts.

Variable config : Config.
Variable clock : nat -> datetime.

Lemma populate_loop_spec batch (urls : list string) :
  forall i js w,
  populate_loop clock batch i urls js w
  = (js ++ imap (fun k u => new_job (job_id_of batch (i + k)) u (clock (ticks w + k))) urls,
     mkWorld (files w) (trace w) (ticks w + length urls)).
Proof.
  induction urls as [|u urls IH]; intros i js w; simpl.
  - rewrite app_nil_r, Nat.add_0_r. by destruct w.
  - rewrite IH. simpl. rewrite <- app_assoc. simpl. f_equal.
    + f_equal. rewrite !Nat.add_0_r. f_equal. apply imap_ext. intros k u' _. simpl.
      f_equal; [f_equal; lia|f_equal; lia].
    + f_equal. lia.
Qed.

Lemma imap_new_job_ids batch (urls : list string) (t : nat -> datetime) :
  NoDup (id <$> imap (fun k u => new_job (job_id_of batch (1 + k)) u (t k)) urls).
Proof.
  apply NoDup_alt. intros a b s Ha Hb.
  rewrite !list_lookup_fmap, !list_lookup_imap in Ha, Hb.
  destruct (urls !! a) as [ua|]; [|done]. destruct (urls !! b) as [ub|]; [|done].
  simpl in Ha, Hb. injection Ha as Ha. injection Hb as Hb. rewrite <- Hb in Ha.
  apply job_id_of_inj in Ha. lia.
Qed.

Lemma imap_new_job_pristine batch (urls : list string) (t : nat -> datetime) :
  Forall pristine (imap (fun k u => new_job (job_id_of batch (1 + k)) u (t k)) urls).
Proof.
  apply Forall_forall. intros j Hj. apply list_elem_of_lookup in Hj as [k Hk].
  rewrite list_lookup_imap in Hk. destruct (urls !! k) as [u|]; [|done].
  injection Hk as <-. by eexists _, _, _.
Qed.

Lemma batch_entry_spec options env w r0 :
  batch_entry config clock options env w = Some r0 ->
  NoDup (id <$> jobs (manifest r0))
  /\ Forall pristine (jobs (manifest r0))
  /\ jobs (manifest r0) <> []
  /\ budget_cap (manifest r0) = float_or (opt_budget_cap options) (cap_budget_usd config)
  /\ trace (world r0) = SaveManifest (manifest r0) true :: trace w
  /\ opt_dry_run options = false.
Proof.
  unfold batch_entry.
  destruct (load_urls_from_file (be_input env)) as [[[|u urls] log]|e]; try done.
  unfold create_manifest, populate_jobs, utcnow. cbn [manifest_id jobs ticks files trace].
  rewrite populate_loop_spec. cbn [ticks files trace].
  destruct (be_mkdir env) as [[]|e]; [|done].
  unfold save, save_manifest. destruct (be_first_save env) as [[]|e]; [|done].
  cbn [files trace ticks]. destruct (opt_dry_run options); [done|].
  intros [= <-]. cbn [manifest world jobs update_stats set_jobs budget_cap trace].
  split; [exact (imap_new_job_ids (be_batch_id env) (u :: urls)
                  (fun k => clock (S (S (ticks w + k)))))|].
  split; [exact (imap_new_job_pristine (be_batch_id env) (u :: urls)
                  (fun k => clock (S (S (ticks w + k)))))|].
  done.
Qed.

Lemma process_batch_from_entry options env w r0 :
  batch_entry config clock options env w = Some r0 ->
  process_batch config clock options env w
  = batch_exit clock options env
      (batch_loop clock options (be_jobs env) (seq 0 (length (jobs (manifest r0)))) r0).
Proof.
  unfold batch_entry, process_batch.
  destruct (load_urls_from_file (be_input env)) as [[[|u urls] log]|e]; try done.
  destruct (create_manifest _ _ _ _ _ _ _ _) as [m w1].
  destruct (populate_jobs _ _ _ _) as [m2 w2].
  destruct (be_mkdir env) as [[]|e]; [|done].
  destruct (save _ _ _ _) as [[p|e] w3]; [|done].
  destruct (opt_dry_run options); [done|]. intros [= <-]. cbn [manifest].
  unfold batch_exit. by destruct (batch_loop _ _ _ _ _) as [[[]|e] r].
Qed.

End BatchFacts.

(** *** One pass, seen from the manifest *)

Section LoopFacts.

Variable clock : nat -> datetime.

Lemma pristine_fresh j :
  pristine j -> fresh j /\ actual_cost j = None /\ video_metadata j = None.
Proof. by intros (a & b & c & ->). Qed.

Lemma pristine_consistent j : pristine j -> consistent j.
Proof.
  intros (a & b & c & ->). split; [|split].
  - repeat split; intros; done.
  - intros H. by apply is_Some_None in H.
  - by intros H.
Qed.

Lemma pass_invalid i options env r :
  jobs (manifest r) !! i = None -> _process_single_job clock i options env r = r.
Proof. unfold _process_single_job. by intros ->. Qed.

Lemma pass_event_about i js j0 e job_id :
  pass_event i js j0 e -> event_about job_id e -> job_id = id j0.
Proof.
  intros [|k j Hok|m b j _ _ _ _]; simpl; [done| |done].
  destruct Hok as ((Hid & _) & _). by intros <-.
Qed.

Lemma pass_event_consistent i js j0 e :
  Forall consistent js -> fresh j0 -> actual_cost j0 = None -> video_metadata j0 = None ->
  consistent j0 ->
  pass_event i js j0 e -> shows_consistent e.
Proof.
  intros Hjs Hf Hc Hv Hj0 [|k j Hok|m b j Hm Hok _ _]; unfold shows_consistent; simpl.
  - by apply Forall_singleton.
  - destruct Hok as (_ & Hr & Hco & Hcc). apply Forall_singleton. split; [auto|split; auto].
  - rewrite Hm. destruct Hok as (_ & Hr & Hco & Hcc).
    apply Forall_insert; [done|]. split; [auto|split; auto].
Qed.

Lemma after_jobs_S options envs k r :
  after_jobs clock options envs (S k) r
  = _process_single_job clock k options (envs k) (after_jobs clock options envs k r).
Proof. unfold after_jobs. by rewrite seq_S, foldl_app. Qed.

Lemma after_jobs_spec options envs r0 k :
  (k <= length (jobs (manifest r0)))%nat ->
  NoDup (id <$> jobs (manifest r0)) ->
  let r := after_jobs clock options envs k r0 in
  id <$> jobs (manifest r) = id <$> jobs (manifest r0)
  /\ (forall j, (k <= j)%nat -> jobs (manifest r) !! j = jobs (manifest r0) !! j)
  /\ extends (silent_from k (jobs (manifest r0))) (trace (world r0)) (trace (world r))
  /\ (Forall pristine (jobs (manifest r0)) ->
      Forall consistent (jobs (manifest r))
      /\ extends shows_consistent (trace (world r0)) (trace (world r))).
Proof.
  intros Hk Hnd. induction k as [|k IH]; simpl.
  - split; [done|]. split; [done|]. split; [constructor|].
    intros Hp. split; [|constructor].
    eapply Forall_impl; [exact Hp|]. apply pristine_consistent.
  - rewrite after_jobs_S. destruct IH as (Hids & Hlater & Hsilent & Hinv); [lia|].
    set (r := after_jobs clock options envs k r0) in *.
    destruct (lookup_lt_is_Some_2 (jobs (manifest r0)) k) as [j0 Hj0]; [lia|].
    assert (Hrk : jobs (manifest r) !! k = Some j0) by (by rewrite Hlater).
    destruct (pass_spec clock k options (envs k) r j0 Hrk) as (job' & Hjobs & Hext & Hok & _).
    assert (Hext' : extends (pass_event k (jobs (manifest r)) j0)
                      (trace (world r))
                      (trace (world (_process_single_job clock k options (envs k) r)))).
    { eapply extends_trans; [|exact Hext]. constructor; constructor. }
    split; [|split; [|split]].
    + rewrite Hjobs, list_fmap_insert. destruct Hok as ((-> & _) & _).
      rewrite <- Hids. apply list_insert_id. by rewrite list_lookup_fmap, Hrk.
    + intros j Hj. rewrite Hjobs, list_lookup_insert_ne by lia. apply Hlater. lia.
    + eapply extends_trans.
      * eapply extends_impl; [|exact Hsilent].
        intros e He j job Hj. apply He. lia.
      * eapply extends_impl; [|exact Hext'].
        intros e He j job Hj Hjob Habout.
        apply (pass_event_about _ _ _ _ _ He) in Habout.
        assert (j = k); [|lia].
        eapply NoDup_lookup; [exact Hnd| |].
        -- by rewrite list_lookup_fmap, Hjob.
        -- by rewrite list_lookup_fmap, Hj0, Habout.
    + intros Hp. destruct (Hinv Hp) as [Hcons Hshow].
      assert (Hpj : pristine j0).
      { rewrite Forall_forall in Hp. apply Hp. by eapply list_elem_of_lookup_2. }
      destruct (pristine_fresh _ Hpj) as (Hf & Hc & Hv).
      split.
      * rewrite Hjobs. apply Forall_insert; [done|].
        destruct Hok as (_ & Hr & Hco & Hcc). split; [auto|split; auto].
      * eapply extends_trans; [exact Hshow|].
        eapply extends_impl; [|exact Hext'].
        intros e. apply pass_event_consistent; auto. by apply pristine_consistent.
Qed.

End LoopFacts.

Section CutoffFacts.

Variable config : Config.
Variable clock : nat -> datetime.

Lemma batch_loop_prefix options envs cap r0 n k :
  opt_budget_cap options = Some cap -> (k <= n)%nat ->
  (forall k', (k' < k)%nat ->
     budget_reached cap (after_jobs clock options envs k' r0) = false) ->
  batch_loop clock options envs (seq 0 n) r0
  = batch_loop clock options envs (seq k (n - k)) (after_jobs clock options envs k r0).
Proof.
  intros Hcap Hk Hno. induction k as [|k IH].
  - by rewrite Nat.sub_0_r.
  - rewrite IH by (try lia; intros; apply Hno; lia).
    replace (n - k)%nat with (S (n - S k)) by lia. cbn [seq batch_loop].
    rewrite Hcap. specialize (Hno k ltac:(lia)). unfold budget_reached in Hno.
    rewrite Hno. by rewrite after_jobs_S.
Qed.

Lemma batch_loop_all options envs cap r0 :
  opt_budget_cap options = Some cap ->
  (forall k', (k' < length (jobs (manifest r0)))%nat ->
     budget_reached cap (after_jobs clock options envs k' r0) = false) ->
  batch_loop clock options envs (seq 0 (length (jobs (manifest r0)))) r0
  = (Returns (), after_jobs clock options envs (length (jobs (manifest r0))) r0).
Proof.
  intros Hcap Hno.
  rewrite (batch_loop_prefix options envs cap r0 _ (length (jobs (manifest r0)))) by auto.
  by rewrite Nat.sub_diag.
Qed.

Lemma batch_loop_cut options envs cap r k rest job :
  opt_budget_cap options = Some cap -> budget_reached cap r = true ->
  jobs (manifest r) !! k = Some job -> NoDup (id <$> jobs (manifest r)) ->
  batch_loop clock options envs (k :: rest) r
  = (Returns (),
     mkRun (set_jobs (take k (jobs (manifest r))
                      ++ (skip_if_pending <$> drop k (jobs (manifest r))))
              (manifest r))
       (world r)).
Proof.
  intros Hcap Hreach Hk Hnd. cbn [batch_loop]. rewrite Hcap.
  unfold budget_reached in Hreach. rewrite Hreach, Hk.
  unfold _mark_remaining_jobs_skipped. by rewrite (py_index_NoDup _ k) by done.
Qed.

(** Either no job finds the cap reached, or there is a first one that does. *)
Lemma first_cut (reached : nat -> bool) (n : nat) :
  (forall k, (k < n)%nat -> reached k = false)
  \/ exists k, (k < n)%nat /\ reached k = true
       /\ forall k', (k' < k)%nat -> reached k' = false.
Proof.
  induction n as [|n [Hno|(k & Hk & Hr & Hfirst)]].
  - left. intros k Hk. lia.
  - destruct (reached n) eqn:E.
    + right. exists n. split; [lia|]. split; [done|]. intros k' Hk'. apply Hno. lia.
    + left. intros k Hk. destruct (decide (k = n)) as [->|]; [done|]. apply Hno. lia.
  - right. exists k. split; [lia|]. done.
Qed.

Lemma skip_if_pending_pristine j :
  pristine j ->
  status (skip_if_pending j) = SKIPPED
  /\ failure_reason (skip_if_pending j) = Some BUDGET_EXCEEDED
  /\ consistent (skip_if_pending j).
Proof.
  intros (a & b & c & ->). split; [done|]. split; [done|]. split; [|split].
  - repeat split; intros; done.
  - intros H. by apply is_Some_None in H.
  - by intros H.
Qed.

Lemma skip_if_pending_spec j :
  (status j = PENDING ->
     status (skip_if_pending j) = SKIPPED
     /\ failure_reason (skip_if_pending j) = Some BUDGET_EXCEEDED)
  /\ (status j <> PENDING -> skip_if_pending j = j).
Proof.
  unfold skip_if_pending. split.
  - intros H. by rewrite bool_decide_eq_true_2.
  - intros H. by rewrite bool_decide_eq_false_2.
Qed.

(** C1.  In a batch run whose accumulated actual cost first reaches the cap
    before the job at position [k], the loop stops there: nothing more is
    done for any job from [k] on (no event is about them, the world is that
    of the cutoff), each of them is SKIPPED with reason budget_exceeded, a
    job that is not PENDING is left as it is, and so are the jobs before
    [k]. *)
Theorem budget_cutoff_skips_pending_jobs options env w r0 cap k :
  batch_entry config clock options env w = Some r0 ->
  opt_budget_cap options = Some cap ->
  (k < length (jobs (manifest r0)))%nat ->
  (forall k', (k' < k)%nat ->
     budget_reached cap (after_jobs clock options (be_jobs env) k' r0) = false) ->
  budget_reached cap (after_jobs clock options (be_jobs env) k r0) = true ->
  let before := after_jobs clock options (be_jobs env) k r0 in
  exists rf,
    batch_loop clock options (be_jobs env) (seq 0 (length (jobs (manifest r0)))) r0
    = (Returns (), rf)
    /\ process_batch config clock options env w
       = batch_exit clock options env (Returns (), rf)
    /\ world rf = world before
    /\ extends (silent_from k (jobs (manifest r0))) (trace (world r0)) (trace (world rf))
    /\ (forall j job, (k <= j)%nat -> jobs (manifest r0) !! j = Some job ->
          exists job', jobs (manifest rf) !! j = Some job'
            /\ id job' = id job
            /\ status job' = SKIPPED
            /\ failure_reason job' = Some BUDGET_EXCEEDED)
    /\ (forall j job, (k <= j)%nat -> jobs (manifest before) !! j = Some job ->
          jobs (manifest rf) !! j = Some (skip_if_pending job)
          /\ (status job = PENDING -> status (skip_if_pending job) = SKIPPED
                /\ failure_reason (skip_if_pending job) = Some BUDGET_EXCEEDED)
          /\ (status job <> PENDING -> skip_if_pending job = job))
    /\ (forall j, (j < k)%nat ->
          jobs (manifest rf) !! j = jobs (manifest before) !! j).
Proof.
  intros Hentry Hcap Hk Hno Hcut before.
  destruct (batch_entry_spec config clock options env w r0 Hentry)
    as (Hnd & Hprist & _ & _ & _ & _).
  destruct (after_jobs_spec clock options (be_jobs env) r0 k ltac:(lia) Hnd)
    as (Hids & Hlater & Hsilent & _).
  fold before in Hids, Hlater, Hsilent.
  destruct (lookup_lt_is_Some_2 (jobs (manifest r0)) k) as [jk Hjk]; [lia|].
  assert (Hbk : jobs (manifest before) !! k = Some jk) by (by rewrite Hlater).
  assert (Hndb : NoDup (id <$> jobs (manifest before))) by (by rewrite Hids).
  assert (Hlen : length (jobs (manifest before)) = length (jobs (manifest r0))).
  { by rewrite <- (length_fmap id), Hids, length_fmap. }
  eexists. split.
  { rewrite (batch_loop_prefix options (be_jobs env) cap r0 _ k Hcap) by (lia || done).
    replace (length (jobs (manifest r0)) - k)%nat
      with (S (length (jobs (manifest r0)) - S k)) by lia.
    cbn [seq]. by apply (batch_loop_cut options _ cap before k _ jk). }
  split.
  { rewrite (process_batch_from_entry config clock options env w r0 Hentry).
    rewrite (batch_loop_prefix options (be_jobs env) cap r0 _ k Hcap) by (lia || done).
    replace (length (jobs (manifest r0)) - k)%nat
      with (S (length (jobs (manifest r0)) - S k)) by lia.
    cbn [seq]. by rewrite (batch_loop_cut options _ cap before k _ jk). }
  cbn [manifest world jobs set_jobs].
  assert (Hat : forall j job, (k <= j)%nat -> jobs (manifest before) !! j = Some job ->
            (take k (jobs (manifest before))
             ++ (skip_if_pending <$> drop k (jobs (manifest before)))) !! j
            = Some (skip_if_pending job)).
  { intros j job Hj Hjob.
    rewrite lookup_app_r by (rewrite length_take; lia).
    rewrite length_take, list_lookup_fmap, lookup_drop.
    replace (k + (j - k `min` length (jobs (manifest before))))%nat with j by lia.
    by rewrite Hjob. }
  split; [done|]. split; [done|]. split; [|split].
  - intros j job Hj Hjob. exists (skip_if_pending job).
    split; [apply Hat; [done|by rewrite Hlater]|].
    assert (Hp : pristine job).
    { rewrite Forall_forall in Hprist. apply Hprist. by eapply list_elem_of_lookup_2. }
    destruct Hp as (a & b & c & ->). done.
  - intros j job Hj Hjob. split; [by apply Hat|]. apply skip_if_pending_spec.
  - intros j Hj. rewrite lookup_app_l by (rewrite length_take; lia).
    by rewrite lookup_take_lt.
Qed.

End CutoffFacts.

Lemma budget_cutoff_skips_pending_jobs_witness :
  exists r0,
    batch_entry demo_config demo_clock (demo_options [TXT; JSON] (Some (1 # 100)))
      (demo_batch (fun _ => ok_env)) empty_world = Some r0
    /\ (1 < length (jobs (manifest r0)))%nat
    /\ budget_reached (1 # 100)
         (after_jobs demo_clock (demo_options [TXT; JSON] (Some (1 # 100)))
            (fun _ => ok_env) 0 r0) = false
    /\ budget_reached (1 # 100)
         (after_jobs demo_clock (demo_options [TXT; JSON] (Some (1 # 100)))
            (fun _ => ok_env) 1 r0) = true
    /\ exists rf,
         batch_loop demo_clock (demo_options [TXT; JSON] (Some (1 # 100)))
           (fun _ => ok_env) (seq 0 (length (jobs (manifest r0)))) r0
         = (Returns (), rf)
         /\ (status <$> jobs (manifest rf)) = [COMPLETED; SKIPPED; SKIPPED].
Proof.
  let v := eval vm_compute in
    (batch_entry demo_config demo_clock (demo_options [TXT; JSON] (Some (1 # 100)))
       (demo_batch (fun _ => ok_env)) empty_world) in
  match v with Some ?r => pose (r0 := r) end.
  exists r0. split; [vm_compute; reflexivity|].
  split; [vm_compute; lia|]. split; [vm_compute; reflexivity|].
  split; [vm_compute; reflexivity|].
  destruct (budget_cutoff_skips_pending_jobs demo_config demo_clock
              (demo_options [TXT; JSON] (Some (1 # 100)))
              (demo_batch (fun _ => ok_env)) empty_world r0 (1 # 100) 1%nat)
    as (rf & Hloop & _).
  - vm_compute; reflexivity.
  - reflexivity.
  - vm_compute; lia.
  - intros k' Hk'. assert (k' = 0)%nat as -> by lia. vm_compute; reflexivity.
  - vm_compute; reflexivity.
  - exists rf. split; [exact Hloop|].
    vm_compute in Hloop. injection Hloop as <-. vm_compute. reflexivity.
Defined.

(** * The budget cap and the consistency of a batch run *)

Section BudgetCapFacts.

Variable config : Config.
Variable clock : nat -> datetime.

Lemma batch_entry_None_raises options env w :
  batch_entry config clock options env w = None -> opt_dry_run options = false ->
  exists e, (process_batch config clock options env w).1 = Raises e.
Proof.
  unfold batch_entry, process_batch. intros Hentry Hdry.
  destruct (load_urls_from_file (be_input env)) as [[[|u urls] log]|e]; [by eexists| |by eexists].
  destruct (create_manifest _ _ _ _ _ _ _ _) as [m w1].
  destruct (populate_jobs _ _ _ _) as [m2 w2].
  destruct (be_mkdir env) as [[]|e]; [|by eexists].
  destruct (save _ _ _ _) as [[p|e] w3]; [|by eexists].
  by rewrite Hdry in Hentry.
Qed.

(** C10.  A batch that is not a dry run and whose options leave the budget
    cap at None raises: once the manifest has been created (with the
    configured cap in its own field), populated and saved, the comparison
    before the first job raises a TypeError, with every job still as
    created. *)
Theorem process_batch_aborts_without_budget_cap options env w :
  opt_budget_cap options = None ->
  opt_dry_run options = false ->
  (exists e, (process_batch config clock options env w).1 = Raises e)
  /\ (forall r0,
        batch_entry config clock options env w = Some r0 ->
        process_batch config clock options env w
        = (Raises (TypeError "'>=' not supported between instances of 'int' and 'NoneType'"),
           world r0)
        /\ budget_cap (manifest r0) = cap_budget_usd config
        /\ trace (world r0) = SaveManifest (manifest r0) true :: trace w
        /\ Forall pristine (jobs (manifest r0))).
Proof.
  intros Hcap Hdry.
  assert (Hmain : forall r0,
        batch_entry config clock options env w = Some r0 ->
        process_batch config clock options env w
        = (Raises (TypeError "'>=' not supported between instances of 'int' and 'NoneType'"),
           world r0)
        /\ budget_cap (manifest r0) = cap_budget_usd config
        /\ trace (world r0) = SaveManifest (manifest r0) true :: trace w
        /\ Forall pristine (jobs (manifest r0))).
  { intros r0 Hentry.
    destruct (batch_entry_spec config clock options env w r0 Hentry)
      as (_ & Hprist & Hne & Hbudget & Htrace & _).
    rewrite (process_batch_from_entry config clock options env w r0 Hentry).
    destruct (jobs (manifest r0)) as [|j js] eqn:Ejobs; [done|].
    cbn [length seq batch_loop]. rewrite Hcap. cbn [batch_exit].
    split; [done|]. split; [|done]. rewrite Hbudget, Hcap. done. }
  split; [|exact Hmain].
  destruct (batch_entry config clock options env w) as [r0|] eqn:Hentry.
  - destruct (Hmain r0 eq_refl) as (-> & _). by eexists.
  - by apply batch_entry_None_raises.
Qed.

End BudgetCapFacts.

Lemma process_batch_aborts_without_budget_cap_witness :
  exists r0,
    batch_entry demo_config demo_clock (demo_options [TXT] None)
      (demo_batch (fun _ => ok_env)) empty_world = Some r0
    /\ opt_budget_cap (demo_options [TXT] None) = None
    /\ opt_dry_run (demo_options [TXT] None) = false
    /\ process_batch demo_config demo_clock (demo_options [TXT] None)
         (demo_batch (fun _ => ok_env)) empty_world
       = (Raises (TypeError "'>=' not supported between instances of 'int' and 'NoneType'"),
          world r0)
    /\ budget_cap (manifest r0) = 20%Q.
Proof.
  let v := eval vm_compute in
    (batch_entry demo_config demo_clock (demo_options [TXT] None)
       (demo_batch (fun _ => ok_env)) empty_world) in
  match v with Some ?r => pose (r0 := r) end.
  exists r0. split; [vm_compute; reflexivity|]. split; [reflexivity|].
  split; [reflexivity|].
  destruct (process_batch_aborts_without_budget_cap demo_config demo_clock
              (demo_options [TXT] None) (demo_batch (fun _ => ok_env)) empty_world)
    as (_ & Hmain); [reflexivity|reflexivity|].
  destruct (Hmain r0) as (Hraise & Hcap & _); [vm_compute; reflexivity|].
  split; [exact Hraise|exact Hcap].
Defined.

(** *** What is seen of the jobs during a batch run *)

Lemma idle_consistent j : idle j -> consistent j.
Proof.
  intros (Hs & Hr & Hc). split; [|split].
  - unfold reason_consistent. rewrite Hs, Hr. repeat split; intros; done.
  - unfold cost_consistent. rewrite Hc. intros H. by apply is_Some_None in H.
  - unfold completed_cost_known. rewrite Hs. by intros H.
Qed.

Lemma pristine_idle j : pristine j -> idle j.
Proof. by intros (a & b & c & ->). Qed.

Lemma shows_impl (P Q : TranscriptionJob -> Prop) e :
  (forall j, P j -> Q j) -> shows P e -> shows Q e.
Proof. intros HPQ H. unfold shows in *. eapply Forall_impl; [exact H|exact HPQ]. Qed.

Lemma consistent_skip_if_pending j : consistent j -> consistent (skip_if_pending j).
Proof.
  intros (Hr & Hc & Hk). unfold skip_if_pending. case_bool_decide as Hs; [|done].
  split; [|split].
  - repeat split; intros; done.
  - unfold cost_consistent in *. cbn. rewrite Hs in Hc. intros H.
    destruct (Hc H) as [?|[?|[? _]]]; done.
  - by intros H.
Qed.

Section BatchConsistency.

Variable config : Config.
Variable clock : nat -> datetime.

Lemma dry_run_loop_spec envs idxs :
  forall r, Forall idle (jobs (manifest r)) ->
  Forall idle (jobs (manifest (dry_run_loop envs idxs r)))
  /\ extends (shows idle) (trace (world r)) (trace (world (dry_run_loop envs idxs r))).
Proof.
  induction idxs as [|i idxs IH]; intros r Hidle; simpl.
  - split; [done|constructor].
  - destruct (jobs (manifest r) !! i) as [job|] eqn:Ei; [|by apply IH].
    assert (Hjob : idle job).
    { rewrite Forall_forall in Hidle. apply Hidle. by eapply list_elem_of_lookup_2. }
    match goal with |- context [dry_run_loop envs idxs ?r'] => destruct (IH r') as [H1 H2] end.
    { cbn. apply Forall_insert; [done|]. destruct Hjob as (Hs & Hr & Hc).
      destruct (env_metadata (envs i)); repeat split; done. }
    split; [done|]. eapply extends_trans; [|exact H2]. cbn.
    constructor; [|constructor]. by apply Forall_singleton.
Qed.

Lemma save_trace m dir io w :
  trace (save m dir io w).2
  = SaveManifest m (match io with Returns _ => true | Raises _ => false end) :: trace w.
Proof. unfold save, save_manifest. by destruct io. Qed.

Lemma batch_exit_consistent options env res r :
  Forall consistent (jobs (manifest r)) ->
  let out := batch_exit clock options env (res, r) in
  extends shows_consistent (trace (world r)) (trace out.2)
  /\ (forall m, out.1 = Returns m -> Forall consistent (jobs m)).
Proof.
  intros Hcons. unfold batch_exit. destruct res as [[]|e]; cbn.
  2:{ split; [constructor|done]. }
  pose proof (save_trace (update_stats (clock (ticks (world r))) (manifest r))
                (opt_output_dir options) (be_last_save env)
                (mkWorld (files (world r)) (trace (world r)) (S (ticks (world r))))) as Ht.
  destruct (save _ _ _ _) as [[p|e] w']; cbn in *; rewrite Ht.
  - split; [constructor; [done|constructor]|]. by intros m [= <-].
  - split; [constructor; [done|constructor]|]. done.
Qed.

Lemma process_batch_consistent options env w :
  let out := process_batch config clock options env w in
  extends shows_consistent (trace w) (trace out.2)
  /\ (forall m, out.1 = Returns m -> Forall consistent (jobs m)).
Proof.
  destruct (batch_entry config clock options env w) as [r0|] eqn:Hentry.
  - rewrite (process_batch_from_entry config clock options env w r0 Hentry).
    destruct (batch_entry_spec config clock options env w r0 Hentry)
      as (Hnd & Hprist & Hne & _ & Htrace & _).
    set (n := length (jobs (manifest r0))).
    assert (Hstart : extends shows_consistent (trace w) (trace (world r0))).
    { rewrite Htrace. constructor; [|constructor].
      eapply Forall_impl; [exact Hprist|]. apply pristine_consistent. }
    assert (Hloop : exists res rf,
               batch_loop clock options (be_jobs env) (seq 0 n) r0 = (res, rf)
               /\ Forall consistent (jobs (manifest rf))
               /\ extends shows_consistent (trace (world r0)) (trace (world rf))).
    { destruct (opt_budget_cap options) as [cap|] eqn:Hcap.
      2:{ destruct (jobs (manifest r0)) as [|j js] eqn:Ejobs; [done|].
          subst n. cbn [length seq batch_loop]. rewrite Hcap. eexists _, _. split; [done|].
          split; [|constructor]. rewrite Ejobs.
          eapply Forall_impl; [exact Hprist|]. apply pristine_consistent. }
      destruct (first_cut
                  (fun k => budget_reached cap (after_jobs clock options (be_jobs env) k r0)) n)
        as [Hno|(k & Hk & Hcut & Hno)].
      - subst n. rewrite (batch_loop_all clock options (be_jobs env) cap r0 Hcap Hno).
        eexists _, _. split; [done|].
        destruct (after_jobs_spec clock options (be_jobs env) r0
                    (length (jobs (manifest r0))) ltac:(lia) Hnd) as (_ & _ & _ & Hinv).
        by apply Hinv.
      - set (before := after_jobs clock options (be_jobs env) k r0) in *.
        destruct (after_jobs_spec clock options (be_jobs env) r0 k ltac:(lia) Hnd)
          as (Hids & Hlater & _ & Hinv).
        fold before in Hids, Hlater, Hinv.
        destruct (Hinv Hprist) as [Hcons Hshow].
        destruct (lookup_lt_is_Some_2 (jobs (manifest r0)) k) as [jk Hjk]; [done|].
        rewrite (batch_loop_prefix clock options (be_jobs env) cap r0 n k Hcap)
          by (lia || done).
        replace (n - k)%nat with (S (n - S k)) by lia. cbn [seq].
        rewrite (batch_loop_cut clock options (be_jobs env) cap before k _ jk);
          [|done|done|by rewrite Hlater|by rewrite Hids].
        eexists _, _. split; [done|]. cbn [manifest world jobs set_jobs].
        split; [|done]. apply Forall_app. split.
        + by apply Forall_take.
        + apply Forall_fmap. eapply Forall_impl; [by apply Forall_drop|].
          apply consistent_skip_if_pending. }
    destruct Hloop as (res & rf & -> & Hcons & Hshow).
    destruct (batch_exit_consistent options env res rf Hcons) as [Hexit Hret].
    split; [|exact Hret].
    eapply extends_trans; [exact Hstart|]. eapply extends_trans; [exact Hshow|exact Hexit].
  - unfold batch_entry in Hentry. unfold process_batch.
    destruct (load_urls_from_file (be_input env)) as [[[|u urls] log]|e];
      [split; [constructor|done]| |split; [constructor|done]].
    unfold create_manifest, populate_jobs, utcnow in *.
    cbn [manifest_id jobs ticks files trace] in *.
    rewrite populate_loop_spec in *. cbn [ticks files trace] in *.
    destruct (be_mkdir env) as [[]|e]; [|split; [constructor|done]].
    match goal with |- context [save ?m ?d ?io ?w0] =>
      pose proof (save_trace m d io w0) as Ht;
      assert (Hm : Forall idle (jobs m));
      [| destruct (save m d io w0) as [[p|e] w3] eqn:Esave ]
    end.
    { cbn [jobs update_stats set_jobs]. eapply Forall_impl; [|apply pristine_idle].
      exact (imap_new_job_pristine (be_batch_id env) (u :: urls)
               (fun k => clock (S (S (ticks w + k))))). }
    2:{ cbn in *. rewrite Ht. split; [|done]. constructor; [|constructor].
        eapply Forall_impl; [exact Hm|]. apply idle_consistent. }
    destruct (opt_dry_run options); [|done].
    match goal with |- context [_perform_dry_run ?c ?envs ?r] =>
      destruct (dry_run_loop_spec envs (seq 0 (length (jobs (manifest r)))) r) as [Hd1 Hd2]
    end; [done|].
    unfold _perform_dry_run, utcnow. cbn in *. rewrite Ht in Hd2. split.
    + eapply extends_trans; [|eapply extends_impl; [|exact Hd2]].
      * constructor; [|constructor]. eapply Forall_impl; [exact Hm|]. apply idle_consistent.
      * intros e. apply shows_impl, idle_consistent.
    + intros m [= <-]. cbn. eapply Forall_impl; [exact Hd1|]. apply idle_consistent.
Qed.

End BatchConsistency.

(** * Retrying failed jobs *)

Section RetryFacts.

Variable config : Config.
Variable clock : nat -> datetime.

Lemma reset_for_retry_fresh j : fresh (reset_for_retry j).
Proof. done. Qed.

(** One turn of the retry loop, seen from the manifest. *)
Lemma retry_step_spec options envs r i j :
  jobs (manifest r) !! i = Some j ->
  let r' := retry_step clock options envs r i in
  exists job' evs,
    jobs (manifest r') = <[i := job']> (jobs (manifest r))
    /\ trace (world r') = evs ++ LogProcessing (reset_for_retry j) :: trace (world r)
    /\ Forall (pass_event i (<[i := reset_for_retry j]> (jobs (manifest r)))
                 (reset_for_retry j)) evs
    /\ snapshot_ok (reset_for_retry j) job'
    /\ (status job' = COMPLETED \/ status job' = FAILED).
Proof.
  intros Hi r'. subst r'. unfold retry_step.
  set (r1 := mkRun _ _).
  assert (Hjobs1 : jobs (manifest r1) = <[i := reset_for_retry j]> (jobs (manifest r))).
  { subst r1. cbn. apply list_eq. intros k. destruct (decide (k = i)) as [->|Hne].
    - rewrite list_lookup_alter_eq, Hi. cbn.
      by rewrite list_lookup_insert_eq by (by eapply lookup_lt_Some).
    - by rewrite list_lookup_alter_ne, list_lookup_insert_ne. }
  assert (Hi1 : jobs (manifest r1) !! i = Some (reset_for_retry j)).
  { rewrite Hjobs1. apply list_lookup_insert_eq. by eapply lookup_lt_Some. }
  destruct (pass_spec clock i options (envs i) r1 _ Hi1) as (job' & Hj & Hext & Hok & Hterm).
  apply extends_events in Hext as (evs & Hevs & Hall).
  exists job', evs. split; [|split; [|split]].
  - rewrite Hj, Hjobs1. by rewrite list_insert_insert_eq.
  - exact Hevs.
  - by rewrite <- Hjobs1.
  - done.
Qed.


Lemma distinct_ids (js : list TranscriptionJob) i i' j j' :
  NoDup (id <$> js) -> js !! i = Some j -> js !! i' = Some j' -> i <> i' -> id j <> id j'.
Proof.
  intros Hnd Hi Hi' Hne Heq. apply Hne.
  eapply NoDup_lookup; [exact Hnd| |].
  - by rewrite list_lookup_fmap, Hi.
  - by rewrite list_lookup_fmap, Hi', Heq.
Qed.

Lemma retry_loop_spec budget options envs (L : list (nat * TranscriptionJob)) :
  forall r,
  NoDup L.*1 -> NoDup (id <$> jobs (manifest r)) ->
  (forall i j, (i, j) ∈ L -> jobs (manifest r) !! i = Some j) ->
  let r' := retry_loop clock budget options envs L r in
  exists p evs,
    trace (world r') = evs ++ trace (world r)
    /\ id <$> jobs (manifest r') = id <$> jobs (manifest r)
    /\ (forall i, i ∉ L.*1 -> jobs (manifest r') !! i = jobs (manifest r) !! i)
    /\ (forall e job_id, e ∈ evs -> event_about job_id e ->
          exists i j, (i, j) ∈ L /\ job_id = id j)
    /\ (forall q i j, L !! q = Some (i, j) -> (q < p)%nat -> run_again r' evs i j)
    /\ (forall q i j, L !! q = Some (i, j) -> (p <= q)%nat ->
          left_untouched r' evs i j /\ budget_reached budget r' = true)
    /\ ((0 < p)%nat -> budget_reached budget r = false).
Proof.
  induction L as [|[i j] L IH]; intros r HndL Hnd Hin; cbn [retry_loop].
  - exists 0%nat, []. repeat split; try done.
    + intros e job_id He. by apply elem_of_nil in He.
    + lia.
  - destruct (Qge_bool (total_actual_cost (manifest r)) budget) eqn:Ebudget.
    + exists 0%nat, []. split; [done|]. split; [done|]. split; [done|].
      split; [intros e job_id He; by apply elem_of_nil in He|].
      split; [intros; lia|]. split; [|intros; lia].
      intros q i' j' Hq _. split; [|exact Ebudget]. split; [|constructor].
      apply Hin. by eapply list_elem_of_lookup_2.
    + rewrite fmap_cons in HndL. apply NoDup_cons in HndL as [HiL HndL'].
      assert (Hi : jobs (manifest r) !! i = Some j) by (apply Hin; left).
      change (mkRun _ _) with (mkRun (set_jobs (alter reset_for_retry i (jobs (manifest r)))
                                        (manifest r)) (world r)).
      change (_process_single_job clock i options (envs i) _)
        with (retry_step clock options envs r i).
      destruct (retry_step_spec options envs r i j Hi)
        as (job' & evs_i & Hjobs1 & Htrace1 & Hpass & Hok & Hterm).
      set (r1 := retry_step clock options envs r i) in *.
      destruct Hok as ((Hid' & _ & Hrc') & _). cbn in Hid', Hrc'.
      assert (Hids1 : id <$> jobs (manifest r1) = id <$> jobs (manifest r)).
      { rewrite Hjobs1, list_fmap_insert, Hid'.
        apply list_insert_id. by rewrite list_lookup_fmap, Hi. }
      assert (Hin1 : forall i' j', (i', j') ∈ L -> jobs (manifest r1) !! i' = Some j').
      { intros i' j' Hm. rewrite Hjobs1, list_lookup_insert_ne.
        - apply Hin. by right.
        - intros ->. apply HiL. apply list_elem_of_fmap. by exists (i', j'). }
      destruct (IH r1 HndL' ltac:(by rewrite Hids1) Hin1)
        as (p & evs & Htrace & Hids & Hframe & Habout & Hrun & Hleft & _).
      set (r' := retry_loop clock budget options envs L r1) in *.
      assert (Hothers : forall i' j', (i', j') ∈ L -> id j <> id j').
      { intros i' j' Hm. eapply (distinct_ids (jobs (manifest r)) i i'); eauto.
        - apply Hin. by right.
        - intros ->. apply HiL. apply list_elem_of_fmap. by exists (i', j'). }
      assert (Hblock : forall e job_id,
                 e ∈ evs_i ++ [LogProcessing (reset_for_retry j)] ->
                 event_about job_id e -> job_id = id j).
      { intros e job_id He Hab. apply elem_of_app in He as [He|He].
        - rewrite Forall_forall in Hpass. by apply (pass_event_about _ _ _ _ _ (Hpass e He)) in Hab.
        - apply list_elem_of_singleton in He as ->. by rewrite <- Hab. }
      assert (Hquiet : forall i' j', (i', j') ∈ L ->
                 nothing_about (id j') (evs_i ++ [LogProcessing (reset_for_retry j)])).
      { intros i' j' Hm. apply Forall_forall. intros e He Hab.
        apply (Hblock e _ He) in Hab. by apply (Hothers i' j' Hm). }
      exists (S p), (evs ++ evs_i ++ [LogProcessing (reset_for_retry j)]).
      split; [|split; [|split; [|split; [|split; [|split]]]]].
      * rewrite Htrace, Htrace1. by rewrite <- !app_assoc.
      * by rewrite Hids.
      * intros i0 Hi0. rewrite fmap_cons in Hi0. apply not_elem_of_cons in Hi0 as [Hne Hi0].
        rewrite Hframe by done. by rewrite Hjobs1, list_lookup_insert_ne.
      * intros e job_id He Hab. apply elem_of_app in He as [He|He].
        -- destruct (Habout e job_id He Hab) as (i' & j' & Hm & ->).
           exists i', j'. split; [by right|done].
        -- exists i, j. split; [by left|]. by apply (Hblock e).
      * intros q i' j' Hq Hlt. destruct q as [|q]; cbn in Hq.
        -- injection Hq as <- <-. split.
           ++ exists (evs ++ evs_i), []. split; [by rewrite <- app_assoc|constructor].
           ++ exists job'. split; [|done].
              rewrite Hframe by done. rewrite Hjobs1.
              apply list_lookup_insert_eq. by eapply lookup_lt_Some.
        -- destruct (Hrun q i' j' Hq ltac:(lia)) as [(later & earlier & -> & Hearlier) Hjob].
           split; [|exact Hjob].
           exists later, (earlier ++ evs_i ++ [LogProcessing (reset_for_retry j)]).
           split; [by rewrite <- !app_assoc|].
           apply Forall_app. split; [done|]. apply (Hquiet i'). by eapply list_elem_of_lookup_2.
      * intros q i' j' Hq Hle. destruct q as [|q]; [lia|]. cbn in Hq.
        destruct (Hleft q i' j' Hq ltac:(lia)) as [[Hjob Hnone] Hreached].
        split; [|done]. split; [done|]. apply Forall_app. split; [done|].
        apply (Hquiet i'). by eapply list_elem_of_lookup_2.
      * intros _. exact Ebudget.
Qed.


Lemma get_retryable_jobs_spec (m : TranscriptionManifest) i j :
  (i, j) ∈ get_retryable_jobs config m
  <-> jobs m !! i = Some j /\ status j = FAILED /\ retry_count j < retry_limit config.
Proof.
  unfold get_retryable_jobs. rewrite list_elem_of_filter, elem_of_lookup_imap. cbn.
  unfold retryable. split.
  - intros [Hr (i' & j' & [= -> ->] & Hj)]. done.
  - intros (Hj & Hr). split; [done|]. by exists i, j.
Qed.

Lemma get_retryable_jobs_NoDup (m : TranscriptionManifest) :
  NoDup (get_retryable_jobs config m).*1.
Proof.
  unfold get_retryable_jobs.
  eapply sublist_NoDup; [|apply fmap_sublist, sublist_filter].
  apply NoDup_alt. intros a b x Ha Hb.
  rewrite list_lookup_fmap, list_lookup_imap in Ha, Hb.
  destruct (jobs m !! a); [|done]. destruct (jobs m !! b); [|done].
  cbn in *. congruence.
Qed.

Lemma retry_failed_jobs_from_loop m budget_cap envs last_save w formats :
  mapM OutputFormats_of_value (output_formats m) = Some formats ->
  let budget := float_or budget_cap (cap_budget_usd config) in
  let rl := retry_loop clock budget (retry_options m budget formats) envs
              (get_retryable_jobs config m) (mkRun m w) in
  let out := retry_failed_jobs config clock m budget_cap envs last_save w in
  (forall m', out.1 = Returns m' -> jobs m' = jobs (manifest rl))
  /\ (get_retryable_jobs config m = [] -> out = (Returns m, w))
  /\ (get_retryable_jobs config m <> [] ->
      exists now io,
        trace out.2 = SaveManifest (update_stats now (manifest rl)) io :: trace (world rl)).
Proof.
  intros Hfmt budget rl out. subst out. unfold retry_failed_jobs. subst rl.
  destruct (get_retryable_jobs config m) as [|ij L] eqn:EL.
  { cbn. split; [by intros m' [= <-]|]. split; done. }
  rewrite Hfmt. fold budget. fold (retry_options m budget formats).
  set (rl := retry_loop _ _ _ _ _ _). unfold utcnow. cbn [fst snd].
  match goal with |- context [save ?m0 ?d ?io ?w0] =>
    pose proof (save_trace m0 d io w0) as Ht; destruct (save m0 d io w0) as [[p|e] w'] end.
  - cbn in *. split; [by intros m' [= <-]|]. split; [done|]. intros _. eauto.
  - cbn in *. split; [done|]. split; [done|]. intros _. eauto.
Qed.

(** C4 (amended).  [retry_failed_jobs] selects exactly the FAILED jobs whose
    retry count is below the limit.  The selected jobs are taken in order
    while the accumulated actual cost is below the budget: each of these is
    reset (retry count one higher, status PENDING, failure reason and error
    message cleared) before anything else is done for it, and its pipeline
    is run again.  From the first selected job met with the budget reached,
    the selected jobs are left untouched, as are the jobs that were not
    selected. *)
Theorem retry_resets_selected_jobs_within_budget
    m budget_cap envs last_save w formats :
  NoDup (id <$> jobs m) ->
  mapM OutputFormats_of_value (output_formats m) = Some formats ->
  let selected := get_retryable_jobs config m in
  let budget := float_or budget_cap (cap_budget_usd config) in
  let rl := retry_loop clock budget (retry_options m budget formats) envs selected
              (mkRun m w) in
  let out := retry_failed_jobs config clock m budget_cap envs last_save w in
  (forall i j, (i, j) ∈ selected
     <-> jobs m !! i = Some j /\ status j = FAILED /\ retry_count j < retry_limit config)
  /\ (forall j, retry_count (reset_for_retry j) = retry_count j + 1
               /\ status (reset_for_retry j) = PENDING
               /\ failure_reason (reset_for_retry j) = None
               /\ error_message (reset_for_retry j) = None)
  /\ (forall m', out.1 = Returns m' -> jobs m' = jobs (manifest rl))
  /\ exists p evs,
       trace (world rl) = evs ++ trace w
       /\ (forall q i j, selected !! q = Some (i, j) -> (q < p)%nat ->
             run_again rl evs i j)
       /\ (forall q i j, selected !! q = Some (i, j) -> (p <= q)%nat ->
             left_untouched rl evs i j /\ budget_reached budget rl = true)
       /\ ((0 < p)%nat -> budget_reached budget (mkRun m w) = false)
       /\ (forall i j, jobs m !! i = Some j ->
             ~ (status j = FAILED /\ retry_count j < retry_limit config) ->
             left_untouched rl evs i j).
Proof.
  intros Hnd Hfmt selected budget rl out.
  split; [apply get_retryable_jobs_spec|]. split; [done|].
  split; [apply (retry_failed_jobs_from_loop m budget_cap envs last_save w formats Hfmt)|].
  destruct (retry_loop_spec budget (retry_options m budget formats) envs selected (mkRun m w))
    as (p & evs & Htrace & Hids & Hframe & Habout & Hrun & Hleft & Hpos).
  { apply get_retryable_jobs_NoDup. }
  { done. }
  { intros i j Hm. by apply get_retryable_jobs_spec in Hm as [? _]. }
  exists p, evs. split; [done|]. split; [done|]. split; [done|]. split; [done|].
  intros i j Hj Hnot. split.
  - fold rl in Hframe. rewrite Hframe; [done|].
    intros Hi. apply list_elem_of_fmap in Hi as ([i' j'] & -> & Hm).
    apply get_retryable_jobs_spec in Hm as (Hj' & Hr). cbn in *.
    rewrite Hj in Hj'. injection Hj' as <-. done.
  - apply Forall_forall. intros e He Hab.
    destruct (Habout e (id j) He Hab) as (i' & j' & Hm & Hid).
    apply get_retryable_jobs_spec in Hm as (Hj' & Hr).
    destruct (decide (i = i')) as [<-|Hne].
    + rewrite Hj in Hj'. injection Hj' as <-. done.
    + by apply (distinct_ids (jobs m) i i' j j' Hnd Hj Hj' Hne).
Qed.

End RetryFacts.

Lemma retry_resets_selected_jobs_within_budget_witness :
  NoDup (id <$> jobs retry_manifest)
  /\ mapM OutputFormats_of_value (output_formats retry_manifest) = Some [TXT]
  /\ get_retryable_jobs demo_config retry_manifest = [(0%nat, failed_job "batch_x_job_001" 0)]
  /\ exists m',
       (retry_failed_jobs demo_config demo_clock retry_manifest None (fun _ => ok_env)
          (Returns ()) empty_world).1 = Returns m'
       /\ jobs m'
          = jobs (manifest
                    (retry_loop demo_clock 20
                       (retry_options retry_manifest 20 [TXT]) (fun _ => ok_env)
                       (get_retryable_jobs demo_config retry_manifest)
                       (mkRun retry_manifest empty_world)))
       /\ status <$> jobs m' = [COMPLETED; FAILED; COMPLETED]
       /\ retry_count <$> jobs m' = [1; 3; 0].
Proof.
  assert (Hnd : NoDup (id <$> jobs retry_manifest)).
  { apply (bool_decide_unpack _). vm_compute. exact I. }
  assert (Hfmt : mapM OutputFormats_of_value (output_formats retry_manifest) = Some [TXT]).
  { vm_compute. reflexivity. }
  split; [exact Hnd|]. split; [exact Hfmt|]. split; [vm_compute; reflexivity|].
  destruct (retry_resets_selected_jobs_within_budget demo_config demo_clock
              retry_manifest None (fun _ => ok_env) (Returns ()) empty_world [TXT]
              Hnd Hfmt) as (_ & _ & Hjobs & _).
  let v := eval vm_compute in
    (retry_failed_jobs demo_config demo_clock retry_manifest None (fun _ => ok_env)
       (Returns ()) empty_world).1 in
  match v with Returns ?m => pose (m' := m) end.
  assert (Hout : (retry_failed_jobs demo_config demo_clock retry_manifest None
                    (fun _ => ok_env) (Returns ()) empty_world).1 = Returns m').
  { vm_compute. reflexivity. }
  exists m'. split; [exact Hout|]. split; [exact (Hjobs m' Hout)|].
  split; vm_compute; reflexivity.
Defined.

Lemma retry_over_budget_leaves_selected_job :
  ~ (forall config clock m budget_cap envs last_save w m' i j,
       (i, j) ∈ get_retryable_jobs config m ->
       (retry_failed_jobs config clock m budget_cap envs last_save w).1 = Returns m' ->
       exists job',
         jobs m' !! i = Some job'
         /\ retry_count job' = retry_count j + 1
         /\ (status job' = COMPLETED \/ status job' = FAILED)).
Proof.
  intros H.
  let v := eval vm_compute in
    (retry_failed_jobs demo_config demo_clock retry_manifest (Some (1 # 10))
       (fun _ => ok_env) (Returns ()) empty_world).1 in
  match v with Returns ?m => pose (m' := m) end.
  destruct (H demo_config demo_clock retry_manifest (Some (1 # 10)) (fun _ => ok_env)
              (Returns ()) empty_world m' 0%nat (failed_job "batch_x_job_001" 0))
    as (job' & Hjob & Hcount & _).
  - apply get_retryable_jobs_spec. vm_compute. repeat split.
  - vm_compute. reflexivity.
  - vm_compute in Hjob. injection Hjob as <-. vm_compute in Hcount. discriminate.
Qed.

(** With the budget already spent, the selected job of [retry_manifest] is
    returned as it was. *)
Example retry_over_budget_run :
  exists m',
    (retry_failed_jobs demo_config demo_clock retry_manifest (Some (1 # 10))
       (fun _ => ok_env) (Returns ()) empty_world).1 = Returns m'
    /\ jobs m' = jobs retry_manifest.
Proof. eexists. split; vm_compute; reflexivity. Qed.

Section RetryReasons.

Variable config : Config.
Variable clock : nat -> datetime.

Lemma fresh_reason_consistent j : fresh j -> reason_consistent j.
Proof.
  intros [Hs Hr]. split; [|split]; intros; try done; congruence.
Qed.

Lemma pass_event_reason i js j0 e :
  Forall reason_consistent js -> fresh j0 ->
  pass_event i js j0 e -> shows reason_consistent e.
Proof.
  intros Hjs Hf [|k j Hok|m b j Hm Hok _ _]; unfold shows; simpl.
  - apply Forall_singleton. by apply fresh_reason_consistent.
  - destruct Hok as (_ & Hr & _). apply Forall_singleton. auto.
  - rewrite Hm. destruct Hok as (_ & Hr & _). apply Forall_insert; auto.
Qed.

Lemma retry_step_reason options envs r i :
  Forall reason_consistent (jobs (manifest r)) ->
  Forall reason_consistent (jobs (manifest (retry_step clock options envs r i)))
  /\ extends (shows reason_consistent) (trace (world r))
       (trace (world (retry_step clock options envs r i))).
Proof.
  intros Hall. destruct (jobs (manifest r) !! i) as [j|] eqn:Hi.
  - destruct (retry_step_spec clock options envs r i j Hi)
      as (job' & evs & Hjobs & Htrace & Hpass & Hok & _).
    assert (Hreset : Forall reason_consistent (<[i := reset_for_retry j]> (jobs (manifest r)))).
    { apply Forall_insert; [done|]. by apply fresh_reason_consistent. }
    split.
    + rewrite Hjobs. apply Forall_insert; [done|].
      destruct Hok as (_ & Hr & _). by apply Hr.
    + rewrite Htrace. apply extends_app.
      * eapply Forall_impl; [exact Hpass|]. intros e He.
        eapply pass_event_reason; [exact Hreset|apply reset_for_retry_fresh|exact He].
      * constructor; [|constructor]. apply Forall_singleton.
        by apply fresh_reason_consistent.
  - unfold retry_step. rewrite pass_invalid.
    + cbn. split; [|constructor]. by apply Forall_alter.
    + cbn. rewrite list_lookup_alter_eq, Hi. done.
Qed.

Lemma retry_loop_reason budget options envs (L : list (nat * TranscriptionJob)) :
  forall r,
  Forall reason_consistent (jobs (manifest r)) ->
  Forall reason_consistent (jobs (manifest (retry_loop clock budget options envs L r)))
  /\ extends (shows reason_consistent) (trace (world r))
       (trace (world (retry_loop clock budget options envs L r))).
Proof.
  induction L as [|[i j] L IH]; intros r Hall; cbn [retry_loop].
  - split; [done|constructor].
  - destruct (Qge_bool _ _); [split; [done|constructor]|].
    change (_process_single_job clock i options (envs i) _)
      with (retry_step clock options envs r i).
    destruct (retry_step_reason options envs r i Hall) as [Hall1 Hext1].
    destruct (IH _ Hall1) as [Hall' Hext']. split; [done|].
    by eapply extends_trans.
Qed.

Lemma retry_failed_jobs_reason m budget_cap envs last_save w :
  Forall reason_consistent (jobs m) ->
  let out := retry_failed_jobs config clock m budget_cap envs last_save w in
  extends (shows reason_consistent) (trace w) (trace out.2)
  /\ (forall m', out.1 = Returns m' -> Forall reason_consistent (jobs m')).
Proof.
  intros Hall out. subst out. unfold retry_failed_jobs.
  destruct (get_retryable_jobs config m) as [|ij L].
  { cbn. split; [constructor|]. by intros m' [= <-]. }
  destruct (mapM _ _) as [formats|]; [|cbn; split; [constructor|done]].
  match goal with |- context [retry_loop clock ?b ?o envs ?l ?r0] =>
    destruct (retry_loop_reason b o envs l r0 Hall) as [Hall' Hext];
    set (rl := retry_loop clock b o envs l r0) in * end.
  unfold utcnow. cbn [fst snd].
  match goal with |- context [save ?m0 ?d ?io ?w0] =>
    pose proof (save_trace m0 d io w0) as Ht; destruct (save m0 d io w0) as [[p|e] w'] end;
    cbn in *; (split; [|try done; by intros m' [= <-]]);
    rewrite Ht; (constructor; [exact Hall'|exact Hext]).
Qed.

End RetryReasons.

(** * Failure reasons, costs, formatting and persistence *)

Lemma reason_consistent_iff j :
  reason_consistent j ->
  (is_Some (failure_reason j) <-> status j = FAILED \/ status j = SKIPPED)
  /\ (status j = SKIPPED -> failure_reason j = Some BUDGET_EXCEEDED).
Proof.
  intros (Hf & Hs & Hn). split; [|done]. split.
  - intros Hsome. destruct (decide (status j = FAILED)) as [|Hnf]; [by left|].
    destruct (decide (status j = SKIPPED)) as [|Hns]; [by right|].
    rewrite (Hn Hnf Hns) in Hsome. by apply is_Some_None in Hsome.
  - intros [H|H]; [by apply Hf|]. rewrite (Hs H). by eexists.
Qed.

Lemma consistent_reason j : consistent j -> reason_consistent j.
Proof. by intros (H & _). Qed.

Lemma consistent_cost j : consistent j -> cost_consistent j /\ completed_cost_known j.
Proof. by intros (_ & H). Qed.

Section Invariants.

Variable config : Config.
Variable clock : nat -> datetime.

Lemma process_batch_shows (P : TranscriptionJob -> Prop) options env w :
  (forall j, consistent j -> P j) ->
  let out := process_batch config clock options env w in
  extends (shows P) (trace w) (trace out.2)
  /\ (forall m, out.1 = Returns m -> Forall P (jobs m)).
Proof.
  intros HP out. destruct (process_batch_consistent config clock options env w) as [Hext Hret].
  split.
  - eapply extends_impl; [|exact Hext]. intros e He. by eapply shows_impl.
  - intros m Hm. eapply Forall_impl; [exact (Hret m Hm)|exact HP].
Qed.

(** C2 (amended).  At every point of a batch run and of a retry at which a
    job is shown to the outside (the opening of its pass, each call of an
    adapter or a formatter, each save of the manifest, the returned
    manifest), its failure_reason is non-null if and only if its status is
    FAILED or SKIPPED, and a SKIPPED job carries budget_exceeded.  For a
    retry this holds when it holds of the manifest given to it. *)
Theorem failure_reason_iff_failed_or_skipped :
  (forall j, reason_consistent j ->
     (is_Some (failure_reason j) <-> status j = FAILED \/ status j = SKIPPED)
     /\ (status j = SKIPPED -> failure_reason j = Some BUDGET_EXCEEDED))
  /\ (forall options env w,
        let out := process_batch config clock options env w in
        extends (shows reason_consistent) (trace w) (trace out.2)
        /\ (forall m, out.1 = Returns m -> Forall reason_consistent (jobs m)))
  /\ (forall m budget_cap envs last_save w,
        Forall reason_consistent (jobs m) ->
        let out := retry_failed_jobs config clock m budget_cap envs last_save w in
        extends (shows reason_consistent) (trace w) (trace out.2)
        /\ (forall m', out.1 = Returns m' -> Forall reason_consistent (jobs m'))).
Proof.
  split; [exact reason_consistent_iff|]. split.
  - intros options env w. apply process_batch_shows. exact consistent_reason.
  - intros m budget_cap envs last_save w Hall.
    by apply retry_failed_jobs_reason.
Qed.

(** C3 (amended).  At every point of a batch run at which a job is shown to
    the outside, and in the returned manifest, a job has an actual cost only
    if its transcription has succeeded (its status is FORMATTING or
    COMPLETED, or it is FAILED with reason format_failed or unknown_error),
    and a COMPLETED job whose video metadata was resolved has the cost of
    its duration, of the default 120 seconds when the duration is unknown. *)
Theorem actual_cost_recorded_after_transcription options env w :
  let out := process_batch config clock options env w in
  extends (shows (fun j => cost_consistent j /\ completed_cost_known j))
    (trace w) (trace out.2)
  /\ (forall m, out.1 = Returns m ->
        Forall (fun j => cost_consistent j /\ completed_cost_known j) (jobs m))
  /\ (forall j, cost_consistent j ->
        is_Some (actual_cost j) ->
        status j = FORMATTING \/ status j = COMPLETED
        \/ (status j = FAILED
            /\ (failure_reason j = Some FORMAT_FAILED
                \/ failure_reason j = Some UNKNOWN_ERROR)))
  /\ (forall j metadata, completed_cost_known j ->
        status j = COMPLETED -> video_metadata j = Some metadata ->
        actual_cost j
        = Some (estimate_transcription_cost (float_or (duration metadata) 120)
                + estimate_conversion_cost (float_or (duration metadata) 120))%Q).
Proof.
  intros out.
  destruct (process_batch_shows (fun j => cost_consistent j /\ completed_cost_known j)
              options env w consistent_cost) as [Hext Hret].
  split; [exact Hext|]. split; [exact Hret|]. split; [by intros j H|].
  intros j metadata H Hs Hm. exact (H Hs metadata Hm).
Qed.

End Invariants.

Lemma failure_reason_iff_failed_or_skipped_witness :
  Forall reason_consistent (jobs retry_manifest)
  /\ forall m',
       (retry_failed_jobs demo_config demo_clock retry_manifest None (fun _ => ok_env)
          (Returns ()) empty_world).1 = Returns m' ->
       Forall reason_consistent (jobs m').
Proof.
  assert (Hall : Forall reason_consistent (jobs retry_manifest)).
  { repeat (apply Forall_cons; split; [|]); [..|apply Forall_nil; exact I];
      (split; [|split]); cbn; intros; try done; by eexists. }
  split; [exact Hall|].
  destruct (failure_reason_iff_failed_or_skipped demo_config demo_clock) as (_ & _ & Hretry).
  exact (proj2 (Hretry retry_manifest None (fun _ => ok_env) (Returns ()) empty_world Hall)).
Defined.

Lemma skipped_job_carries_failure_reason :
  ~ (forall config clock options env w m j,
       (process_batch config clock options env w).1 = Returns m ->
       j ∈ jobs m ->
       (is_Some (failure_reason j) <-> status j = FAILED)).
Proof.
  intros H.
  let v := eval vm_compute in
    (process_batch demo_config demo_clock (demo_options [TXT; JSON] (Some (1 # 100)))
       (demo_batch (fun _ => ok_env)) empty_world).1 in
  match v with Returns ?m0 => pose (m := m0) end.
  let v := eval vm_compute in (jobs m !! 1%nat) in
  match v with Some ?j0 => pose (j := j0) end.
  destruct (H demo_config demo_clock (demo_options [TXT; JSON] (Some (1 # 100)))
              (demo_batch (fun _ => ok_env)) empty_world m j) as [Hfailed _].
  - vm_compute. reflexivity.
  - apply (list_elem_of_lookup_2 _ 1%nat). vm_compute. reflexivity.
  - assert (Hs : status j = FAILED) by (apply Hfailed; by eexists).
    vm_compute in Hs. discriminate.
Qed.

(** The batch of the example above: the first job uses up the cap of 0.01,
    the two others are skipped and carry the reason. *)
Example budget_cutoff_run :
  exists m,
    (process_batch demo_config demo_clock (demo_options [TXT; JSON] (Some (1 # 100)))
       (demo_batch (fun _ => ok_env)) empty_world).1 = Returns m
    /\ (fun j => (status j, failure_reason j)) <$> jobs m
       = [ (COMPLETED, None); (SKIPPED, Some BUDGET_EXCEEDED);
           (SKIPPED, Some BUDGET_EXCEEDED) ].
Proof. eexists. split; vm_compute; reflexivity. Qed.

Lemma failed_job_keeps_actual_cost :
  ~ (forall config clock options env w m j,
       (process_batch config clock options env w).1 = Returns m ->
       j ∈ jobs m ->
       (is_Some (actual_cost j) -> status j = COMPLETED)
       /\ (status j = COMPLETED -> is_Some (actual_cost j))).
Proof.
  intros H.
  let v := eval vm_compute in
    (process_batch demo_config demo_clock (demo_options [TXT] (Some 20%Q))
       (demo_batch (fun _ => write_env (fun _ => false))) empty_world).1 in
  match v with Returns ?m0 => pose (m := m0) end.
  let v := eval vm_compute in (jobs m !! 0%nat) in
  match v with Some ?j0 => pose (j := j0) end.
  destruct (H demo_config demo_clock (demo_options [TXT] (Some 20%Q))
              (demo_batch (fun _ => write_env (fun _ => false))) empty_world m j)
    as [Hcompleted _].
  - vm_compute. reflexivity.
  - apply (list_elem_of_lookup_2 _ 0%nat). vm_compute. reflexivity.
  - assert (Hs : status j = COMPLETED) by (apply Hcompleted; by eexists).
    vm_compute in Hs. discriminate.
Qed.

(** The batch of the example above: no output file can be written, every
    job fails at the formatting and keeps the cost of its transcription. *)
Example format_failure_run :
  exists m,
    (process_batch demo_config demo_clock (demo_options [TXT] (Some 20%Q))
       (demo_batch (fun _ => write_env (fun _ => false))) empty_world).1 = Returns m
    /\ (fun j => (status j, failure_reason j, bool_decide (is_Some (actual_cost j)))) <$> jobs m
       = [ (FAILED, Some FORMAT_FAILED, true); (FAILED, Some FORMAT_FAILED, true);
           (FAILED, Some FORMAT_FAILED, true) ].
Proof. eexists. split; vm_compute; reflexivity. Qed.

(** When the metadata of a video cannot be read there is no estimate to fall
    back on: the job completes with no actual cost. *)
Example completed_without_metadata_has_no_cost :
  exists m,
    (process_batch demo_config demo_clock (demo_options [TXT] (Some 20%Q))
       (demo_batch (fun _ => no_metadata_env)) empty_world).1 = Returns m
    /\ (fun j => (status j, actual_cost j)) <$> jobs m
       = [ (COMPLETED, None); (COMPLETED, None); (COMPLETED, None) ].
Proof. eexists. split; vm_compute; reflexivity. Qed.

Lemma format_transcript_ext f (a b : TranscriptionJob) env :
  transcript_data a = transcript_data b -> transcript_text a = transcript_text b ->
  format_transcript f a env = format_transcript f b env.
Proof. intros Hd Ht. unfold format_transcript. by rewrite Hd, Ht. Qed.

Lemma all_formatted_ext options (a b : TranscriptionJob) env :
  transcript_data a = transcript_data b -> transcript_text a = transcript_text b ->
  all_formatted options a env = all_formatted options b env.
Proof.
  intros Hd Ht. unfold all_formatted.
  induction (opt_formats options) as [|f l IH]; [done|]. cbn.
  by rewrite IH, (format_transcript_ext f a b).
Qed.

#[local] Arguments known_duration : simpl never.
#[local] Arguments all_formatted : simpl never.

Section Formatting.

Variable clock : nat -> datetime.

(** C5 (amended).  A job whose download, conversion and transcription have
    succeeded is demoted to FAILED with reason format_failed if and only if
    some requested formatter fails; when every requested formatter succeeds
    the job completes, unless the manifest cannot be saved, which fails it
    with reason unknown_error. *)
Theorem job_demoted_iff_some_formatter_fails
    i options env r j0 video_path dl_reason dl_msg cv_reason cv_msg
    transcript tr_reason tr_msg :
  jobs (manifest r) !! i = Some j0 ->
  env_download env = (Some video_path, dl_reason, dl_msg) ->
  env_mkdir env = Returns () ->
  env_convert env = (true, cv_reason, cv_msg) ->
  env_transcribe env = (true, transcript, tr_reason, tr_msg) ->
  exists job,
    jobs (manifest (_process_single_job clock i options env r)) !! i = Some job
    /\ forall jf, formatted_input transcript jf ->
         (demoted job <-> all_formatted options jf env = false)
         /\ (all_formatted options jf env = true ->
               match env_save env with
               | Returns _ => status job = COMPLETED
               | Raises _ =>
                   status job = FAILED /\ failure_reason job = Some UNKNOWN_ERROR
               end).
Proof.
  intros Hi Hdl Hmk Hcv Htr.
  assert (Hlt : (i < length (jobs (manifest r)))%nat) by (by eapply lookup_lt_Some).
  unfold _process_single_job. rewrite Hi.
  destruct env as [md dl mk cv tr wr sv].
  destruct options as [inp out fmts summ deltemp dry cap].
  cbn in Hdl, Hmk, Hcv, Htr. subst dl mk cv tr.
  unfold pipeline.
  cbn [env_metadata env_download env_mkdir env_convert env_transcribe env_save
       opt_delete_temp opt_output_dir].
  unfold utcnow. cbv beta iota zeta.
  match goal with |- context [known_duration ?j] => destruct (known_duration j) as [d|] end.
  all: rewrite format_job_outputs_spec.
  all: match goal with |- context [forallb (fun f => format_transcript f ?jA ?e) ?l] =>
         assert (Hsame : forall jf, formatted_input transcript jf ->
                   all_formatted (mkOptions inp out fmts summ deltemp dry cap) jf e
                   = forallb (fun f => format_transcript f jA e) l)
           by (intros jf (Hd & Ht & _); apply all_formatted_ext; cbn; congruence);
         destruct (forallb (fun f => format_transcript f jA e) l)
       end.
  all: unfold fail_and_return, save, save_manifest, _handle_job_failure, _cleanup_temp_files.
  all: cbn.
  all: destruct sv as [[]|e], md, deltemp; cbn.
  all: eexists; (split; [rewrite ?list_insert_insert_eq; apply list_lookup_insert_eq;
                         rewrite ?length_insert; exact Hlt|]).
  all: intros jf Hjf; rewrite (Hsame jf Hjf); unfold demoted; cbn.
  all: split; [split; [intros [? ?]; congruence|intros; done]|intros; try done; auto].
Qed.

End Formatting.

Lemma job_demoted_iff_some_formatter_fails_witness :
  exists r0,
    batch_entry demo_config demo_clock (demo_options [TXT; SRT] (Some 20%Q))
      (demo_batch (fun _ => ok_env)) empty_world = Some r0
    /\ exists job,
         jobs (manifest (_process_single_job demo_clock 0
                           (demo_options [TXT; SRT] (Some 20%Q)) ok_env r0)) !! 0%nat
         = Some job
         /\ ~ demoted job /\ status job = COMPLETED.
Proof.
  let v := eval vm_compute in
    (batch_entry demo_config demo_clock (demo_options [TXT; SRT] (Some 20%Q))
       (demo_batch (fun _ => ok_env)) empty_world) in
  match v with Some ?r => pose (r0 := r) end.
  exists r0. split; [vm_compute; reflexivity|].
  let v := eval vm_compute in (jobs (manifest r0) !! 0%nat) in
  match v with Some ?j => pose (j0 := j) end.
  destruct (job_demoted_iff_some_formatter_fails demo_clock 0
              (demo_options [TXT; SRT] (Some 20%Q)) ok_env r0 j0
              "temp/video.mp4" None None None None (Some demo_transcript) None None)
    as (job & Hjob & Hfmt); try (vm_compute; reflexivity).
  exists job. split; [exact Hjob|].
  set (jf := set_status FORMATTING
               (set_transcript_text (td_text demo_transcript)
                  (set_transcript_data (Some demo_transcript) j0))).
  destruct (Hfmt jf) as [Hdem Hdone]; [by repeat split|].
  assert (Hall : all_formatted (demo_options [TXT; SRT] (Some 20%Q)) jf ok_env = true)
    by (vm_compute; reflexivity).
  split.
  - intros Hd. apply Hdem in Hd. rewrite Hall in Hd. discriminate.
  - exact (Hdone Hall).
Defined.

Lemma one_failed_formatter_demotes_job :
  ~ (forall clock i options env r j0 video_path dl_reason dl_msg cv_reason cv_msg
            transcript tr_reason tr_msg job jf,
       jobs (manifest r) !! i = Some j0 ->
       env_download env = (Some video_path, dl_reason, dl_msg) ->
       env_mkdir env = Returns () ->
       env_convert env = (true, cv_reason, cv_msg) ->
       env_transcribe env = (true, transcript, tr_reason, tr_msg) ->
       jobs (manifest (_process_single_job clock i options env r)) !! i = Some job ->
       formatted_input transcript jf ->
       (demoted job <-> some_formatted options jf env = false)
       /\ (some_formatted options jf env = true -> status job = COMPLETED)).
Proof.
  intros H.
  pose (env := write_env (fun f => bool_decide (f = TXT))).
  pose (options := demo_options [TXT; SRT] (Some 20%Q)).
  let v := eval vm_compute in
    (batch_entry demo_config demo_clock options (demo_batch (fun _ => env)) empty_world) in
  match v with Some ?r => pose (r0 := r) end.
  let v := eval vm_compute in (jobs (manifest r0) !! 0%nat) in
  match v with Some ?j => pose (j0 := j) end.
  let v := eval vm_compute in
    (jobs (manifest (_process_single_job demo_clock 0 options env r0)) !! 0%nat) in
  match v with Some ?j => pose (job := j) end.
  pose (jf := set_status FORMATTING
                (set_transcript_text (td_text demo_transcript)
                   (set_transcript_data (Some demo_transcript) j0))).
  destruct (H demo_clock 0%nat options env r0 j0 "temp/video.mp4" None None None None
              (Some demo_transcript) None None job jf) as [_ Hcompleted];
    try (vm_compute; reflexivity).
  - by repeat split.
  - assert (Hs : status job = COMPLETED) by (apply Hcompleted; vm_compute; reflexivity).
    vm_compute in Hs. discriminate.
Qed.

(** The pass of the example above: the text file is written, the SRT file
    cannot be, and the job is failed with reason format_failed. *)
Example one_failed_formatter_run :
  exists r0 job,
    batch_entry demo_config demo_clock (demo_options [TXT; SRT] (Some 20%Q))
      (demo_batch (fun _ => write_env (fun f => bool_decide (f = TXT)))) empty_world
    = Some r0
    /\ jobs (manifest (_process_single_job demo_clock 0
                         (demo_options [TXT; SRT] (Some 20%Q))
                         (write_env (fun f => bool_decide (f = TXT))) r0)) !! 0%nat
       = Some job
    /\ format_transcript TXT job (write_env (fun f => bool_decide (f = TXT))) = true
    /\ format_transcript SRT job (write_env (fun f => bool_decide (f = TXT))) = false
    /\ status job = FAILED
    /\ failure_reason job = Some FORMAT_FAILED.
Proof.
  let v := eval vm_compute in
    (batch_entry demo_config demo_clock (demo_options [TXT; SRT] (Some 20%Q))
       (demo_batch (fun _ => write_env (fun f => bool_decide (f = TXT)))) empty_world) in
  match v with Some ?r => pose (r0 := r) end.
  let v := eval vm_compute in
    (jobs (manifest (_process_single_job demo_clock 0
                       (demo_options [TXT; SRT] (Some 20%Q))
                       (write_env (fun f => bool_decide (f = TXT))) r0)) !! 0%nat) in
  match v with Some ?j => pose (job := j) end.
  exists r0, job.
  split; [vm_compute; reflexivity|]. split; [vm_compute; reflexivity|].
  split; [vm_compute; reflexivity|]. split; [vm_compute; reflexivity|].
  split; vm_compute; reflexivity.
Qed.

(** C8.  A pass that fails is not followed by a save: after the pass of the
    first job of a batch whose downloads fail, the job is FAILED in memory,
    the count of failed jobs of the manifest is still 0, nothing has been
    written, and the manifest file still gives the job as pending. *)
Example failed_pass_is_not_persisted :
  exists r0,
    batch_entry demo_config demo_clock (demo_options [TXT] (Some 20%Q))
      (demo_batch (fun _ => no_download_env)) empty_world = Some r0
    /\ let r1 := _process_single_job demo_clock 0 (demo_options [TXT] (Some 20%Q))
                   no_download_env r0 in
       status <$> jobs (manifest r1) !! 0%nat = Some FAILED
       /\ failed_jobs (manifest r1) = 0%nat
       /\ files (world r1) = files (world r0)
       /\ (exists evs, trace (world r1) = evs ++ trace (world r0)
             /\ Forall (fun e => match e with SaveManifest _ _ => False | _ => True end) evs)
       /\ on_disk_status demo_clock (world r1) "out" 0 = Some PENDING.
Proof.
  let v := eval vm_compute in
    (batch_entry demo_config demo_clock (demo_options [TXT] (Some 20%Q))
       (demo_batch (fun _ => no_download_env)) empty_world) in
  match v with Some ?r => pose (r0 := r) end.
  exists r0. split; [vm_compute; reflexivity|]. cbv zeta.
  split; [vm_compute; reflexivity|]. split; [vm_compute; reflexivity|].
  split; [vm_compute; reflexivity|]. split; [|vm_compute; reflexivity].
  set (r1 := _process_single_job demo_clock 0 (demo_options [TXT] (Some 20%Q))
               no_download_env r0).
  exists (take (length (trace (world r1)) - length (trace (world r0)))
            (trace (world r1))).
  split; [vm_compute; reflexivity|].
  vm_compute. repeat (apply Forall_cons; split; [exact I|]). apply Forall_nil. exact I.
Qed.

(** * What a batch run leaves in the manifest *)

#[local] Arguments known_duration : simpl never.

Section BatchShape.

Variable config : Config.
Variable clock : nat -> datetime.

Lemma pass_header i options env r :
  manifest_header (manifest (_process_single_job clock i options env r))
  = manifest_header (manifest r).
Proof.
  unfold _process_single_job. destruct (jobs (manifest r) !! i) as [j0|]; [|done].
  destruct env as [md [[dl r1] m1] mk [[cv r2] m2] [[[tr td] r3] m3] wr sv].
  unfold pipeline.
  cbn [env_metadata env_download env_mkdir env_convert env_transcribe env_save].
  destruct dl as [video_path|].
  2:{ unfold fail_and_return, _handle_job_failure. cbn. by destruct r1. }
  destruct mk as [[]|e]; [|done].
  destruct cv.
  2:{ unfold fail_and_return, _handle_job_failure. cbn. by destruct r2. }
  destruct tr.
  2:{ unfold fail_and_return, _handle_job_failure. cbn. by destruct r3. }
  unfold utcnow. cbv beta iota zeta.
  destruct (_format_job_outputs _ _ _ _) as [[] w1]; cbn [negb].
  - destruct (save _ _ _ _) as [[p|e] w2]; done.
  - unfold fail_and_return, _handle_job_failure. done.
Qed.

Lemma after_jobs_header options envs k r :
  manifest_header (manifest (after_jobs clock options envs k r))
  = manifest_header (manifest r).
Proof.
  induction k as [|k IH]; [done|]. rewrite after_jobs_S. by rewrite pass_header.
Qed.

(** The jobs after the first [k] passes: the same jobs by identity, the
    first [k] completed or failed, the others as they were. *)
Lemma after_jobs_shape options envs r0 k :
  (k <= length (jobs (manifest r0)))%nat ->
  let r := after_jobs clock options envs k r0 in
  forall j job0, jobs (manifest r0) !! j = Some job0 ->
    exists job, jobs (manifest r) !! j = Some job
      /\ same_identity job0 job
      /\ ((j < k)%nat -> status job = COMPLETED \/ status job = FAILED)
      /\ ((k <= j)%nat -> job = job0).
Proof.
  induction k as [|k IH]; intros Hk r j job0 Hj; subst r.
  - exists job0. split; [done|]. split; [done|]. split; [lia|done].
  - rewrite after_jobs_S. specialize (IH ltac:(lia)). cbv zeta in IH.
    set (r := after_jobs clock options envs k r0) in *.
    destruct (lookup_lt_is_Some_2 (jobs (manifest r0)) k) as [jk Hjk]; [lia|].
    destruct (IH k jk Hjk) as (jk' & Hrk & _ & _ & Heq). rewrite (Heq ltac:(lia)) in Hrk.
    destruct (pass_spec clock k options (envs k) r jk Hrk) as (job' & Hjobs & _ & Hok & Hterm).
    rewrite Hjobs. destruct (decide (j = k)) as [->|Hne].
    + rewrite Hjk in Hj. injection Hj as <-. exists job'.
      split; [apply list_lookup_insert_eq; by eapply lookup_lt_Some|].
      split; [by destruct Hok|]. split; [done|lia].
    + destruct (IH j job0 Hj) as (job & Hrj & Hid & Hdone & Hsame).
      exists job. rewrite list_lookup_insert_ne by done.
      split; [done|]. split; [done|]. split; intros; [apply Hdone|apply Hsame]; lia.
Qed.

(** How the loop of a batch that is not a dry run ends: after [k] passes,
    all the jobs or those before the first one met with the cap reached,
    the jobs from [k] on being skipped when pending. *)
Lemma batch_loop_outcome options env w r0 cap :
  batch_entry config clock options env w = Some r0 ->
  opt_budget_cap options = Some cap ->
  let n := length (jobs (manifest r0)) in
  exists k rf,
    (k <= n)%nat
    /\ batch_loop clock options (be_jobs env) (seq 0 n) r0 = (Returns (), rf)
    /\ (forall k', (k' < k)%nat ->
          budget_reached cap (after_jobs clock options (be_jobs env) k' r0) = false)
    /\ ((k < n)%nat ->
          budget_reached cap (after_jobs clock options (be_jobs env) k r0) = true)
    /\ jobs (manifest rf)
       = take k (jobs (manifest (after_jobs clock options (be_jobs env) k r0)))
         ++ (skip_if_pending
               <$> drop k (jobs (manifest (after_jobs clock options (be_jobs env) k r0))))
    /\ world rf = world (after_jobs clock options (be_jobs env) k r0)
    /\ manifest_header (manifest rf) = manifest_header (manifest r0).
Proof.
  intros Hentry Hcap n.
  destruct (batch_entry_spec config clock options env w r0 Hentry)
    as (Hnd & Hprist & Hne & _ & Htrace & _).
  destruct (first_cut
              (fun k => budget_reached cap (after_jobs clock options (be_jobs env) k r0)) n)
    as [Hno|(k & Hk & Hcut & Hno)].
  - exists n, (after_jobs clock options (be_jobs env) n r0).
    split; [done|]. split; [by apply (batch_loop_all clock options (be_jobs env) cap)|].
    split; [done|]. split; [lia|].
    split; [|split; [done|apply after_jobs_header]].
    assert (Hlen : length (jobs (manifest (after_jobs clock options (be_jobs env) n r0))) = n).
    { destruct (after_jobs_spec clock options (be_jobs env) r0 n ltac:(done) Hnd)
        as (Hids & _). apply (f_equal length) in Hids. by rewrite !length_fmap in Hids. }
    rewrite take_ge, drop_ge by lia. by rewrite app_nil_r.
  - set (before := after_jobs clock options (be_jobs env) k r0) in *.
    destruct (after_jobs_spec clock options (be_jobs env) r0 k ltac:(lia) Hnd)
      as (Hids & Hlater & _).
    fold before in Hids, Hlater.
    destruct (lookup_lt_is_Some_2 (jobs (manifest r0)) k) as [jk Hjk]; [done|].
    eexists k, _. split; [lia|]. split.
    { rewrite (batch_loop_prefix clock options (be_jobs env) cap r0 n k Hcap)
        by (lia || done).
      replace (n - k)%nat with (S (n - S k)) by lia. cbn [seq]. fold before.
      apply (batch_loop_cut clock options (be_jobs env) cap before k _ jk);
        [done|done|by rewrite Hlater|by rewrite Hids]. }
    split; [done|]. split; [done|]. split; [done|]. split; [done|].
    cbn [manifest]. unfold manifest_header, set_jobs. cbn.
    exact (after_jobs_header options (be_jobs env) k r0).
Qed.


Lemma cut_lookup {A} (f : A -> A) (js : list A) k j :
  (k <= length js)%nat ->
  (take k js ++ (f <$> drop k js)) !! j
  = if decide (j < k)%nat then js !! j else f <$> js !! j.
Proof.
  intros Hk. destruct (decide (j < k)%nat) as [Hlt|Hge].
  - rewrite lookup_app_l by (rewrite length_take_le; lia). by apply lookup_take_lt.
  - rewrite lookup_app_r by (rewrite length_take_le; lia).
    rewrite length_take_le by lia. rewrite list_lookup_fmap, lookup_drop.
    by replace (k + (j - k))%nat with j by lia.
Qed.

Lemma sum_costs_None (c : TranscriptionJob -> option Q) (js : list TranscriptionJob) :
  Forall (fun j => c j = None) js -> sum_costs c js = 0%Q.
Proof.
  unfold sum_costs. induction 1 as [|j js Hj _ IH]; [done|].
  cbn [fold_left]. rewrite Hj. exact IH.
Qed.

(** The run at the entry of the loop, in terms of the URLs read. *)
Lemma batch_entry_jobs options env w r0 :
  batch_entry config clock options env w = Some r0 ->
  exists urls log,
    load_urls_from_file (be_input env) = Returns (urls, log)
    /\ jobs (manifest r0)
       = imap (fun k u => new_job (job_id_of (be_batch_id env) (1 + k)) u
                            (clock (S (S (ticks w + k))))) urls
    /\ total_actual_cost (manifest r0) = 0%Q
    /\ files (world r0)
       = <[manifest_path (opt_output_dir options) := manifest_dict (manifest r0)]> (files w)
    /\ manifest_header (manifest r0)
       = (be_batch_id env, clock (ticks w), opt_input_file options, opt_output_dir options,
          OutputFormats_value <$> opt_formats options,
          float_or (opt_budget_cap options) (cap_budget_usd config)).
Proof.
  unfold batch_entry.
  destruct (load_urls_from_file (be_input env)) as [[[|u urls] log]|e]; try done.
  unfold create_manifest, populate_jobs, utcnow. cbn [manifest_id jobs ticks files trace].
  rewrite populate_loop_spec. cbn [ticks files trace].
  destruct (be_mkdir env) as [[]|e]; [|done].
  unfold save, save_manifest. destruct (be_first_save env) as [[]|e]; [|done].
  cbn [files trace ticks]. destruct (opt_dry_run options); [done|].
  intros [= <-]. exists (u :: urls), log. split; [done|].
  cbn [manifest world jobs update_stats set_jobs total_actual_cost files].
  split; [done|]. split; [|done].
  apply sum_costs_None.
  eapply Forall_impl;
    [exact (imap_new_job_pristine (be_batch_id env) (u :: urls)
              (fun k => clock (S (S (ticks w + k)))))|].
  by intros j (a & b & c & ->).
Qed.

(** What a batch that is not a dry run returns, when it returns. *)
Lemma batch_result options env w m :
  opt_dry_run options = false ->
  (process_batch config clock options env w).1 = Returns m ->
  exists r0 cap k,
    batch_entry config clock options env w = Some r0
    /\ opt_budget_cap options = Some cap
    /\ (k <= length (jobs (manifest r0)))%nat
    /\ (forall k', (k' < k)%nat ->
          budget_reached cap (after_jobs clock options (be_jobs env) k' r0) = false)
    /\ ((k < length (jobs (manifest r0)))%nat ->
          budget_reached cap (after_jobs clock options (be_jobs env) k r0) = true)
    /\ jobs m
       = take k (jobs (manifest (after_jobs clock options (be_jobs env) k r0)))
         ++ (skip_if_pending
               <$> drop k (jobs (manifest (after_jobs clock options (be_jobs env) k r0))))
    /\ stats_current m
    /\ manifest_header m = manifest_header (manifest r0)
    /\ trace (process_batch config clock options env w).2
       = SaveManifest m true
           :: trace (world (after_jobs clock options (be_jobs env) k r0)).
Proof.
  intros Hdry Hret.
  destruct (batch_entry config clock options env w) as [r0|] eqn:Hentry.
  2:{ destruct (batch_entry_None_raises config clock options env w Hentry Hdry) as [e He].
      rewrite He in Hret. done. }
  rewrite (process_batch_from_entry config clock options env w r0 Hentry) in Hret |- *.
  destruct (batch_entry_spec config clock options env w r0 Hentry)
    as (Hnd & Hprist & Hne & _ & Htrace & _).
  destruct (opt_budget_cap options) as [cap|] eqn:Hcap.
  2:{ destruct (jobs (manifest r0)) as [|j js] eqn:Ejobs; [done|].
      cbn [length seq batch_loop] in Hret. rewrite Hcap in Hret. done. }
  destruct (batch_loop_outcome options env w r0 cap Hentry Hcap)
    as (k & rf & Hk & Hloop & Hno & Hcut & Hjobs & Hworld & Hheader).
  exists r0, cap, k. rewrite Hloop in Hret |- *.
  unfold batch_exit, utcnow in Hret |- *. cbv beta iota zeta in Hret |- *.
  match type of Hret with context [save ?m0 ?d ?io ?w0] =>
    pose proof (save_trace m0 d io w0) as Ht;
    destruct (save m0 d io w0) as [[p|e] w'] eqn:Esave end; [|done].
  cbn in Hret. injection Hret as <-. cbn [snd fst] in *.
  split; [done|]. split; [done|]. split; [done|]. split; [done|]. split; [done|].
  split; [exact Hjobs|].
  split; [done|]. split; [exact Hheader|].
  rewrite Ht. cbn [trace]. rewrite Hworld.
  unfold save, save_manifest in Esave. destruct (be_last_save env); [done|done].
Qed.


(** The jobs of the returned manifest, position by position, against the
    jobs made from the URLs. *)
Lemma batch_result_jobs options env w m :
  opt_dry_run options = false ->
  (process_batch config clock options env w).1 = Returns m ->
  exists r0,
    batch_entry config clock options env w = Some r0
    /\ length (jobs m) = length (jobs (manifest r0))
    /\ forall j job0, jobs (manifest r0) !! j = Some job0 ->
         exists job, jobs m !! j = Some job
           /\ same_identity job0 job
           /\ (status job = COMPLETED \/ status job = FAILED \/ status job = SKIPPED).
Proof.
  intros Hdry Hret.
  destruct (batch_result options env w m Hdry Hret)
    as (r0 & cap & k & Hentry & Hcap & Hk & _ & _ & Hjobs & _).
  destruct (batch_entry_spec config clock options env w r0 Hentry)
    as (Hnd & Hprist & _).
  set (before := after_jobs clock options (be_jobs env) k r0) in *.
  pose proof (after_jobs_shape options (be_jobs env) r0 k Hk) as Hshape. cbv zeta in Hshape.
  fold before in Hshape.
  assert (Hlen : length (jobs (manifest before)) = length (jobs (manifest r0))).
  { destruct (after_jobs_spec clock options (be_jobs env) r0 k Hk Hnd) as (Hids & _).
    apply (f_equal length) in Hids. by rewrite !length_fmap in Hids. }
  exists r0. split; [done|]. split.
  { rewrite Hjobs, length_app, length_fmap, length_take, length_drop. lia. }
  intros j job0 Hj. destruct (Hshape j job0 Hj) as (job & Hbj & Hid & Hdone & Hsame).
  rewrite Hjobs, cut_lookup by lia. destruct (decide (j < k)%nat) as [Hlt|Hge].
  - exists job. split; [done|]. split; [done|]. destruct (Hdone Hlt); auto.
  - rewrite Hbj. cbn. exists (skip_if_pending job). split; [done|].
    rewrite (Hsame ltac:(lia)).
    assert (Hp : pristine job0).
    { rewrite Forall_forall in Hprist. apply Hprist. by eapply list_elem_of_lookup_2. }
    destruct Hp as (a & b & c & ->). split; [done|]. right; right. done.
Qed.

End BatchShape.

Section BatchResults.

Variable config : Config.
Variable clock : nat -> datetime.

(** X1.  When a batch that is not a dry run returns, no job is left
    pending or in an intermediate stage: every job of the returned manifest
    is COMPLETED, FAILED or SKIPPED. *)
Theorem batch_run_settles_every_job options env w m :
  opt_dry_run options = false ->
  (process_batch config clock options env w).1 = Returns m ->
  Forall settled (jobs m).
Proof.
  intros Hdry Hret.
  destruct (batch_result_jobs config clock options env w m Hdry Hret)
    as (r0 & _ & Hlen & Hjobs).
  apply Forall_lookup. intros j job Hj.
  destruct (lookup_lt_is_Some_2 (jobs (manifest r0)) j) as [job0 Hj0].
  { rewrite <- Hlen. by eapply lookup_lt_Some. }
  destruct (Hjobs j job0 Hj0) as (job' & Hj' & _ & Hs).
  rewrite Hj in Hj'. by injection Hj' as <-.
Qed.

(** The loop of the dry run, position by position. *)
Lemma dry_run_loop_jobs envs n :
  forall k r,
  (k + n <= length (jobs (manifest r)))%nat ->
  let r' := dry_run_loop envs (seq k n) r in
  (forall j, jobs (manifest r') !! j
     = if decide (k <= j < k + n)%nat
       then dry_run_job (envs j) <$> jobs (manifest r) !! j
       else jobs (manifest r) !! j)
  /\ trace (world r')
     = rev (Call GetVideoMetadata <$> take n (drop k (jobs (manifest r))))
       ++ trace (world r)
  /\ files (world r') = files (world r).
Proof.
  induction n as [|n IH]; intros k r Hlen; cbn [seq dry_run_loop].
  - cbv zeta. split; [|done]. intros j. destruct (decide _); [lia|done].
  - destruct (lookup_lt_is_Some_2 (jobs (manifest r)) k) as [job Hk]; [lia|].
    rewrite Hk. fold (dry_run_job (envs k) job).
    match goal with |- context [dry_run_loop envs (seq (S k) n) ?r1] =>
      destruct (IH (S k) r1) as (Hjobs & Htrace & Hfiles) end.
    { cbn. rewrite length_insert. lia. }
    cbv zeta. cbn [manifest world jobs set_jobs trace files emit] in *.
    split; [|split].
    + intros j. rewrite Hjobs. destruct (decide (j = k)) as [->|Hne].
      * destruct (decide (S k <= k < S k + n)%nat); [lia|].
        destruct (decide (k <= k < k + S n)%nat); [|lia].
        rewrite list_lookup_insert_eq by lia. by rewrite Hk.
      * rewrite list_lookup_insert_ne by done.
        destruct (decide (S k <= j < S k + n)%nat), (decide (k <= j < k + S n)%nat);
          (done || lia).
    + rewrite Htrace. rewrite drop_insert_lt by lia.
      rewrite (drop_S _ _ _ Hk). cbn [take fmap list_fmap rev].
      by rewrite <- app_assoc.
    + exact Hfiles.
Qed.


Lemma dry_run_job_idle env job :
  idle job ->
  status (dry_run_job env job) = PENDING
  /\ is_Some (estimated_cost (dry_run_job env job))
  /\ actual_cost (dry_run_job env job) = None
  /\ failure_reason (dry_run_job env job) = None
  /\ same_identity job (dry_run_job env job).
Proof.
  intros (Hs & Hr & Hc). unfold dry_run_job.
  destruct (env_metadata env); cbn; repeat split; (done || by eexists).
Qed.

Lemma dry_run_loop_header envs idxs :
  forall r, manifest_header (manifest (dry_run_loop envs idxs r)) = manifest_header (manifest r).
Proof.
  induction idxs as [|i idxs IH]; intros r; cbn [dry_run_loop]; [done|].
  destruct (jobs (manifest r) !! i); [|apply IH]. by rewrite IH.
Qed.

(** What a dry run returns and leaves behind. *)
Lemma dry_run_result options env w m urls log :
  opt_dry_run options = true ->
  load_urls_from_file (be_input env) = Returns (urls, log) ->
  (process_batch config clock options env w).1 = Returns m ->
  exists created m0,
    jobs m0 = imap (fun k u => new_job (job_id_of (be_batch_id env) (S k)) u (created k)) urls
    /\ jobs m = imap (fun k job => dry_run_job (be_jobs env k) job) (jobs m0)
    /\ Forall (fun j => status j = PENDING /\ is_Some (estimated_cost j)
                        /\ actual_cost j = None /\ failure_reason j = None) (jobs m)
    /\ trace (process_batch config clock options env w).2
       = rev (Call GetVideoMetadata <$> jobs m0) ++ SaveManifest m0 true :: trace w
    /\ files (process_batch config clock options env w).2
       = <[manifest_path (opt_output_dir options) := manifest_dict m0]> (files w)
    /\ total_actual_cost m = 0%Q
    /\ stats_current m
    /\ manifest_header m
       = (be_batch_id env, clock (ticks w), opt_input_file options, opt_output_dir options,
          OutputFormats_value <$> opt_formats options,
          float_or (opt_budget_cap options) (cap_budget_usd config)).
Proof.
  intros Hdry Hload. unfold process_batch. rewrite Hload.
  destruct urls as [|u urls]; [done|].
  unfold create_manifest, populate_jobs, utcnow. cbn [manifest_id jobs ticks files trace].
  rewrite populate_loop_spec. cbn [ticks files trace app].
  destruct (be_mkdir env) as [[]|e]; [|done].
  unfold save, save_manifest. destruct (be_first_save env) as [[]|e]; [|done].
  cbn [files trace ticks]. rewrite Hdry.
  match goal with |- context [_perform_dry_run ?c ?envs (mkRun ?m0 ?w0)] =>
    set (M0 := m0); set (W0 := w0) end.
  unfold _perform_dry_run, utcnow. cbv beta iota zeta. cbn [fst snd manifest world].
  destruct (dry_run_loop_jobs (be_jobs env) (length (jobs M0)) 0 (mkRun M0 W0))
    as (Hjobs & Htrace & Hfiles); [cbn; lia|].
  cbv zeta in Hjobs, Htrace, Hfiles. cbn [manifest world] in Hjobs, Htrace, Hfiles.
  set (r' := dry_run_loop (be_jobs env) (seq 0 (length (jobs M0))) (mkRun M0 W0)) in *.
  intros [= <-].
  assert (Hm : jobs (manifest r')
               = imap (fun k job => dry_run_job (be_jobs env k) job) (jobs M0)).
  { apply list_eq. intros j. rewrite Hjobs, list_lookup_imap.
    destruct (decide (0 <= j < 0 + length (jobs M0))%nat) as [|Hout]; [done|].
    rewrite lookup_ge_None_2 by lia. done. }
  assert (Hidle : Forall idle (jobs M0)).
  { subst M0. cbn [jobs update_stats set_jobs].
    eapply Forall_impl; [|apply pristine_idle].
    exact (imap_new_job_pristine (be_batch_id env) (u :: urls)
             (fun k => clock (S (S (ticks w + k))))). }
  assert (Hall : Forall (fun j => status j = PENDING /\ is_Some (estimated_cost j)
                                  /\ actual_cost j = None /\ failure_reason j = None)
                   (jobs (manifest r'))).
  { rewrite Hm. apply Forall_lookup. intros j job Hj. rewrite list_lookup_imap in Hj.
    destruct (jobs M0 !! j) as [job0|] eqn:Hj0; [|done]. injection Hj as <-.
    assert (Hi : idle job0).
    { rewrite Forall_forall in Hidle. apply Hidle. by eapply list_elem_of_lookup_2. }
    destruct (dry_run_job_idle (be_jobs env j) job0 Hi) as (? & ? & ? & ? & _). done. }
  exists (fun k => clock (S (S (ticks w + k)))), M0.
  cbn [jobs update_stats total_estimated_cost total_actual_cost trace files].
  split; [done|]. split; [exact Hm|]. split; [exact Hall|].
  split.
  { change (trace (world r')
            = rev (Call GetVideoMetadata <$> jobs M0) ++ SaveManifest M0 true :: trace w).
    rewrite Htrace. subst W0. cbn [trace drop]. by rewrite firstn_all. }
  split.
  { change (files (world r')
            = <[manifest_path (opt_output_dir options) := manifest_dict M0]> (files w)).
    by rewrite Hfiles. }
  split.
  { change (sum_costs actual_cost (jobs (manifest r')) = 0%Q).
    apply sum_costs_None. eapply Forall_impl; [exact Hall|]. by intros j (_ & _ & ? & _). }
  split; [done|].
  change (manifest_header (manifest r') = manifest_header M0).
  subst r'. by rewrite dry_run_loop_header.
Qed.
(** X2.  A dry run only asks for the metadata of each video, in order: the
    returned manifest holds the jobs made from the URLs, each still PENDING
    with the estimate for its duration (for 120 seconds when it is unknown)
    and no actual cost.  The estimates are not saved: the manifest file is
    the one written before the dry run, with no estimate in it. *)
Theorem dry_run_only_estimates options env w m urls log :
  opt_dry_run options = true ->
  load_urls_from_file (be_input env) = Returns (urls, log) ->
  (process_batch config clock options env w).1 = Returns m ->
  exists created m0,
    jobs m0 = imap (fun k u => new_job (job_id_of (be_batch_id env) (S k)) u (created k)) urls
    /\ jobs m = imap (fun k job => dry_run_job (be_jobs env k) job) (jobs m0)
    /\ Forall (fun j => status j = PENDING /\ is_Some (estimated_cost j)
                        /\ actual_cost j = None /\ failure_reason j = None) (jobs m)
    /\ trace (process_batch config clock options env w).2
       = rev (Call GetVideoMetadata <$> jobs m0) ++ SaveManifest m0 true :: trace w
    /\ files (process_batch config clock options env w).2
       = <[manifest_path (opt_output_dir options) := manifest_dict m0]> (files w)
    /\ total_estimated_cost m = sum_costs estimated_cost (jobs m)
    /\ total_actual_cost m = 0%Q.
Proof.
  intros Hdry Hload Hret.
  destruct (dry_run_result options env w m urls log Hdry Hload Hret)
    as (created & m0 & H1 & H2 & H3 & H4 & H5 & H6 & (_ & _ & _ & H7 & _) & _).
  exists created, m0. done.
Qed.


Lemma imap_new_job_urls batch (urls : list string) (t : nat -> datetime) :
  url <$> imap (fun k u => new_job (job_id_of batch (1 + k)) u (t k)) urls = urls.
Proof.
  apply list_eq. intros k. rewrite list_lookup_fmap, list_lookup_imap.
  by destruct (urls !! k).
Qed.

Lemma same_identity_fields (js0 js : list TranscriptionJob) :
  length js = length js0 ->
  (forall j job0, js0 !! j = Some job0 ->
     exists job, js !! j = Some job /\ same_identity job0 job) ->
  url <$> js = url <$> js0 /\ id <$> js = id <$> js0
  /\ retry_count <$> js = retry_count <$> js0.
Proof.
  intros Hlen H.
  assert (Hall : forall (A : Type) (f : TranscriptionJob -> A),
             (forall a b, same_identity a b -> f b = f a) -> f <$> js = f <$> js0).
  { intros A f Hf. apply list_eq. intros j. rewrite !list_lookup_fmap.
    destruct (js0 !! j) as [job0|] eqn:Hj0.
    - destruct (H j job0 Hj0) as (job & -> & Hid). cbn. f_equal. by apply Hf.
    - rewrite lookup_ge_None_2; [done|]. rewrite Hlen. by apply lookup_ge_None_1. }
  split; [|split]; apply Hall; by intros a b (? & ? & ?).
Qed.

(** X3.  Whatever the mode, a batch that returns has one job for each URL
    read, in the order of the input, duplicates included; the job at
    position [k] carries the identifier made of the batch identifier and
    [k + 1], and no job has been retried. *)
Theorem batch_keeps_urls_in_order options env w m urls log :
  load_urls_from_file (be_input env) = Returns (urls, log) ->
  (process_batch config clock options env w).1 = Returns m ->
  url <$> jobs m = urls
  /\ id <$> jobs m = imap (fun k _ => job_id_of (be_batch_id env) (S k)) urls
  /\ Forall (fun j => retry_count j = 0) (jobs m)
  /\ total_jobs m = length urls.
Proof.
  intros Hload Hret.
  assert (Hgoal : forall created,
            let js0 := imap (fun k u => new_job (job_id_of (be_batch_id env) (1 + k)) u
                                          (created k)) urls in
            length (jobs m) = length js0 ->
            (forall j job0, js0 !! j = Some job0 ->
               exists job, jobs m !! j = Some job /\ same_identity job0 job) ->
            total_jobs m = length (jobs m) ->
            url <$> jobs m = urls
            /\ id <$> jobs m = imap (fun k _ => job_id_of (be_batch_id env) (S k)) urls
            /\ Forall (fun j => retry_count j = 0) (jobs m)
            /\ total_jobs m = length urls).
  { intros created js0 Hlen Hsame Htotal.
    destruct (same_identity_fields js0 (jobs m) Hlen Hsame) as (Hu & Hi & Hr).
    split; [rewrite Hu; apply imap_new_job_urls|].
    split.
    { rewrite Hi. subst js0. apply list_eq. intros k.
      rewrite list_lookup_fmap, !list_lookup_imap. by destruct (urls !! k). }
    split.
    { apply Forall_fmap with (f := retry_count) (P := fun c => c = 0). rewrite Hr.
      apply Forall_fmap, Forall_lookup. intros k j Hk. subst js0.
      rewrite list_lookup_imap in Hk. destruct (urls !! k); [|done]. by injection Hk as <-. }
    rewrite Htotal, Hlen. subst js0. by rewrite length_imap. }
  destruct (opt_dry_run options) eqn:Hdry.
  - destruct (dry_run_result options env w m urls log Hdry Hload Hret)
      as (created & m0 & Hm0 & Hm & Hall & _ & _ & _ & (Htotal & _) & _).
    apply (Hgoal created); cbv zeta.
    + rewrite Hm, length_imap, Hm0. done.
    + intros j job0 Hj. rewrite Hm, list_lookup_imap, Hm0.
      change (fun k u => new_job (job_id_of (be_batch_id env) (S k)) u (created k))
        with (fun k u => new_job (job_id_of (be_batch_id env) (1 + k)) u (created k)).
      rewrite Hj. cbn. eexists. split; [done|].
      unfold dry_run_job. by destruct (env_metadata (be_jobs env j)).
    + exact Htotal.
  - destruct (batch_result config clock options env w m Hdry Hret)
      as (r0' & cap & k & Hentry' & _ & _ & _ & _ & _ & Htotal & _).
    destruct (batch_result_jobs config clock options env w m Hdry Hret)
      as (r0 & Hentry & Hlen & Hjobs).
    destruct (batch_entry_jobs config clock options env w r0 Hentry)
      as (urls' & log' & Hload' & Hr0 & _).
    rewrite Hload in Hload'. injection Hload' as <- <-.
    apply (Hgoal (fun k => clock (S (S (ticks w + k))))); cbv zeta.
    + by rewrite Hlen, Hr0.
    + rewrite <- Hr0. intros j job0 Hj.
      destruct (Hjobs j job0 Hj) as (job & ? & ? & _). by exists job.
    + exact (proj1 Htotal).
Qed.

(** X4.  With a budget cap of zero or less, every job is skipped for the
    budget before anything is done for it: the run makes no call at all and
    only saves the manifest, before and after.  With a cap of exactly zero
    the manifest itself records the configured cap, not the zero. *)
Theorem zero_budget_skips_every_job options env w m cap :
  opt_dry_run options = false ->
  opt_budget_cap options = Some cap ->
  (cap <= 0)%Q ->
  (process_batch config clock options env w).1 = Returns m ->
  Forall skipped_for_budget (jobs m)
  /\ (exists m0,
        trace (process_batch config clock options env w).2
        = [SaveManifest m true; SaveManifest m0 true] ++ trace w
        /\ budget_cap m = budget_cap m0)
  /\ ((cap == 0)%Q -> budget_cap m = cap_budget_usd config).
Proof.
  intros Hdry Hcap Hle Hret.
  destruct (batch_entry config clock options env w) as [r0|] eqn:Hentry.
  2:{ destruct (batch_entry_None_raises config clock options env w Hentry Hdry) as [e He].
      rewrite He in Hret. done. }
  destruct (batch_entry_spec config clock options env w r0 Hentry)
    as (Hnd & Hprist & Hne & Hbudget & Htrace & _).
  destruct (batch_entry_jobs config clock options env w r0 Hentry)
    as (urls & log & _ & _ & Hzero & _).
  assert (Hreached : budget_reached cap r0 = true).
  { unfold budget_reached, Qge_bool. rewrite Hzero. by apply Qle_bool_iff. }
  rewrite (process_batch_from_entry config clock options env w r0 Hentry) in Hret |- *.
  destruct (jobs (manifest r0)) as [|j0 js] eqn:Ejobs; [done|].
  cbn [length seq] in Hret |- *.
  assert (Hj0 : jobs (manifest r0) !! 0%nat = Some j0) by (by rewrite Ejobs).
  rewrite <- Ejobs in Hnd.
  rewrite (batch_loop_cut clock options (be_jobs env) cap r0 0 _ j0 Hcap Hreached Hj0 Hnd)
    in Hret |- *.
  rewrite Ejobs in Hret |- *. cbn [take drop app] in Hret |- *.
  unfold batch_exit, utcnow in Hret |- *. cbv beta iota zeta in Hret |- *.
  match type of Hret with context [save ?m0 ?d ?io ?w0] =>
    pose proof (save_trace m0 d io w0) as Ht;
    destruct (save m0 d io w0) as [[p|e] w'] eqn:Esave end; [|done].
  cbn in Hret. injection Hret as <-. cbn [snd fst] in *.
  cbn [jobs update_stats set_jobs budget_cap].
  split; [|split].
  - change (Forall skipped_for_budget (skip_if_pending <$> (j0 :: js))).
    apply Forall_fmap. eapply Forall_impl; [exact Hprist|].
    by intros j (a & b & c & ->).
  - exists (manifest r0). split; [|done]. rewrite Ht. cbn [trace world]. rewrite Htrace.
    unfold save, save_manifest in Esave. by destruct (be_last_save env).
  - intros Hz. rewrite Hbudget, Hcap. unfold float_or, truthy_float.
    apply Qeq_bool_iff in Hz. by rewrite Hz.
Qed.

(** X5.  When the input gives no URL the batch raises the error of the
    empty list and nothing else happens.  That is so for an input with no
    line that is a URL, and also for an input that cannot be read or a table
    without a url column: the loader's own error does not reach the
    caller. *)
Theorem batch_without_urls_raises options env w :
  let no_urls := (Raises (ValueError "No valid URLs found in input file"), w) in
  (forall e, be_input env = PlainInput (Raises e) \/ be_input env = CsvInput (Raises e) ->
     process_batch config clock options env w = no_urls)
  /\ (forall c names,
        be_input env = CsvInput (Returns c) -> fieldnames c = Some names ->
        "url" ∉ names ->
        process_batch config clock options env w = no_urls)
  /\ (forall lines,
        be_input env = PlainInput (Returns lines) ->
        Forall (fun line => startswith "http" (strip line) = false) lines ->
        process_batch config clock options env w = no_urls).
Proof.
  cbv zeta. unfold process_batch. split; [|split].
  - intros e [-> | ->]; done.
  - intros c names -> Hnames Hnot. unfold load_urls_from_file, _load_urls_from_csv.
    cbn. rewrite Hnames. by rewrite bool_decide_eq_false_2.
  - intros lines -> Hall.
    destruct (txt_loop_spec lines 1 [] []) as (warned & Hrun & _).
    unfold load_urls_from_file, _load_urls_from_txt. cbn. rewrite Hrun. cbn.
    replace (List.filter (startswith "http") (strip <$> lines)) with (@nil string); [done|].
    symmetry. clear Hrun. induction Hall as [|line lines Hline _ IH]; [done|].
    cbn. by rewrite Hline.
Qed.

End BatchResults.

Lemma batch_run_settles_every_job_witness :
  exists m,
    (process_batch demo_config demo_clock (demo_options [TXT; JSON] (Some (1 # 100)))
       (demo_batch (fun _ => ok_env)) empty_world).1 = Returns m
    /\ Forall settled (jobs m).
Proof.
  let v := eval vm_compute in
    (process_batch demo_config demo_clock (demo_options [TXT; JSON] (Some (1 # 100)))
       (demo_batch (fun _ => ok_env)) empty_world).1 in
  match v with Returns ?m0 => pose (m := m0) end.
  assert (Hret : (process_batch demo_config demo_clock
                    (demo_options [TXT; JSON] (Some (1 # 100)))
                    (demo_batch (fun _ => ok_env)) empty_world).1 = Returns m)
    by (vm_compute; reflexivity).
  exists m. split; [exact Hret|].
  exact (batch_run_settles_every_job demo_config demo_clock
           (demo_options [TXT; JSON] (Some (1 # 100))) (demo_batch (fun _ => ok_env))
           empty_world m eq_refl Hret).
Defined.

Lemma dry_run_only_estimates_witness :
  let options := mkOptions "urls.txt" "out" [TXT] false true true (Some 20%Q) in
  exists m,
    (process_batch demo_config demo_clock options (demo_batch (fun _ => ok_env))
       empty_world).1 = Returns m
    /\ Forall (fun j => status j = PENDING /\ is_Some (estimated_cost j)
                        /\ actual_cost j = None /\ failure_reason j = None) (jobs m)
    /\ total_actual_cost m = 0%Q.
Proof.
  cbv zeta.
  let v := eval vm_compute in
    (process_batch demo_config demo_clock
       (mkOptions "urls.txt" "out" [TXT] false true true (Some 20%Q))
       (demo_batch (fun _ => ok_env)) empty_world).1 in
  match v with Returns ?m0 => pose (m := m0) end.
  assert (Hret : (process_batch demo_config demo_clock
                    (mkOptions "urls.txt" "out" [TXT] false true true (Some 20%Q))
                    (demo_batch (fun _ => ok_env)) empty_world).1 = Returns m)
    by (vm_compute; reflexivity).
  exists m. split; [exact Hret|].
  destruct (dry_run_only_estimates demo_config demo_clock
              (mkOptions "urls.txt" "out" [TXT] false true true (Some 20%Q))
              (demo_batch (fun _ => ok_env)) empty_world m
              [ "https://example.com/1"; "https://example.com/2"; "https://example.com/3" ]
              [InfoLoaded 3] eq_refl eq_refl Hret)
    as (created & m0 & _ & _ & Hall & _ & _ & _ & Hzero).
  split; [exact Hall|exact Hzero].
Defined.

Lemma batch_keeps_urls_in_order_witness :
  exists m,
    (process_batch demo_config demo_clock (demo_options [TXT] (Some 20%Q))
       (demo_batch (fun _ => ok_env)) empty_world).1 = Returns m
    /\ url <$> jobs m
       = [ "https://example.com/1"; "https://example.com/2"; "https://example.com/3" ]
    /\ total_jobs m = 3%nat.
Proof.
  let v := eval vm_compute in
    (process_batch demo_config demo_clock (demo_options [TXT] (Some 20%Q))
       (demo_batch (fun _ => ok_env)) empty_world).1 in
  match v with Returns ?m0 => pose (m := m0) end.
  assert (Hret : (process_batch demo_config demo_clock (demo_options [TXT] (Some 20%Q))
                    (demo_batch (fun _ => ok_env)) empty_world).1 = Returns m)
    by (vm_compute; reflexivity).
  exists m. split; [exact Hret|].
  destruct (batch_keeps_urls_in_order demo_config demo_clock
              (demo_options [TXT] (Some 20%Q)) (demo_batch (fun _ => ok_env))
              empty_world m
              [ "https://example.com/1"; "https://example.com/2"; "https://example.com/3" ]
              [InfoLoaded 3] eq_refl Hret) as (Hurls & _ & _ & Htotal).
  split; [exact Hurls|exact Htotal].
Defined.

Lemma zero_budget_skips_every_job_witness :
  exists m,
    (process_batch demo_config demo_clock (demo_options [TXT] (Some 0%Q))
       (demo_batch (fun _ => ok_env)) empty_world).1 = Returns m
    /\ Forall skipped_for_budget (jobs m)
    /\ budget_cap m = 20%Q.
Proof.
  let v := eval vm_compute in
    (process_batch demo_config demo_clock (demo_options [TXT] (Some 0%Q))
       (demo_batch (fun _ => ok_env)) empty_world).1 in
  match v with Returns ?m0 => pose (m := m0) end.
  assert (Hret : (process_batch demo_config demo_clock (demo_options [TXT] (Some 0%Q))
                    (demo_batch (fun _ => ok_env)) empty_world).1 = Returns m)
    by (vm_compute; reflexivity).
  exists m. split; [exact Hret|].
  destruct (zero_budget_skips_every_job demo_config demo_clock
              (demo_options [TXT] (Some 0%Q)) (demo_batch (fun _ => ok_env))
              empty_world m 0%Q
              eq_refl eq_refl ltac:(done) Hret) as (Hall & _ & Hcap).
  split; [exact Hall|]. apply Hcap. reflexivity.
Defined.

(** * Retries stay within the limit *)

Section RetryCounts.

Variable config : Config.
Variable clock : nat -> datetime.

(** The retry loop, position by position: a job keeps its identifier and its
    URL, and its count of retries is unchanged or, for a selected job, one
    higher. *)
Lemma retry_loop_counts budget options envs (L : list (nat * TranscriptionJob)) :
  forall r,
  NoDup L.*1 ->
  (forall i j, (i, j) ∈ L -> jobs (manifest r) !! i = Some j) ->
  let r' := retry_loop clock budget options envs L r in
  length (jobs (manifest r')) = length (jobs (manifest r))
  /\ forall i j, jobs (manifest r) !! i = Some j ->
       exists j', jobs (manifest r') !! i = Some j'
         /\ id j' = id j /\ url j' = url j
         /\ (j' = j \/ ((i, j) ∈ L /\ retry_count j' = retry_count j + 1)).
Proof.
  induction L as [|[i0 j0] L IH]; intros r Hnd Hin; cbn [retry_loop].
  - split; [done|]. intros i j Hj. exists j. auto.
  - destruct (Qge_bool _ _).
    { split; [done|]. intros i j Hj. exists j. auto. }
    change (_process_single_job clock i0 options (envs i0) _)
      with (retry_step clock options envs r i0).
    rewrite fmap_cons in Hnd. apply NoDup_cons in Hnd as [Hi0 Hnd].
    assert (Hj0 : jobs (manifest r) !! i0 = Some j0) by (apply Hin; left).
    destruct (retry_step_spec clock options envs r i0 j0 Hj0)
      as (job' & evs & Hjobs & _ & _ & Hok & _).
    set (r1 := retry_step clock options envs r i0) in *.
    destruct Hok as ((Hid & Hurl & Hcount) & _). cbn in Hid, Hurl, Hcount.
    destruct (IH r1 Hnd) as [Hlen Hpos].
    { intros i j Hm. rewrite Hjobs, list_lookup_insert_ne; [apply Hin; by right|].
      intros ->. apply Hi0. apply list_elem_of_fmap. by exists (i, j). }
    split; [by rewrite Hlen, Hjobs, length_insert|].
    intros i j Hj. destruct (decide (i = i0)) as [->|Hne].
    + rewrite Hj0 in Hj. injection Hj as <-.
      destruct (Hpos i0 job') as (j' & Hj' & Hid' & Hurl' & Hc).
      { rewrite Hjobs. apply list_lookup_insert_eq. by eapply lookup_lt_Some. }
      exists j'. split; [done|]. split; [congruence|]. split; [congruence|].
      right. split; [left|]. destruct Hc as [->|[Hm _]]; [done|].
      exfalso. apply Hi0. apply list_elem_of_fmap. by exists (i0, job').
    + destruct (Hpos i j) as (j' & Hj' & Hid' & Hurl' & Hc).
      { by rewrite Hjobs, list_lookup_insert_ne. }
      exists j'. split; [done|]. split; [done|]. split; [done|].
      destruct Hc as [->|[Hm Hc]]; [by left|]. right. split; [by right|done].
Qed.

(** X6.  A retry keeps every job at its position with its identifier and
    URL; it changes only jobs that were FAILED with a count of retries below
    the limit, whose count goes up by exactly one.  So no count ever passes
    the limit. *)
Theorem retry_keeps_counts_within_limit m budget_cap envs last_save w m' :
  (retry_failed_jobs config clock m budget_cap envs last_save w).1 = Returns m' ->
  length (jobs m') = length (jobs m)
  /\ (forall i j, jobs m !! i = Some j ->
        exists j', jobs m' !! i = Some j'
          /\ id j' = id j /\ url j' = url j
          /\ (j' = j
              \/ (status j = FAILED /\ retry_count j < retry_limit config
                  /\ retry_count j' = retry_count j + 1)))
  /\ (Forall (fun j => retry_count j <= retry_limit config) (jobs m) ->
      Forall (fun j => retry_count j <= retry_limit config) (jobs m')).
Proof.
  intros Hret.
  assert (Hmain : length (jobs m') = length (jobs m)
            /\ forall i j, jobs m !! i = Some j ->
                 exists j', jobs m' !! i = Some j'
                   /\ id j' = id j /\ url j' = url j
                   /\ (j' = j
                       \/ (status j = FAILED /\ retry_count j < retry_limit config
                           /\ retry_count j' = retry_count j + 1))).
  { revert Hret. unfold retry_failed_jobs.
    destruct (get_retryable_jobs config m) as [|ij L] eqn:EL.
    { intros [= <-]. split; [done|]. intros i j Hj. exists j. auto. }
    destruct (mapM _ _) as [formats|]; [|done].
    match goal with |- context [retry_loop clock ?b ?o envs ?l ?r0] =>
      destruct (retry_loop_counts b o envs l r0) as [Hlen Hpos];
      [rewrite <- EL; apply get_retryable_jobs_NoDup
      |intros i j Hm; rewrite <- EL in Hm;
       by apply get_retryable_jobs_spec in Hm as [? _]|];
      set (rl := retry_loop clock b o envs l r0) in * end.
    unfold utcnow. cbn [fst snd].
    destruct (save _ _ _ _) as [[p|e] w']; [|done]. intros [= <-].
    cbn [jobs update_stats manifest] in *. split; [done|].
    intros i j Hj. destruct (Hpos i j Hj) as (j' & Hj' & Hid & Hurl & Hc).
    exists j'. split; [done|]. split; [done|]. split; [done|].
    destruct Hc as [->|[Hm Hc]]; [by left|]. right.
    rewrite <- EL in Hm. apply get_retryable_jobs_spec in Hm as (_ & Hs & Hlt). done. }
  destruct Hmain as [Hlen Hpos]. split; [done|]. split; [done|].
  intros Hall. apply Forall_lookup. intros i j' Hj'.
  destruct (lookup_lt_is_Some_2 (jobs m) i) as [j Hj].
  { rewrite <- Hlen. by eapply lookup_lt_Some. }
  destruct (Hpos i j Hj) as (j'' & Hj'' & _ & _ & Hc).
  rewrite Hj' in Hj''. injection Hj'' as <-.
  destruct Hc as [->|(_ & Hlt & ->)]; [|lia].
  rewrite Forall_lookup in Hall. by apply (Hall i).
Qed.

End RetryCounts.

Lemma retry_keeps_counts_within_limit_witness :
  exists m',
    (retry_failed_jobs demo_config demo_clock retry_manifest None (fun _ => ok_env)
       (Returns ()) empty_world).1 = Returns m'
    /\ length (jobs m') = 3%nat
    /\ Forall (fun j => retry_count j <= 3) (jobs m').
Proof.
  let v := eval vm_compute in
    (retry_failed_jobs demo_config demo_clock retry_manifest None (fun _ => ok_env)
       (Returns ()) empty_world).1 in
  match v with Returns ?m => pose (m' := m) end.
  assert (Hret : (retry_failed_jobs demo_config demo_clock retry_manifest None
                    (fun _ => ok_env) (Returns ()) empty_world).1 = Returns m')
    by (vm_compute; reflexivity).
  exists m'. split; [exact Hret|].
  destruct (retry_keeps_counts_within_limit demo_config demo_clock retry_manifest None
              (fun _ => ok_env) (Returns ()) empty_world m' Hret) as (Hlen & _ & Hbound).
  split; [exact Hlen|]. apply Hbound.
  repeat (apply Forall_cons; split; [vm_compute; discriminate|]). apply Forall_nil. exact I.
Defined.

(** * The calls of one pass *)

Lemma new_events_app (w w' : World) (evs : list Event) :
  trace w' = evs ++ trace w -> new_events w w' = evs.
Proof.
  intros H. unfold new_events. rewrite H, length_app.
  replace (length evs + length (trace w) - length (trace w))%nat with (length evs) by lia.
  by rewrite take_app_length.
Qed.

Lemma call_kinds_app (a b : list Event) : call_kinds (a ++ b) = call_kinds b ++ call_kinds a.
Proof. unfold call_kinds. by rewrite rev_app_distr, omap_app. Qed.

Lemma call_kinds_formats (formats : list OutputFormats) (job : TranscriptionJob) :
  call_kinds (rev ((fun f => Call (FormatTranscript f) job) <$> formats))
  = FormatTranscript <$> formats.
Proof.
  unfold call_kinds. rewrite rev_involutive.
  induction formats as [|f l IH]; [done|]. cbn. by rewrite IH.
Qed.

Lemma new_events_done (w : World) files0 ticks0 :
  new_events w (mkWorld files0 (trace w) ticks0) = [].
Proof. unfold new_events. cbn. by rewrite Nat.sub_diag. Qed.

Lemma new_events_app_l (w : World) files0 ticks0 (l t : list Event) :
  (length (trace w) <= length t)%nat ->
  new_events w (mkWorld files0 (l ++ t) ticks0)
  = l ++ new_events w (mkWorld files0 t ticks0).
Proof.
  intros Hlen. unfold new_events. cbn [trace]. rewrite length_app.
  replace (length l + length t - length (trace w))%nat
    with (length l + (length t - length (trace w)))%nat by lia.
  by rewrite take_app_add.
Qed.

Lemma new_events_cons (w : World) files0 ticks0 (e : Event) (t : list Event) :
  (length (trace w) <= length t)%nat ->
  new_events w (mkWorld files0 (e :: t) ticks0)
  = e :: new_events w (mkWorld files0 t ticks0).
Proof. apply (new_events_app_l w files0 ticks0 [e] t). Qed.

Lemma call_kinds_unfold (evs : list Event) :
  call_kinds evs
  = omap (fun e => match e with Call k _ => Some k | _ => None end) (rev evs).
Proof. reflexivity. Qed.

Lemma call_kinds_call k j (l : list Event) : call_kinds (Call k j :: l) = call_kinds l ++ [k].
Proof. unfold call_kinds. cbn [rev]. by rewrite omap_app. Qed.

Lemma call_kinds_save m b (l : list Event) : call_kinds (SaveManifest m b :: l) = call_kinds l.
Proof. unfold call_kinds. cbn [rev]. rewrite omap_app. cbn. by rewrite app_nil_r. Qed.

Lemma call_kinds_log j (l : list Event) : call_kinds (LogProcessing j :: l) = call_kinds l.
Proof. unfold call_kinds. cbn [rev]. rewrite omap_app. cbn. by rewrite app_nil_r. Qed.

Lemma call_kinds_nil : call_kinds [] = [].
Proof. reflexivity. Qed.

Ltac read_calls :=
  repeat first
    [ rewrite call_kinds_call | rewrite call_kinds_save | rewrite call_kinds_log
    | rewrite call_kinds_app | rewrite call_kinds_formats | rewrite call_kinds_nil ];
  rewrite <- ?app_assoc; cbn [app].

Ltac count_events :=
  unfold emit; cbn [files trace ticks];
  repeat first
    [ rewrite new_events_done
    | rewrite new_events_cons by (cbn [length]; rewrite ?length_app; cbn [length]; lia)
    | rewrite new_events_app_l by (cbn [length]; rewrite ?length_app; cbn [length]; lia) ].

#[local] Arguments known_duration : simpl never.

Opaque new_events call_kinds.

Section PassCalls.

Variable clock : nat -> datetime.

(** X7.  A pass calls the services in the order of the pipeline and stops
    at the first stage that fails: after a failed download nothing is
    converted, transcribed or formatted; after a failed conversion nothing is
    transcribed or formatted; after a failed transcription nothing is
    formatted.  Each failure is followed by the writing of the job's meta
    file, and by the clean-up only from the conversion on. *)
Theorem pass_stops_at_first_failure i options env r j0 :
  jobs (manifest r) !! i = Some j0 ->
  let calls :=
    call_kinds (new_events (world r) (world (_process_single_job clock i options env r))) in
  (forall reason msg,
     env_download env = (None, Some reason, msg) ->
     calls = [GetVideoMetadata; DownloadVideo; CreateMetaFile])
  /\ (forall video_path dl_reason dl_msg reason msg,
        env_download env = (Some video_path, dl_reason, dl_msg) ->
        env_mkdir env = Returns () ->
        env_convert env = (false, Some reason, msg) ->
        calls = [GetVideoMetadata; DownloadVideo; MakeDirs; ConvertMp4ToMp3; CreateMetaFile]
                ++ cleanup_call options)
  /\ (forall video_path dl_reason dl_msg cv_reason cv_msg transcript reason msg,
        env_download env = (Some video_path, dl_reason, dl_msg) ->
        env_mkdir env = Returns () ->
        env_convert env = (true, cv_reason, cv_msg) ->
        env_transcribe env = (false, transcript, Some reason, msg) ->
        calls = [GetVideoMetadata; DownloadVideo; MakeDirs; ConvertMp4ToMp3;
                 TranscribeAudio; CreateMetaFile] ++ cleanup_call options)
  /\ (forall video_path dl_reason dl_msg cv_reason cv_msg transcript tr_reason tr_msg,
        env_download env = (Some video_path, dl_reason, dl_msg) ->
        env_mkdir env = Returns () ->
        env_convert env = (true, cv_reason, cv_msg) ->
        env_transcribe env = (true, transcript, tr_reason, tr_msg) ->
        env_save env = Returns () ->
        exists after_formats,
          calls = [GetVideoMetadata; DownloadVideo; MakeDirs; ConvertMp4ToMp3;
                   TranscribeAudio; CreateMetaFile]
                  ++ (FormatTranscript <$> opt_formats options)
                  ++ after_formats ++ cleanup_call options
          /\ (after_formats = [] \/ after_formats = [CreateMetaFile])).
Proof.
  intros Hi calls. subst calls. unfold _process_single_job. rewrite Hi.
  destruct env as [md dl mk cv tr wr sv].
  destruct options as [inp out fmts summ deltemp dry cap].
  unfold pipeline, cleanup_call.
  cbn [env_metadata env_download env_mkdir env_convert env_transcribe env_save
       opt_delete_temp opt_output_dir opt_formats].
  split; [|split; [|split]].
  - intros reason msg ->.
    unfold fail_and_return, _handle_job_failure, _cleanup_temp_files. cbn.
    destruct md; cbn; count_events; by read_calls.
  - intros video_path dl_reason dl_msg reason msg -> -> ->.
    unfold fail_and_return, _handle_job_failure, _cleanup_temp_files. cbn.
    destruct md, deltemp; cbn; count_events; by read_calls.
  - intros video_path dl_reason dl_msg cv_reason cv_msg transcript reason msg -> -> -> ->.
    unfold fail_and_return, _handle_job_failure, _cleanup_temp_files. cbn.
    destruct md, deltemp; cbn; count_events; by read_calls.
  - intros video_path dl_reason dl_msg cv_reason cv_msg transcript tr_reason tr_msg
      -> -> -> -> ->.
    unfold utcnow. cbv beta iota zeta.
    match goal with |- context [known_duration ?j] => destruct (known_duration j) as [d|] end.
    all: rewrite format_job_outputs_spec.
    all: match goal with |- context [forallb ?f ?l] => destruct (forallb f l) end.
    all: unfold fail_and_return, save, save_manifest, _handle_job_failure,
           _cleanup_temp_files.
    all: cbn.
    all: destruct md, deltemp; cbn.
    all: count_events.
    all: read_calls.
    all: first [ exists []; split; [cbn [app]; by rewrite ?app_nil_r|by left]
               | exists [CreateMetaFile]; split; [cbn [app]; by rewrite ?app_nil_r|by right] ].
Qed.

End PassCalls.

Transparent new_events call_kinds.

Lemma pass_stops_at_first_failure_witness :
  exists r0,
    batch_entry demo_config demo_clock (demo_options [TXT] (Some 20%Q))
      (demo_batch (fun _ => no_download_env)) empty_world = Some r0
    /\ call_kinds
         (new_events (world r0)
            (world (_process_single_job demo_clock 0 (demo_options [TXT] (Some 20%Q))
                      no_download_env r0)))
       = [GetVideoMetadata; DownloadVideo; CreateMetaFile].
Proof.
  let v := eval vm_compute in
    (batch_entry demo_config demo_clock (demo_options [TXT] (Some 20%Q))
       (demo_batch (fun _ => no_download_env)) empty_world) in
  match v with Some ?r => pose (r0 := r) end.
  exists r0. split; [vm_compute; reflexivity|].
  let v := eval vm_compute in (jobs (manifest r0) !! 0%nat) in
  match v with Some ?j => pose (j0 := j) end.
  destruct (pass_stops_at_first_failure demo_clock 0 (demo_options [TXT] (Some 20%Q))
              no_download_env r0 j0 eq_refl) as (Hdownload & _).
  exact (Hdownload DOWNLOAD_FAILED (Some "HTTP Error 404") eq_refl).
Defined.

(** * The manifest a batch returns *)

#[local] Arguments known_duration : simpl never.

Section BatchManifest.

Variable config : Config.
Variable clock : nat -> datetime.


Lemma OutputFormats_of_value_value (f : OutputFormats) :
  OutputFormats_of_value (OutputFormats_value f) = Some f.
Proof. by destruct f. Qed.

Lemma mapM_OutputFormats (formats : list OutputFormats) :
  mapM OutputFormats_of_value (OutputFormats_value <$> formats) = Some formats.
Proof.
  induction formats as [|f l IH]; [done|].
  cbn [fmap list_fmap mapM]. rewrite OutputFormats_of_value_value. cbn.
  change (list_fmap OutputFormats string OutputFormats_value l)
    with (OutputFormats_value <$> l).
  by rewrite IH.
Qed.

Lemma process_batch_header options env w m :
  (process_batch config clock options env w).1 = Returns m ->
  stats_current m
  /\ manifest_header m
     = (be_batch_id env, clock (ticks w), opt_input_file options, opt_output_dir options,
        OutputFormats_value <$> opt_formats options,
        float_or (opt_budget_cap options) (cap_budget_usd config)).
Proof.
  intros Hret. destruct (opt_dry_run options) eqn:Hdry.
  - destruct (load_urls_from_file (be_input env)) as [[urls log]|e] eqn:Hload.
    + destruct (dry_run_result config clock options env w m urls log Hdry Hload Hret)
        as (created & m0 & _ & _ & _ & _ & _ & _ & Hstats & Hheader). done.
    + unfold process_batch in Hret. by rewrite Hload in Hret.
  - destruct (batch_result config clock options env w m Hdry Hret)
      as (r0 & cap & k & Hentry & _ & _ & _ & _ & _ & Hstats & Hheader & _).
    destruct (batch_entry_jobs config clock options env w r0 Hentry)
      as (urls & log & _ & _ & _ & _ & Hheader0).
    split; [done|]. by rewrite Hheader.
Qed.

(** X8.  The manifest a batch returns records the options of the run: the
    batch identifier, the input file, the output directory, the requested
    formats by their names and the budget cap (the configured one when the
    options give none or zero).  The format names read back as the formats
    requested, which is what a retry of this manifest parses. *)
Theorem batch_manifest_records_its_options options env w m :
  (process_batch config clock options env w).1 = Returns m ->
  manifest_id m = be_batch_id env
  /\ input_file m = opt_input_file options
  /\ manifest_output_dir m = opt_output_dir options
  /\ output_formats m = OutputFormats_value <$> opt_formats options
  /\ budget_cap m = float_or (opt_budget_cap options) (cap_budget_usd config)
  /\ mapM OutputFormats_of_value (output_formats m) = Some (opt_formats options).
Proof.
  intros Hret. destruct (process_batch_header options env w m Hret) as [_ Hheader].
  unfold manifest_header in Hheader. injection Hheader as Hid _ Hin Hout Hfmt Hcap.
  repeat (split; [done|]). rewrite Hfmt. apply mapM_OutputFormats.
Qed.

Lemma settled_count (js : list TranscriptionJob) :
  Forall settled js ->
  length js
  = (length (filter (fun j => status j = COMPLETED) js)
     + length (filter (fun j => status j = FAILED) js)
     + length (filter (fun j => status j = SKIPPED) js))%nat.
Proof.
  induction 1 as [|j js Hj _ IH]; [done|].
  rewrite !filter_cons. cbn [length]. rewrite IH.
  destruct Hj as [Hs|[Hs|Hs]]; rewrite Hs;
    repeat (destruct (decide _) as [?|?]; try done); cbn [length]; lia.
Qed.

Lemma filter_count_le (js : list TranscriptionJob) :
  (length (filter (fun j => status j = COMPLETED) js)
   + length (filter (fun j => status j = FAILED) js) <= length js)%nat.
Proof.
  induction js as [|j js IH]; [done|].
  rewrite !filter_cons. cbn [length].
  destruct (decide (status j = COMPLETED)) as [Hc|?],
           (decide (status j = FAILED)) as [Hf|?]; cbn [length]; try lia.
  rewrite Hc in Hf. done.
Qed.

(** X9.  The counts of the manifest a batch returns are those of its jobs:
    completed and failed jobs together never exceed the total, and after a
    run that is not a dry run the completed, failed and skipped jobs add up
    to the total; the total actual cost is the sum of the jobs' actual
    costs. *)
Theorem batch_counts_add_up options env w m :
  (process_batch config clock options env w).1 = Returns m ->
  (completed_jobs m + failed_jobs m <= total_jobs m)%nat
  /\ total_actual_cost m = sum_costs actual_cost (jobs m)
  /\ (opt_dry_run options = false ->
      total_jobs m
      = (completed_jobs m + failed_jobs m
         + length (filter (fun j => status j = SKIPPED) (jobs m)))%nat).
Proof.
  intros Hret.
  destruct (process_batch_header options env w m Hret)
    as [(Htotal & Hcompleted & Hfailed & _ & Hcost) _].
  rewrite Htotal, Hcompleted, Hfailed. split; [apply filter_count_le|]. split; [done|].
  intros Hdry.
  destruct (batch_result_jobs config clock options env w m Hdry Hret)
    as (r0 & _ & Hlen & Hjobs).
  apply settled_count. apply Forall_lookup. intros j job Hj.
  destruct (lookup_lt_is_Some_2 (jobs (manifest r0)) j) as [job0 Hj0].
  { rewrite <- Hlen. by eapply lookup_lt_Some. }
  destruct (Hjobs j job0 Hj0) as (job' & Hj' & _ & Hs).
  rewrite Hj in Hj'. by injection Hj' as <-.
Qed.

End BatchManifest.

Lemma batch_manifest_records_its_options_witness :
  exists m,
    (process_batch demo_config demo_clock (demo_options [TXT; SRT] (Some 5%Q))
       (demo_batch (fun _ => ok_env)) empty_world).1 = Returns m
    /\ output_formats m = ["txt"; "srt"]
    /\ budget_cap m = 5%Q
    /\ mapM OutputFormats_of_value (output_formats m) = Some [TXT; SRT].
Proof.
  let v := eval vm_compute in
    (process_batch demo_config demo_clock (demo_options [TXT; SRT] (Some 5%Q))
       (demo_batch (fun _ => ok_env)) empty_world).1 in
  match v with Returns ?m0 => pose (m := m0) end.
  assert (Hret : (process_batch demo_config demo_clock (demo_options [TXT; SRT] (Some 5%Q))
                    (demo_batch (fun _ => ok_env)) empty_world).1 = Returns m)
    by (vm_compute; reflexivity).
  exists m. split; [exact Hret|].
  destruct (batch_manifest_records_its_options demo_config demo_clock
              (demo_options [TXT; SRT] (Some 5%Q)) (demo_batch (fun _ => ok_env))
              empty_world m Hret) as (_ & _ & _ & Hfmt & Hcap & Hparse).
  split; [exact Hfmt|]. split; [exact Hcap|exact Hparse].
Defined.

Lemma batch_counts_add_up_witness :
  exists m,
    (process_batch demo_config demo_clock (demo_options [TXT; JSON] (Some (1 # 100)))
       (demo_batch (fun _ => ok_env)) empty_world).1 = Returns m
    /\ total_jobs m
       = (completed_jobs m + failed_jobs m
          + length (filter (fun j => status j = SKIPPED) (jobs m)))%nat
    /\ (completed_jobs m, failed_jobs m, total_jobs m) = (1%nat, 0%nat, 3%nat).
Proof.
  let v := eval vm_compute in
    (process_batch demo_config demo_clock (demo_options [TXT; JSON] (Some (1 # 100)))
       (demo_batch (fun _ => ok_env)) empty_world).1 in
  match v with Returns ?m0 => pose (m := m0) end.
  assert (Hret : (process_batch demo_config demo_clock
                    (demo_options [TXT; JSON] (Some (1 # 100)))
                    (demo_batch (fun _ => ok_env)) empty_world).1 = Returns m)
    by (vm_compute; reflexivity).
  exists m. split; [exact Hret|].
  destruct (batch_counts_add_up demo_config demo_clock
              (demo_options [TXT; JSON] (Some (1 # 100))) (demo_batch (fun _ => ok_env))
              empty_world m Hret) as (_ & _ & Hsum).
  split; [exact (Hsum eq_refl)|]. vm_compute. reflexivity.
Defined.

(** * Populating a manifest *)

Section Populate.

Variable clock : nat -> datetime.

(** X10.  [populate_jobs] appends one PENDING job for each URL, in order
    and without removing duplicates; the new jobs are numbered from 1
    whatever the manifest already holds, their identifiers are pairwise
    distinct, and the statistics are brought up to date.  Nothing is written
    and no service is called. *)
Theorem populate_jobs_appends_numbered_jobs (m : TranscriptionManifest)
    (urls : list string) (w : World) :
  let out := populate_jobs clock m urls w in
  let added := drop (length (jobs m)) (jobs out.1) in
  jobs out.1 = jobs m ++ added
  /\ url <$> added = urls
  /\ id <$> added = imap (fun k _ => job_id_of (manifest_id m) (S k)) urls
  /\ NoDup (id <$> added)
  /\ Forall pristine added
  /\ stats_current out.1
  /\ manifest_header out.1 = manifest_header m
  /\ files out.2 = files w /\ trace out.2 = trace w.
Proof.
  cbv zeta. unfold populate_jobs. rewrite populate_loop_spec. unfold utcnow.
  cbn [fst snd jobs update_stats set_jobs files trace ticks].
  rewrite drop_app_length.
  split; [done|].
  split; [apply (imap_new_job_urls (manifest_id m) urls (fun k => clock (ticks w + k)))|].
  split.
  { apply list_eq. intros k. rewrite list_lookup_fmap, !list_lookup_imap.
    by destruct (urls !! k). }
  split; [apply (imap_new_job_ids (manifest_id m) urls (fun k => clock (ticks w + k)))|].
  split; [apply (imap_new_job_pristine (manifest_id m) urls (fun k => clock (ticks w + k)))|].
  done.
Qed.

End Populate.

(** * A table with a short row *)

Lemma foldl_restval_ne (ks : list string) :
  forall (d : gmap string (option string)) (k : string),
  k ∉ ks -> foldl (fun d k => <[k := None]> d) d ks !! k = d !! k.
Proof.
  induction ks as [|k0 ks IH]; intros d k Hk; [done|].
  apply not_elem_of_cons in Hk as [Hne Hk]. cbn [foldl]. rewrite IH by done.
  by rewrite lookup_insert_ne.
Qed.

Lemma foldl_restval (ks : list string) :
  forall (d : gmap string (option string)) (k : string),
  k ∈ ks -> foldl (fun d k => <[k := None]> d) d ks !! k = Some None.
Proof.
  induction ks as [|k0 ks IH]; intros d k Hk; [by apply elem_of_nil in Hk|].
  cbn [foldl]. destruct (decide (k ∈ ks)) as [Hin|Hout]; [by apply IH|].
  apply elem_of_cons in Hk as [->|Hk]; [|done].
  rewrite foldl_restval_ne by done. by rewrite lookup_insert_eq.
Qed.

Lemma short_row_url (names row : list string) :
  lacks_url_cell names row -> row_get_url (DictReader_row names row) = None.
Proof.
  intros H. unfold row_get_url, DictReader_row. by rewrite foldl_restval.
Qed.

Lemma csv_loop_short_row (names : list string) (rows : list (list string)) :
  Exists (lacks_url_cell names) rows ->
  forall n urls log,
  csv_loop names n rows urls log
  = Raises (AttributeError "'NoneType' object has no attribute 'strip'").
Proof.
  induction 1 as [row rows Hrow|row rows _ IH]; intros n urls log; cbn [csv_loop].
  - by rewrite short_row_url.
  - destruct (row_get_url _) as [cell|]; [|done].
    destruct (nonempty (strip cell) && startswith "http" (strip cell)); [apply IH|].
    destruct (nonempty (strip cell)); apply IH.
Qed.

(** X11.  One short row spoils a whole table: when some row has no cell
    under the url column, reading the table raises, and the loader answers
    with the empty list, whatever URLs the other rows hold. *)
Theorem csv_short_row_loses_every_url (c : CsvFile) (names : list string) :
  fieldnames c = Some names ->
  "url" ∈ names ->
  Exists (lacks_url_cell names) (csv_rows c) ->
  _load_urls_from_csv (Returns c)
  = Raises (AttributeError "'NoneType' object has no attribute 'strip'")
  /\ load_urls_from_file (CsvInput (Returns c))
     = Returns ([], [ErrorLoadFailed
                       (AttributeError "'NoneType' object has no attribute 'strip'")]).
Proof.
  intros Hnames Hin Hshort.
  assert (Hcsv : _load_urls_from_csv (Returns c)
                 = Raises (AttributeError "'NoneType' object has no attribute 'strip'")).
  { cbn. rewrite Hnames. rewrite bool_decide_eq_true_2 by done.
    by apply csv_loop_short_row. }
  split; [exact Hcsv|]. unfold load_urls_from_file. by rewrite Hcsv.
Qed.

Lemma csv_short_row_loses_every_url_witness :
  Exists (lacks_url_cell ["title"; "url"]) (csv_rows short_row_csv)
  /\ load_urls_from_file (CsvInput (Returns short_row_csv))
     = Returns ([], [ErrorLoadFailed
                       (AttributeError "'NoneType' object has no attribute 'strip'")]).
Proof.
  assert (H : Exists (lacks_url_cell ["title"; "url"]) (csv_rows short_row_csv)).
  { apply Exists_cons_tl, Exists_cons_hd. unfold lacks_url_cell. cbn.
    apply list_elem_of_here. }
  split; [exact H|].
  apply (csv_short_row_loses_every_url short_row_csv ["title"; "url"] eq_refl);
    [|exact H].
  apply list_elem_of_further, list_elem_of_here.
Defined.

(** C7.  A table that is invalid only in part makes the whole loading fail.
    The table [partial_csv] has the url column and two rows with a URL; its
    second row has no cell under url.  Reading it raises an AttributeError,
    the loader answers with the empty list and both URLs are lost, so that
    the batch raises for want of URLs.  With the missing cell given, even
    empty, both URLs are read. *)
Example partially_invalid_table_fails_to_load :
  fieldnames partial_csv = Some ["title"; "url"]
  /\ _load_urls_from_csv (Returns partial_csv)
     = Raises (AttributeError "'NoneType' object has no attribute 'strip'")
  /\ load_urls_from_file (CsvInput (Returns partial_csv))
     = Returns ([], [ErrorLoadFailed
                       (AttributeError "'NoneType' object has no attribute 'strip'")])
  /\ process_batch demo_config demo_clock
       (mkOptions "urls.csv" "out" [TXT] false true false (Some 20%Q))
       partial_csv_batch empty_world
     = (Raises (ValueError "No valid URLs found in input file"), empty_world)
  /\ load_urls_from_file (CsvInput (Returns completed_csv))
     = Returns (["https://example.com/1"; "https://example.com/3"], [InfoLoaded 2]).
Proof.
  split; [reflexivity|]. split; [vm_compute; reflexivity|].
  split; [vm_compute; reflexivity|]. split; vm_compute; reflexivity.
Qed.

(** * Caption grouping and words without time stamps *)

Lemma srt_loop_filter (d : Q) (N : nat) (words : list Word) :
  forall segs cur start,
  SRTFormatter.group_loop d N words segs cur start
  = SRTFormatter.group_loop d N (filter kept_word words) segs cur start.
Proof.
  induction words as [|word rest IH]; intros segs cur start; [done|].
  rewrite filter_cons. unfold kept_word at 1.
  destruct (decide (word_is_skipped word = false)) as [Hk|Hs].
  - cbn [SRTFormatter.group_loop]. rewrite Hk.
    destruct cur as [|c cur]; [apply IH|].
    destruct (word_end word) as [e|]; [|done]. destruct start as [s|]; [|done].
    destruct (Qgt_bool (e - s) d || bool_decide (N <= length (c :: cur))%nat); [|apply IH].
    destruct (make_segment (Some s) (c :: cur)); cbn [bind_outcome]; [apply IH|done].
  - cbn [SRTFormatter.group_loop]. apply not_false_is_true in Hs. rewrite Hs. apply IH.
Qed.

Lemma vtt_loop_filter (d : Q) (words : list Word) :
  forall segs cur start,
  VTTFormatter.group_loop d words segs cur start
  = VTTFormatter.group_loop d (filter kept_word words) segs cur start.
Proof.
  induction words as [|word rest IH]; intros segs cur start; [done|].
  rewrite filter_cons. unfold kept_word at 1.
  destruct (decide (word_is_skipped word = false)) as [Hk|Hs].
  - cbn [VTTFormatter.group_loop]. rewrite Hk.
    destruct cur as [|c cur]; [apply IH|].
    destruct (word_end word) as [e|]; [|done]. destruct start as [s|]; [|done].
    destruct (Qgt_bool (e - s) d); [|apply IH].
    destruct (make_segment (Some s) (c :: cur)); cbn [bind_outcome]; [apply IH|done].
  - cbn [VTTFormatter.group_loop]. apply not_false_is_true in Hs. rewrite Hs. apply IH.
Qed.

(** X12.  Both groupings ignore the words that lack a start or an end, or
    whose start or end is zero: the captions are those of the remaining
    words, and a list with no other word gives no caption at all. *)
Theorem grouping_ignores_untimed_words (words : list Word) :
  SRTFormatter._group_words_into_segments words
  = SRTFormatter._group_words_into_segments (filter kept_word words)
  /\ VTTFormatter._group_words_into_segments words
     = VTTFormatter._group_words_into_segments (filter kept_word words)
  /\ (filter kept_word words = [] ->
      SRTFormatter._group_words_into_segments words = Returns []
      /\ VTTFormatter._group_words_into_segments words = Returns []).
Proof.
  unfold SRTFormatter._group_words_into_segments, VTTFormatter._group_words_into_segments.
  split; [apply srt_loop_filter|]. split; [apply vtt_loop_filter|].
  intros Hnone. rewrite srt_loop_filter, vtt_loop_filter, Hnone. done.
Qed.

Lemma vtt_loop_within_bound (d : Q) (N : nat) (words : list Word) :
  forall segs cur start, (length cur + length words <= N)%nat ->
  VTTFormatter.group_loop d words segs cur start
  = SRTFormatter.group_loop d N words segs cur start.
Proof.
  induction words as [|word rest IH]; intros segs cur start Hlen; simpl; [done|].
  simpl in Hlen. destruct (word_is_skipped word).
  { apply IH. lia. }
  destruct cur as [|c cur].
  { apply IH. simpl. lia. }
  destruct (word_end word) as [e|]; [|done].
  destruct start as [s|]; [|done].
  rewrite (bool_decide_eq_false_2 (N <= length (c :: cur))%nat) by (simpl in *; lia).
  rewrite orb_false_r. destruct (Qgt_bool (e - s) d).
  - destruct (make_segment (Some s) (c :: cur)); simpl; [|done]. apply IH. simpl. lia.
  - apply IH. rewrite length_app. simpl in *. lia.
Qed.

(** X13.  When at most ten words carry time stamps the bound on the number
    of words never acts: the SRT and the VTT groupings give the same
    captions, or fail alike. *)
Theorem srt_and_vtt_agree_up_to_ten_words (words : list Word) :
  (length (filter kept_word words) <= 10)%nat ->
  VTTFormatter._group_words_into_segments words
  = SRTFormatter._group_words_into_segments words.
Proof.
  intros Hlen.
  unfold SRTFormatter._group_words_into_segments, VTTFormatter._group_words_into_segments.
  rewrite srt_loop_filter, vtt_loop_filter. by apply vtt_loop_within_bound.
Qed.

Lemma srt_and_vtt_agree_up_to_ten_words_witness :
  (length (filter kept_word sample_words) <= 10)%nat
  /\ VTTFormatter._group_words_into_segments sample_words
     = SRTFormatter._group_words_into_segments sample_words.
Proof.
  assert (H : (length (filter kept_word sample_words) <= 10)%nat) by (vm_compute; lia).
  split; [exact H|]. exact (srt_and_vtt_agree_up_to_ten_words sample_words H).
Defined.

(** * Looking jobs up and updating them *)

Lemma get_job_by_id_Some (m : TranscriptionManifest) (job_id : string) (job : TranscriptionJob) :
  get_job_by_id m job_id = Some job <->
  exists i, jobs m !! i = Some job /\ id job = job_id
    /\ forall k j, jobs m !! k = Some j -> (k < i)%nat -> id j <> job_id.
Proof.
  unfold get_job_by_id. split.
  - intros H. apply fmap_Some in H as ([i j] & Hfind & ->).
    apply list_find_Some in Hfind as (Hi & Hid & Hbefore). exists i. done.
  - intros (i & Hi & Hid & Hbefore). apply fmap_Some. exists (i, job).
    split; [|done]. apply list_find_Some. done.
Qed.

(** X14.  [get_job_by_id] returns the first job with the identifier asked
    for, and [None] exactly when no job has it; when the identifiers are
    pairwise distinct, as [populate_jobs] makes them, every job is found
    under its own identifier. *)
Theorem get_job_by_id_finds_the_job (m : TranscriptionManifest) (job_id : string) :
  (get_job_by_id m job_id = None <-> Forall (fun j => id j <> job_id) (jobs m))
  /\ (forall job, get_job_by_id m job_id = Some job ->
        exists i, jobs m !! i = Some job /\ id job = job_id
          /\ forall k j, jobs m !! k = Some j -> (k < i)%nat -> id j <> job_id)
  /\ (NoDup (id <$> jobs m) ->
      forall i job, jobs m !! i = Some job -> get_job_by_id m (id job) = Some job).
Proof.
  split; [|split].
  - unfold get_job_by_id. rewrite fmap_None. apply list_find_None.
  - intros job. apply get_job_by_id_Some.
  - intros Hnd i job Hi. apply get_job_by_id_Some. exists i. split; [done|]. split; [done|].
    intros k j Hk Hlt Heq.
    assert (k = i); [|lia].
    eapply NoDup_lookup; [exact Hnd| |].
    + by rewrite list_lookup_fmap, Hk.
    + by rewrite list_lookup_fmap, Hi, Heq.
Qed.

Section ManagerFacts.

Variable clock : nat -> datetime.

Lemma update_manifest_spec (m : TranscriptionManifest) (dir : Path) (io : Outcome unit)
    (w : World) :
  let out := update_manifest clock m dir io w in
  out.1 = update_stats (clock (ticks w)) m
  /\ trace out.2
     = SaveManifest out.1 (match io with Returns _ => true | Raises _ => false end)
         :: trace w.
Proof.
  cbv zeta. unfold update_manifest, utcnow.
  match goal with |- context [save ?m0 ?d ?io0 ?w0] =>
    pose proof (save_trace m0 d io0 w0) as Ht; destruct (save m0 d io0 w0) as [res w1] end.
  cbn [fst snd] in *. by rewrite Ht.
Qed.

(** X15.  [update_job_status] changes one job at most, the first with the
    identifier given: its status, and one of its two time stamps unless the
    new status is PENDING.  Nothing else of the job changes; in particular a
    job set to FAILED gets no failure reason and a job set to COMPLETED no
    actual cost.  The job is then found under the same identifier with the
    new status.  For an identifier no job has, nothing happens at all. *)
Theorem update_job_status_changes_one_job (m : TranscriptionManifest) (job_id : string)
    (new_status : JobStatus) (output_dir : option Path) (io : Outcome unit) (w : World) :
  let out := update_job_status clock m job_id new_status output_dir io w in
  (get_job_by_id m job_id = None -> out = (m, w))
  /\ (forall job, get_job_by_id m job_id = Some job ->
        exists i job',
          jobs m !! i = Some job
          /\ jobs out.1 = <[i := job']> (jobs m)
          /\ get_job_by_id out.1 job_id = Some job'
          /\ status job' = new_status
          /\ (exists started completed,
                job' = set_completed_at completed
                         (set_started_at started (set_status new_status job))
                /\ (new_status = PENDING ->
                      started = started_at job /\ completed = completed_at job)
                /\ (new_status = COMPLETED ->
                      started = started_at job /\ completed = Some (clock (ticks w)))
                /\ (new_status <> PENDING -> new_status <> COMPLETED ->
                      started = Some (clock (ticks w)) /\ completed = completed_at job))
          /\ match output_dir with
             | Some dir =>
                 stats_current out.1
                 /\ trace out.2
                    = SaveManifest out.1
                        (match io with Returns _ => true | Raises _ => false end)
                        :: trace w
             | None => trace out.2 = trace w /\ files out.2 = files w
             end).
Proof.
  cbv zeta. unfold update_job_status. split.
  - unfold get_job_by_id. intros H. apply fmap_None in H. by rewrite H.
  - intros job Hfind. pose proof Hfind as Hfind'.
    apply get_job_by_id_Some in Hfind' as (i & Hi & Hid & Hbefore).
    assert (Hlf : list_find (fun j => id j = job_id) (jobs m) = Some (i, job))
      by (by apply list_find_Some).
    rewrite Hlf.
    assert (Hlt : (i < length (jobs m))%nat) by (by eapply lookup_lt_Some).
    assert (Hfound : forall job' now,
              id job' = job_id ->
              get_job_by_id (update_stats now (set_jobs (<[i := job']> (jobs m)) m)) job_id
              = Some job'
              /\ get_job_by_id (set_jobs (<[i := job']> (jobs m)) m) job_id = Some job').
    { intros job' now Hid'. split; apply get_job_by_id_Some; exists i; cbn [jobs update_stats set_jobs];
        (split; [by apply list_lookup_insert_eq|]); (split; [done|]);
        intros k j Hk Hki; rewrite list_lookup_insert_ne in Hk by lia; by eapply Hbefore. }
    assert (Hstamp : exists job' w',
              (if bool_decide (new_status = COMPLETED) then
                 let '(now, w0) := utcnow clock w in
                 (set_completed_at (Some now) (set_status new_status job), w0)
               else if bool_decide (new_status <> PENDING) then
                 let '(now, w0) := utcnow clock w in
                 (set_started_at (Some now) (set_status new_status job), w0)
               else (set_status new_status job, w)) = (job', w')
              /\ trace w' = trace w /\ files w' = files w
              /\ id job' = job_id /\ status job' = new_status
              /\ exists started completed,
                   job' = set_completed_at completed
                            (set_started_at started (set_status new_status job))
                   /\ (new_status = PENDING ->
                         started = started_at job /\ completed = completed_at job)
                   /\ (new_status = COMPLETED ->
                         started = started_at job /\ completed = Some (clock (ticks w)))
                   /\ (new_status <> PENDING -> new_status <> COMPLETED ->
                         started = Some (clock (ticks w)) /\ completed = completed_at job)).
    { pose (get_started := started_at); pose (get_completed := completed_at).
      destruct job; destruct new_status; cbn; eexists _, _;
        (split; [reflexivity|]); (split; [reflexivity|]); (split; [reflexivity|]);
        (split; [exact Hid|]); (split; [reflexivity|]);
        match goal with |- exists s c, ?j = _ /\ _ =>
          exists (get_started j), (get_completed j) end;
        (split; [reflexivity|]);
        (split; [|split]); intros; try congruence; (split; reflexivity). }
    destruct Hstamp as (job' & w' & -> & Htr & Hfi & Hid' & Hst & Hshape).
    exists i, job'. split; [exact Hi|].
    destruct output_dir as [dir|].
    + destruct (update_manifest_spec (set_jobs (<[i := job']> (jobs m)) m) dir io w')
        as (H1 & H2).
      destruct (update_manifest clock _ dir io w') as [m2 w2]. cbn [fst snd] in *. subst m2.
      cbn [jobs update_stats]. split; [done|].
      split; [exact (proj1 (Hfound job' _ Hid'))|]. split; [done|]. split; [done|].
      split; [done|]. by rewrite H2, Htr.
    + cbn [fst snd jobs set_jobs]. split; [done|].
      split; [exact (proj2 (Hfound job' 0 Hid'))|]. done.
Qed.

End ManagerFacts.

(** * The statistics of a batch *)

Lemma status_partition (js : list TranscriptionJob) :
  length js
  = (length (filter (fun j => status j = COMPLETED) js)
     + length (filter (fun j => status j = FAILED) js)
     + length (filter (fun j => status j = PENDING) js)
     + length (filter counted_in_progress js))%nat.
Proof.
  induction js as [|j js IH]; [done|].
  cbn [length]. rewrite IH. destruct (status j) eqn:E.
  all: repeat first
         [ rewrite filter_cons_True
             by (unfold counted_in_progress; rewrite ?E; intuition congruence)
         | rewrite filter_cons_False
             by (unfold counted_in_progress; rewrite ?E; intuition congruence) ].
  all: cbn [length]; lia.
Qed.

Lemma success_rate_bounds (c t : Z) :
  0 <= c <= t -> 0 < t ->
  (0 <= inject_Z c / inject_Z t * 100 /\ inject_Z c / inject_Z t * 100 <= 100)%Q.
Proof.
  intros [Hc Hct] Ht.
  assert (Ht' : (0 < inject_Z t)%Q) by (unfold Qlt; cbn; lia).
  assert (Hc' : (0 <= inject_Z c)%Q) by (unfold Qle; cbn; lia).
  assert (Hct' : (inject_Z c <= inject_Z t)%Q) by (unfold Qle; cbn; lia).
  assert (H0 : (0 <= inject_Z c / inject_Z t)%Q).
  { apply Qle_shift_div_l; [done|]. by rewrite Qmult_0_l. }
  assert (H1 : (inject_Z c / inject_Z t <= 1)%Q).
  { apply Qle_shift_div_r; [done|]. by rewrite Qmult_1_l. }
  split.
  - apply Qmult_le_0_compat; [done|]. unfold Qle; cbn; lia.
  - apply Qle_trans with (1 * 100)%Q; [|unfold Qle; cbn; lia].
    apply Qmult_le_compat_r; [done|]. unfold Qle; cbn; lia.
Qed.

(** X16.  In the statistics of a manifest the four counts add up to the
    number of jobs; the jobs counted as in progress are those that are
    neither pending, nor completed, nor failed, so a skipped job counts as
    in progress.  The success rate lies between 0 and 100; for a manifest
    without jobs it is 0 and there is no processing time. *)
Theorem batch_stats_partition (m : TranscriptionManifest) :
  let s := calculate_batch_stats m in
  bs_completed s + bs_failed s + bs_pending s + bs_in_progress s = bs_total_jobs s
  /\ bs_in_progress s = Z.of_nat (length (filter counted_in_progress (jobs m)))
  /\ (forall j, j ∈ jobs m -> status j = SKIPPED -> 0 < bs_in_progress s)
  /\ (0 <= bs_success_rate s /\ bs_success_rate s <= 100)%Q
  /\ (jobs m = [] -> bs_success_rate s = 0%Q /\ bs_processing_time_seconds s = None).
Proof.
  cbv zeta. unfold calculate_batch_stats.
  cbn [bs_completed bs_failed bs_pending bs_in_progress bs_total_jobs bs_success_rate
       bs_processing_time_seconds bs_budget_remaining bs_total_cost].
  pose proof (status_partition (jobs m)) as Hpart.
  assert (Hin : Z.of_nat (length (jobs m))
                - Z.of_nat (length (filter (fun j => status j = COMPLETED) (jobs m)))
                - Z.of_nat (length (filter (fun j => status j = FAILED) (jobs m)))
                - Z.of_nat (length (filter (fun j => status j = PENDING) (jobs m)))
                = Z.of_nat (length (filter counted_in_progress (jobs m)))) by lia.
  split; [lia|]. split; [exact Hin|]. split; [|split].
  - intros j Hj Hs. rewrite Hin.
    assert (Hm : j ∈ filter counted_in_progress (jobs m)).
    { apply list_elem_of_filter. split; [|done]. unfold counted_in_progress. by rewrite Hs. }
    destruct (filter counted_in_progress (jobs m)); [by apply elem_of_nil in Hm|].
    cbn [length]. lia.
  - case_bool_decide as Ht; [|done].
    apply success_rate_bounds; [|done]. split; [lia|].
    apply inj_le. rewrite Hpart. lia.
  - intros ->. done.
Qed.

Section StatsAfterBatch.

Variable config : Config.
Variable clock : nat -> datetime.

(** X17.  The statistics of the manifest returned by a batch that is not a
    dry run: no job is pending, the jobs in progress are the skipped ones,
    the counts of completed and failed jobs and the total cost are the
    manifest's own, and the remaining budget is the recorded cap less the
    total actual cost. *)
Theorem batch_stats_after_run options env w m :
  opt_dry_run options = false ->
  (process_batch config clock options env w).1 = Returns m ->
  let s := calculate_batch_stats m in
  bs_pending s = 0
  /\ bs_in_progress s = Z.of_nat (length (filter (fun j => status j = SKIPPED) (jobs m)))
  /\ bs_total_jobs s = Z.of_nat (total_jobs m)
  /\ bs_completed s = Z.of_nat (completed_jobs m)
  /\ bs_failed s = Z.of_nat (failed_jobs m)
  /\ bs_total_cost s = total_actual_cost m
  /\ bs_budget_remaining s = (budget_cap m - total_actual_cost m)%Q.
Proof.
  intros Hdry Hret. cbv zeta.
  destruct (process_batch_header config clock options env w m Hret)
    as [(Htotal & Hcompleted & Hfailed & _ & Hcost) _].
  destruct (batch_result_jobs config clock options env w m Hdry Hret)
    as (r0 & _ & Hlen & Hjobs).
  assert (Hall : Forall settled (jobs m)).
  { apply Forall_lookup. intros j job Hj.
    destruct (lookup_lt_is_Some_2 (jobs (manifest r0)) j) as [job0 Hj0].
    { rewrite <- Hlen. by eapply lookup_lt_Some. }
    destruct (Hjobs j job0 Hj0) as (job' & Hj' & _ & Hs).
    rewrite Hj in Hj'. by injection Hj' as <-. }
  assert (Hpending : filter (fun j => status j = PENDING) (jobs m) = []).
  { clear -Hall. induction Hall as [|j js Hj _ IH]; [done|].
    rewrite filter_cons, IH. destruct (decide (status j = PENDING)) as [Hp|]; [|done].
    destruct Hj as [H|[H|H]]; congruence. }
  unfold calculate_batch_stats.
  cbn [bs_completed bs_failed bs_pending bs_in_progress bs_total_jobs bs_total_cost
       bs_budget_remaining].
  rewrite Hpending, Htotal, Hcompleted, Hfailed, Hcost. cbn [length].
  split; [done|]. split; [|done].
  rewrite (settled_count (jobs m) Hall). lia.
Qed.

End StatsAfterBatch.

Lemma batch_stats_after_run_witness :
  exists m,
    (process_batch demo_config demo_clock (demo_options [TXT; JSON] (Some (1 # 100)))
       (demo_batch (fun _ => ok_env)) empty_world).1 = Returns m
    /\ bs_pending (calculate_batch_stats m) = 0
    /\ bs_in_progress (calculate_batch_stats m) = 2.
Proof.
  let v := eval vm_compute in
    (process_batch demo_config demo_clock (demo_options [TXT; JSON] (Some (1 # 100)))
       (demo_batch (fun _ => ok_env)) empty_world).1 in
  match v with Returns ?m0 => pose (m := m0) end.
  assert (Hret : (process_batch demo_config demo_clock
                    (demo_options [TXT; JSON] (Some (1 # 100)))
                    (demo_batch (fun _ => ok_env)) empty_world).1 = Returns m)
    by (vm_compute; reflexivity).
  exists m. split; [exact Hret|].
  destruct (batch_stats_after_run demo_config demo_clock
              (demo_options [TXT; JSON] (Some (1 # 100))) (demo_batch (fun _ => ok_env))
              empty_world m eq_refl Hret) as (Hpending & Hprogress & _).
  split; [exact Hpending|]. rewrite Hprogress. vm_compute. reflexivity.
Defined.

(** * The estimates *)


Lemma estimate_loop_ext (downloads downloads' : nat -> option Q) (ds : list Q) :
  forall k c t,
  (forall i, (i < length ds)%nat -> downloads (k + i)%nat = downloads' (k + i)%nat) ->
  estimate_loop downloads k ds c t = estimate_loop downloads' k ds c t.
Proof.
  induction ds as [|d ds IH]; intros k c t Hext; cbn [estimate_loop]; [done|].
  pose proof (Hext 0%nat ltac:(cbn; lia)) as H0. rewrite Nat.add_0_r in H0. rewrite H0.
  apply IH. intros i Hi. replace (S k + i)%nat with (k + S i)%nat by lia.
  apply Hext. cbn. lia.
Qed.




(** X18.  [estimate_batch] looks at the first five URLs only: what the
    services would answer for the others does not matter.  For an input
    without URLs the estimate is zero; otherwise the estimate reports the
    number of URLs read and a sample of that number, capped at five. *)
Theorem estimate_batch_samples_five_urls (input : InputFile)
    (metadata : nat -> option VideoMetadata) (downloads : nat -> option Q) :
  (forall metadata' downloads',
     (forall k, (k < 5)%nat -> metadata k = metadata' k /\ downloads k = downloads' k) ->
     estimate_batch input metadata downloads = estimate_batch input metadata' downloads')
  /\ (forall log, load_urls_from_file input = Returns ([], log) ->
        estimate_batch input metadata downloads = Returns (mkEstimate 0 0 0 None))
  /\ (forall urls log,
        load_urls_from_file input = Returns (urls, log) ->
        urls <> [] ->
        exists e,
          estimate_batch input metadata downloads = Returns e
          /\ est_count e = length urls
          /\ est_sample_size e = Some (Nat.min 5 (length urls))).
Proof.
  split; [|split].
  - intros metadata' downloads' Hext. unfold estimate_batch.
    destruct (load_urls_from_file input) as [[urls log]|e]; [|done]. cbn [bind_outcome fst].
    destruct urls as [|u urls]; [done|].
    set (sample := take (Nat.min 5 (length (u :: urls))) (u :: urls)).
    assert (Hlen : (length sample <= 5)%nat).
    { subst sample. rewrite length_take. lia. }
    assert (Hd : imap (fun k _ => duration_or_default (metadata k)) sample
                 = imap (fun k _ => duration_or_default (metadata' k)) sample).
    { apply imap_ext. intros k x Hk. cbn. f_equal. apply Hext.
      apply lookup_lt_Some in Hk. lia. }
    rewrite Hd.
    rewrite (estimate_loop_ext downloads downloads'); [done|].
    intros i Hi. rewrite length_imap in Hi. apply Hext. cbn. lia.
  - intros log Hload. unfold estimate_batch. by rewrite Hload.
  - intros urls log Hload Hne. unfold estimate_batch. rewrite Hload.
    cbn [bind_outcome fst]. destruct urls as [|u urls]; [done|].
    destruct (estimate_loop _ _ _ _ _) as [total_cost total_duration].
    eexists. split; [reflexivity|].
    cbn [est_count est_sample_size]. split; [done|].
    f_equal. rewrite length_take. lia.
Qed.

Section EstimateAndDryRun.

Variable config : Config.
Variable clock : nat -> datetime.


End EstimateAndDryRun.


(** * The budget test and the jobs that fail *)

#[local] Arguments known_duration : simpl never.

Section StaleTotal.

Variable config : Config.
Variable clock : nat -> datetime.

(** A pass that leaves its job failed, with a manifest that can be saved,
    leaves the manifest's total as it was. *)
Lemma pass_failed_keeps_total i options env r j0 job' :
  jobs (manifest r) !! i = Some j0 ->
  env_save env = Returns () ->
  jobs (manifest (_process_single_job clock i options env r)) !! i = Some job' ->
  status job' = FAILED ->
  total_actual_cost (manifest (_process_single_job clock i options env r))
  = total_actual_cost (manifest r).
Proof.
  intros Hi Hsave. unfold _process_single_job. rewrite Hi.
  assert (Hlt : (i < length (jobs (manifest r)))%nat) by (by eapply lookup_lt_Some).
  destruct env as [md [[dl r1] m1] mk [[cv r2] m2] [[[tr td] r3] m3] wr sv].
  cbn in Hsave. subst sv. unfold pipeline.
  cbn [env_metadata env_download env_mkdir env_convert env_transcribe env_save].
  destruct dl as [video_path|].
  2:{ unfold fail_and_return, _handle_job_failure. cbn. by destruct r1. }
  destruct mk as [[]|e]; [|done].
  destruct cv.
  2:{ unfold fail_and_return, _handle_job_failure. cbn. by destruct r2. }
  destruct tr.
  2:{ unfold fail_and_return, _handle_job_failure. cbn. by destruct r3. }
  unfold utcnow. cbv beta iota zeta.
  destruct (_format_job_outputs _ _ _ _) as [[] w1]; cbn [negb].
  - unfold save, save_manifest. cbn [manifest jobs set_jobs update_stats].
    rewrite list_lookup_insert_eq by (by rewrite length_insert).
    intros [= <-]. done.
  - unfold fail_and_return, _handle_job_failure. done.
Qed.

Lemma after_jobs_failed_total options envs r0 k :
  (k <= length (jobs (manifest r0)))%nat ->
  (forall i, env_save (envs i) = Returns ()) ->
  (forall j job, (j < k)%nat ->
     jobs (manifest (after_jobs clock options envs k r0)) !! j = Some job ->
     status job = FAILED) ->
  total_actual_cost (manifest (after_jobs clock options envs k r0))
  = total_actual_cost (manifest r0).
Proof.
  induction k as [|k IH]; intros Hk Hsave Hfailed; [done|].
  rewrite after_jobs_S in Hfailed |- *.
  set (r := after_jobs clock options envs k r0) in *.
  destruct (lookup_lt_is_Some_2 (jobs (manifest r0)) k) as [jk Hjk]; [lia|].
  destruct (after_jobs_shape clock options envs r0 k ltac:(lia) k jk Hjk)
    as (jk' & Hrk & _ & _ & Heq).
  fold r in Hrk.
  destruct (pass_spec clock k options (envs k) r jk' Hrk) as (job' & Hjobs & _ & _ & _).
  assert (Hk' : jobs (manifest (_process_single_job clock k options (envs k) r)) !! k
                = Some job').
  { rewrite Hjobs. apply list_lookup_insert_eq. by eapply lookup_lt_Some. }
  rewrite (pass_failed_keeps_total k options (envs k) r jk' job' Hrk (Hsave k) Hk').
  - apply IH; [lia|done|]. intros j job Hj Hjob. apply (Hfailed j job); [lia|].
    rewrite Hjobs. rewrite list_lookup_insert_ne by lia. exact Hjob.
  - apply (Hfailed k job'); [lia|exact Hk'].
Qed.

(** X21.  The budget test reads the manifest's total, which is brought up
    to date only when a job completes.  So in a batch with a positive cap in
    which no job completes, the cap never acts: every job is run and failed,
    none is skipped, whatever the jobs that failed after their transcription
    have cost. *)
Theorem budget_never_acts_without_completion options env w m cap :
  opt_dry_run options = false ->
  opt_budget_cap options = Some cap ->
  (0 < cap)%Q ->
  (forall i, env_save (be_jobs env i) = Returns ()) ->
  (process_batch config clock options env w).1 = Returns m ->
  completed_jobs m = 0%nat ->
  Forall (fun j => status j = FAILED) (jobs m)
  /\ total_actual_cost m = sum_costs actual_cost (jobs m).
Proof.
  intros Hdry Hcap Hpos Hsave Hret Hnone.
  destruct (batch_result config clock options env w m Hdry Hret)
    as (r0 & cap' & k & Hentry & Hcap' & Hk & Hno & Hcut & Hjobs
        & (_ & Hcompleted & _ & _ & Hcost) & _).
  rewrite Hcap in Hcap'. injection Hcap' as <-.
  split; [|done].
  destruct (batch_entry_spec config clock options env w r0 Hentry) as (Hnd & Hprist & _).
  destruct (batch_entry_jobs config clock options env w r0 Hentry)
    as (urls & log & _ & _ & Hzero & _).
  set (before := after_jobs clock options (be_jobs env) k r0) in *.
  pose proof (after_jobs_shape clock options (be_jobs env) r0 k Hk) as Hshape.
  cbv zeta in Hshape. fold before in Hshape.
  assert (Hlen : length (jobs (manifest before)) = length (jobs (manifest r0))).
  { destruct (after_jobs_spec clock options (be_jobs env) r0 k Hk Hnd) as (Hids & _).
    apply (f_equal length) in Hids. by rewrite !length_fmap in Hids. }
  assert (Hnot : Forall (fun j => status j <> COMPLETED) (jobs m)).
  { rewrite Hnone in Hcompleted. symmetry in Hcompleted.
    apply length_zero_iff_nil in Hcompleted.
    apply Forall_forall. intros j Hj Hs.
    assert (Hin : j ∈ filter (fun j => status j = COMPLETED) (jobs m))
      by (by apply list_elem_of_filter).
    rewrite Hcompleted in Hin. by apply elem_of_nil in Hin. }
  assert (Hfirst : forall j job, (j < k)%nat ->
            jobs (manifest before) !! j = Some job -> status job = FAILED).
  { intros j job Hj Hjob.
    destruct (lookup_lt_is_Some_2 (jobs (manifest r0)) j) as [job0 Hj0]; [lia|].
    destruct (Hshape j job0 Hj0) as (job' & Hj' & _ & Hdone & _).
    rewrite Hjob in Hj'. injection Hj' as <-.
    destruct (Hdone Hj) as [Hc|Hf]; [|done].
    exfalso. rewrite Forall_lookup in Hnot. apply (Hnot j job); [|done].
    rewrite Hjobs, cut_lookup by lia. by destruct (decide (j < k)%nat). }
  assert (Hkn : k = length (jobs (manifest r0))).
  { destruct (decide (k < length (jobs (manifest r0)))%nat) as [Hlt|]; [|lia].
    exfalso. specialize (Hcut Hlt).
    unfold budget_reached, Qge_bool, before in Hcut.
    rewrite (after_jobs_failed_total options (be_jobs env) r0 k Hk Hsave Hfirst) in Hcut.
    rewrite Hzero in Hcut. apply Qle_bool_iff in Hcut.
    by apply (Qlt_not_le 0 cap). }
  apply Forall_lookup. intros j job Hj. rewrite Hjobs, cut_lookup in Hj by lia.
  assert (Hjk : (j < k)%nat).
  { destruct (decide (j < k)%nat) as [|Hge]; [done|].
    rewrite lookup_ge_None_2 in Hj by lia. done. }
  destruct (decide (j < k)%nat); [|lia]. by apply (Hfirst j).
Qed.

End StaleTotal.

Lemma budget_never_acts_without_completion_witness :
  exists m,
    (process_batch demo_config demo_clock (demo_options [TXT] (Some (2 # 10)))
       (demo_batch (fun _ => write_env (fun _ => false))) empty_world).1 = Returns m
    /\ Forall (fun j => status j = FAILED) (jobs m)
    /\ (total_actual_cost m == 441 # 1000)%Q.
Proof.
  let v := eval vm_compute in
    (process_batch demo_config demo_clock (demo_options [TXT] (Some (2 # 10)))
       (demo_batch (fun _ => write_env (fun _ => false))) empty_world).1 in
  match v with Returns ?m0 => pose (m := m0) end.
  assert (Hret : (process_batch demo_config demo_clock (demo_options [TXT] (Some (2 # 10)))
                    (demo_batch (fun _ => write_env (fun _ => false)))
                    empty_world).1 = Returns m)
    by (vm_compute; reflexivity).
  exists m. split; [exact Hret|].
  destruct (budget_never_acts_without_completion demo_config demo_clock
              (demo_options [TXT] (Some (2 # 10)))
              (demo_batch (fun _ => write_env (fun _ => false))) empty_world m (2 # 10)
              eq_refl eq_refl ltac:(done) ltac:(done) Hret eq_refl) as [Hall _].
  split; [exact Hall|]. vm_compute. reflexivity.
Defined.

(** * White space around the lines of the input *)

Lemma string_app_cons (c : ascii) (s t : string) : String c s +:+ t = String c (s +:+ t).
Proof. reflexivity. Qed.

Lemma string_app_nil_l (t : string) : "" +:+ t = t.
Proof. reflexivity. Qed.

Lemma string_app_nil_r (s : string) : s +:+ "" = s.
Proof. induction s as [|c s IH]; [done|]. by rewrite string_app_cons, IH. Qed.

Lemma string_app_assoc (a b c : string) : (a +:+ b) +:+ c = a +:+ (b +:+ c).
Proof. induction a as [|x a IH]; [done|]. by rewrite !string_app_cons, IH. Qed.

Lemma rev_app_spec (s : string) :
  forall acc, String.rev_app s acc = String.rev s +:+ acc.
Proof.
  unfold String.rev. induction s as [|c s IH]; intros acc; [done|].
  cbn [String.rev_app]. rewrite (IH (String c "")), IH, string_app_assoc. done.
Qed.

Lemma string_rev_cons (c : ascii) (s : string) :
  String.rev (String c s) = String.rev s +:+ String c "".
Proof. unfold String.rev at 1. cbn [String.rev_app]. apply rev_app_spec. Qed.

Lemma string_rev_app (a b : string) : String.rev (a +:+ b) = String.rev b +:+ String.rev a.
Proof.
  induction a as [|c a IH].
  - by rewrite string_app_nil_l, string_app_nil_r.
  - by rewrite string_app_cons, !string_rev_cons, IH, string_app_assoc.
Qed.

Lemma all_space_app (a b : string) : all_space (a +:+ b) = all_space a && all_space b.
Proof.
  induction a as [|c a IH]; [done|].
  rewrite string_app_cons. cbn [all_space]. by rewrite IH, andb_assoc.
Qed.

Lemma all_space_rev (s : string) : all_space (String.rev s) = all_space s.
Proof.
  induction s as [|c s IH]; [done|].
  rewrite string_rev_cons, all_space_app, IH. cbn [all_space].
  rewrite andb_true_r. apply andb_comm.
Qed.

Lemma lstrip_all_space (s : string) : all_space s = true -> lstrip s = "".
Proof.
  induction s as [|c s IH]; [done|]. cbn [all_space lstrip].
  intros [Hc Hs]%andb_true_iff. rewrite Hc. auto.
Qed.

Lemma lstrip_app_space (ws s : string) : all_space ws = true -> lstrip (ws +:+ s) = lstrip s.
Proof.
  induction ws as [|c ws IH]; [done|]. rewrite string_app_cons. cbn [all_space lstrip].
  intros [Hc Hs]%andb_true_iff. rewrite Hc. auto.
Qed.

Lemma lstrip_app (s t : string) : all_space s = false -> lstrip (s +:+ t) = lstrip s +:+ t.
Proof.
  induction s as [|c s IH]; [done|]. rewrite string_app_cons. cbn [all_space lstrip].
  destruct (py_isspace c); cbn [andb]; [apply IH|done].
Qed.

Lemma rstrip_app_space (s ws : string) : all_space ws = true -> rstrip (s +:+ ws) = rstrip s.
Proof.
  intros H. unfold rstrip. rewrite string_rev_app, lstrip_app_space; [done|].
  by rewrite all_space_rev.
Qed.

Lemma strip_padded (line : string) (pad : string * string) :
  all_space pad.1 = true -> all_space pad.2 = true -> strip (padded line pad) = strip line.
Proof.
  intros H1 H2. unfold strip, padded. rewrite lstrip_app_space by done.
  destruct (all_space line) eqn:E.
  - rewrite !lstrip_all_space; [done|done|]. by rewrite all_space_app, E, H2.
  - rewrite lstrip_app by done. by apply rstrip_app_space.
Qed.

Lemma txt_loop_padded (lines : list string) :
  forall (pads : list (string * string)) n urls log,
  length pads = length lines ->
  Forall (fun pad => all_space pad.1 = true /\ all_space pad.2 = true) pads ->
  txt_loop n (zip_with padded lines pads) urls log = txt_loop n lines urls log.
Proof.
  induction lines as [|line lines IH]; intros [|pad pads] n urls log Hlen Hall; try done.
  apply Forall_cons in Hall as [[H1 H2] Hall]. cbn [zip_with txt_loop].
  rewrite strip_padded by done.
  injection Hlen as Hlen.
  destruct (nonempty (strip line) && negb (startswith "#" (strip line))).
  - destruct (startswith "http" (strip line)); by apply IH.
  - by apply IH.
Qed.

(** X22.  White space around a line of the input does not matter:
    indentation, trailing blanks and the line ending (that of a file written
    on Windows too) are dropped before the line is looked at, so the URLs
    read and the warnings logged are those of the bare lines. *)
Theorem text_loader_ignores_surrounding_whitespace
    (lines : list string) (pads : list (string * string)) :
  length pads = length lines ->
  Forall (fun pad => all_space pad.1 = true /\ all_space pad.2 = true) pads ->
  _load_urls_from_txt (Returns (zip_with padded lines pads))
  = _load_urls_from_txt (Returns lines)
  /\ load_urls_from_file (PlainInput (Returns (zip_with padded lines pads)))
     = load_urls_from_file (PlainInput (Returns lines)).
Proof.
  intros Hlen Hall.
  assert (H : _load_urls_from_txt (Returns (zip_with padded lines pads))
              = _load_urls_from_txt (Returns lines)).
  { unfold _load_urls_from_txt. cbn [bind_outcome]. by rewrite txt_loop_padded. }
  split; [exact H|]. unfold load_urls_from_file. by rewrite H.
Qed.

Lemma text_loader_ignores_surrounding_whitespace_witness :
  load_urls_from_file
    (PlainInput (Returns (zip_with padded [ "https://example.com/1"; "# a comment" ]
                            [ ("  ", crlf); ("", crlf) ])))
  = Returns ([ "https://example.com/1" ], [InfoLoaded 1]).
Proof.
  destruct (text_loader_ignores_surrounding_whitespace
              [ "https://example.com/1"; "# a comment" ] [ ("  ", crlf); ("", crlf) ]
              eq_refl) as [_ H].
  - repeat (apply Forall_cons; split; [split; reflexivity|]). apply Forall_nil. exact I.
  - rewrite H. reflexivity.
Defined.
